(** * d3d: the object-detection benchmark engine ([d3d/benchmarks.py])

    A shallow embedding of [ObjectBenchmark]: the threshold ladder built by
    the constructor, the per-frame matcher [get_stats], the accumulator
    [add_stats] and the metric queries, followed by the properties proved
    about them.

    Conventions of the embedding:
    - Python and numpy floats are modelled as exact rationals ([Q]); values
      are compared with [==] and the boolean tests on [Q].
    - Python exceptions are modelled by the [result] monad.
    - dictionaries are [gmap]s, Python lists are [list]s, and every
      subscript that can raise in Python is a fallible lookup here. *)

From Stdlib Require Import QArith ZArith Lia Lqa String.
From Stdlib Require Import Sorting.Sorted Sorting.Permutation.
From stdpp Require Import gmap strings list fin_maps sorting pretty.

Local Open Scope Q_scope.
Local Open Scope Z_scope.
Local Open Scope nat_scope.
Local Open Scope string_scope.
Local Open Scope list_scope.

(** ** Exceptions *)

Inductive exn :=
  | AssertionError | ValueError | TypeError | IndexError | KeyError
  | ZeroDivisionError.

Inductive result (A : Type) :=
  | Ok (a : A)
  | Raise (e : exn).
Arguments Ok {A} a.
Arguments Raise {A} e.

#[global] Instance result_ret : MRet result := fun A a => Ok a.
#[global] Instance result_bind : MBind result := fun A B f r =>
  match r with
  | Ok a => f a
  | Raise e => Raise e
  end.

Definition of_option {A} (e : exn) (o : option A) : result A :=
  match o with
  | Some a => Ok a
  | None => Raise e
  end.

(** [for x in l: s = body x s], stopping at the first exception. *)
Fixpoint for_each {A S} (l : list A) (body : A -> S -> result S) (s : S)
  : result S :=
  match l with
  | [] => Ok s
  | x :: l' => s' ← body x s; for_each l' body s'
  end.

(** ** Python subscripts *)

(** [l[i]] on a list, for a non-negative index. *)
Definition getitem {A} (l : list A) (i : nat) : result A :=
  of_option IndexError (l !! i).

(** [l[i]] on a list, for an index that may be negative (counted from the
    end, as Python does). *)
Definition py_index {A} (l : list A) (i : Z) : option A :=
  if (i <? 0)%Z then
    if (i + Z.of_nat (length l) <? 0)%Z then None
    else l !! Z.to_nat (i + Z.of_nat (length l))
  else l !! Z.to_nat i.

(** [d[k]] on a dictionary. *)
Definition dict_get `{Countable K} {V} (d : gmap K V) (k : K) : result V :=
  of_option KeyError (d !! k).

(** [{k: v for k in ks}]. *)
Definition dict_fromkeys `{Countable K} {V} (ks : list K) (v : V) : gmap K V :=
  foldl (fun d k => <[k := v]> d) ∅ ks.

(** [{k: f(k) for k in ks}] where evaluating [f(k)] may raise. *)
Fixpoint dict_comp `{Countable K} {V} (ks : list K) (f : K -> result V)
    (acc : gmap K V) : result (gmap K V) :=
  match ks with
  | [] => Ok acc
  | k :: ks' => v ← f k; dict_comp ks' f (<[k := v]> acc)
  end.

(** [d[k][i] += n] on a dictionary of lists. *)
Definition add_at `{Countable K} (d : gmap K (list nat)) (k : K) (i n : nat)
  : result (gmap K (list nat)) :=
  l ← dict_get d k;
  x ← getitem l i;
  Ok (<[k := <[i := x + n]> l]> d).

(** ** Rationals *)

Definition Qltb (x y : Q) : bool := negb (Qle_bool y x).

Definition Qnat (n : nat) : Q := inject_Z (Z.of_nat n).

(** ** numpy *)

(** [np.linspace(start, stop, num, endpoint=False)]. *)
Definition linspace_open (start stop : Q) (num : nat) : list Q :=
  let step := ((stop - start) / Qnat num)%Q in
  map (fun i => (Qnat i * step + start)%Q) (seq 0 num).

(** [np.searchsorted(a, v)] (side [left]) on an ascending array: the lowest
    position whose entry is not below [v]. *)
Fixpoint searchsorted (a : list Q) (v : Q) : nat :=
  match a with
  | [] => 0
  | x :: a' => if Qltb x v then S (searchsorted a' v) else 0
  end.

(** [np.argsort(scores)]: the indices of [scores] in ascending order of
    score. numpy leaves the relative order of equal scores to its sorting
    algorithm; the model keeps their relative position. *)
Definition score_at (scores : list Q) (i : nat) : Q := nth i scores 0%Q.

Fixpoint insert_by (scores : list Q) (i : nat) (l : list nat) : list nat :=
  match l with
  | [] => [i]
  | j :: l' =>
      if Qle_bool (score_at scores i) (score_at scores j) then i :: j :: l'
      else j :: insert_by scores i l'
  end.

Definition argsort (scores : list Q) : list nat :=
  foldr (insert_by scores) [] (seq 0 (length scores)).

(** [a[:1:-1]]: from the last entry down to the entry at position 2. *)
Definition slice_to1_rev {A} (a : list A) : list A := rev (drop 2 a).

(** ** Data model *)

(** Object classes are the members of an [Enum]; a member is identified by
    its value. *)
Abbreviation ObjectClass := nat (only parsing).

(** The part of [ObjectTarget3D] the benchmark reads: the top-ranked label
    ([tag_top], the first of the tag's labels sorted by descending score) and
    its score ([tag_score]). *)
Record ObjectTarget3D := {
  tag_top : ObjectClass;
  tag_score : Q
}.

(** A box array with the identifier of its frame, which [get_stats]
    compares. *)
Record ObjectTarget3DArray := {
  frame : nat;
  boxes : list ObjectTarget3D
}.

(** A constructor argument that is either a single value or a list. *)
Inductive one_or_many (A : Type) :=
  | One (a : A)
  | Many (l : list A).
Arguments One {A} a.
Arguments Many {A} l.

(** The statistics of one frame (the [edict] returned by [get_stats]). *)
Record FrameStats := {
  st_tp : gmap ObjectClass (list nat);
  st_fp : gmap ObjectClass (list nat);
  st_fn : gmap ObjectClass (list nat);
  st_ngt : gmap ObjectClass nat;
  st_ndt : gmap ObjectClass (list nat)
}.

Record ObjectBenchmark := {
  _classes : list ObjectClass;
  _min_overlaps : gmap ObjectClass Q;
  _pr_nsamples : nat;
  _min_score : Q;
  _pr_thresholds : list Q;
  _total_gt : gmap ObjectClass nat;
  _total_dt : gmap ObjectClass (list nat);
  _tp : gmap ObjectClass (list nat);
  _fp : gmap ObjectClass (list nat);
  _fn : gmap ObjectClass (list nat)
}.

(** ** The constructor *)

Section Constructor.

(** [np.geomspace(start, stop, num)] and Python's [int(str)]: library
    functions whose results are not rational in general; they are taken
    as parameters. *)
Variable geomspace : Q -> Q -> nat -> result (list Q).
Variable py_int : string -> result Z.

(** [classes[i]] on the constructor's raw [classes] argument. *)
Definition classes_getitem (classes : one_or_many ObjectClass) (i : nat)
  : result ObjectClass :=
  match classes with
  | One _ => Raise TypeError
  | Many cs => getitem cs i
  end.

(** [{classes[i]: v for i, v in enumerate(min_overlaps)}]. *)
Fixpoint overlaps_of_list (classes : one_or_many ObjectClass) (i : nat)
    (vs : list Q) (acc : gmap ObjectClass Q) : result (gmap ObjectClass Q) :=
  match vs with
  | [] => Ok acc
  | v :: vs' =>
      c ← classes_getitem classes i;
      overlaps_of_list classes (S i) vs' (<[c := v]> acc)
  end.

(** The score thresholds (lines 33-41). *)
Definition make_thresholds (pr_sample_count : nat) (min_score : Q)
    (pr_sample_scale : string) : result (list Q) :=
  if String.eqb pr_sample_scale "lin" then
    Ok (linspace_open min_score 1 pr_sample_count)
  else if String.prefix "log" pr_sample_scale then
    let tail := String.substring 3 (String.length pr_sample_scale - 3)
                  pr_sample_scale in
    let logstart := 1%Z in
    logend ← py_int (if String.eqb tail "" then "10" else tail);
    g ← geomspace (inject_Z logstart) (inject_Z logend) (pr_sample_count + 1);
    let t1 := map (fun x => ((x - inject_Z logstart) * (1 - min_score)
                             / (inject_Z logend - inject_Z logstart))%Q) g in
    let t2 := map (fun x => (1 - x)%Q) t1 in
    Ok (slice_to1_rev t2)
  else Raise ValueError.

Definition init (classes : one_or_many ObjectClass)
    (min_overlaps : one_or_many Q) (pr_sample_count : nat) (min_score : Q)
    (pr_sample_scale : string) : result ObjectBenchmark :=
  let cls := match classes with One c => [c] | Many cs => cs end in
  overlaps ← match min_overlaps with
             | Many vs => overlaps_of_list classes 0 vs ∅
             | One v => Ok (dict_fromkeys cls v)
             end;
  thresholds ← make_thresholds pr_sample_count min_score pr_sample_scale;
  Ok {| _classes := cls;
        _min_overlaps := overlaps;
        _pr_nsamples := pr_sample_count;
        _min_score := min_score;
        _pr_thresholds := thresholds;
        _total_gt := dict_fromkeys cls 0;
        _total_dt := dict_fromkeys cls (replicate pr_sample_count 0);
        _tp := dict_fromkeys cls (replicate pr_sample_count 0);
        _fp := dict_fromkeys cls (replicate pr_sample_count 0);
        _fn := dict_fromkeys cls (replicate pr_sample_count 0) |}.

End Constructor.

(** ** The per-frame matcher *)

(** The local variables of [get_stats]. *)
Record locals := {
  l_tp : gmap ObjectClass (list nat);
  l_fp : gmap ObjectClass (list nat);
  l_fn : gmap ObjectClass (list nat);
  l_ngt : gmap ObjectClass nat;
  l_ndt : gmap ObjectClass (list nat);
  dt_assignment : list (gmap nat nat);
  gt_assignment : list (gmap nat nat)
}.

Definition to_stats (s : locals) : FrameStats :=
  {| st_tp := l_tp s; st_fp := l_fp s; st_fn := l_fn s;
     st_ngt := l_ngt s; st_ndt := l_ndt s |}.

Section Matcher.

Variable self : ObjectBenchmark.
(** The IoU matrix ([box2d_iou] of the two box arrays), rows indexed by
    ground truth and columns by detection. *)
Variable iou : nat -> nat -> Q.
Variable gt_boxes dt_boxes : list ObjectTarget3D.

(** Lines 85-91: the assignment of one (ground truth, detection) pair at
    the given levels. *)
Fixpoint assign_box (levels : list nat) (gt_idx dt_idx : nat)
    (da ga : list (gmap nat nat))
  : result (list (gmap nat nat) * list (gmap nat nat)) :=
  match levels with
  | [] => Ok (da, ga)
  | score_idx :: rest =>
      d ← getitem da score_idx;
      if decide (is_Some (d !! dt_idx)) then
        assign_box rest gt_idx dt_idx da ga
      else
        g ← getitem ga score_idx;
        assign_box rest gt_idx dt_idx
          (<[score_idx := <[dt_idx := gt_idx]> d]> da)
          (<[score_idx := <[gt_idx := dt_idx]> g]> ga)
  end.

(** Lines 74-92: the scan of the detections, in the given order, for one
    ground truth. *)
Fixpoint scan (order : list nat) (gt_idx : nat) (gt_tag : ObjectClass)
    (da ga : list (gmap nat nat))
  : result (list (gmap nat nat) * list (gmap nat nat)) :=
  match order with
  | [] => Ok (da, ga)
  | dt_idx :: rest =>
      dt_box ← getitem dt_boxes dt_idx;
      if decide (tag_top dt_box ≠ gt_tag) then scan rest gt_idx gt_tag da ga
      else
        min_overlap ← dict_get (_min_overlaps self) gt_tag;
        if Qltb min_overlap (iou gt_idx dt_idx) then
          let thres_loc :=
            Z.of_nat (searchsorted (_pr_thresholds self) (tag_score dt_box)) in
          if (0 <=? thres_loc)%Z then
            assign_box (seq 0 (Z.to_nat thres_loc)) gt_idx dt_idx da ga
          else Raise AssertionError
        else scan rest gt_idx gt_tag da ga
  end.

(** Lines 95-99. *)
Definition count_gt (gt_idx : nat) (gt_tag : ObjectClass) (score_idx : nat)
    (s : locals) : result locals :=
  g ← getitem (gt_assignment s) score_idx;
  if decide (is_Some (g !! gt_idx)) then
    tp' ← add_at (l_tp s) gt_tag score_idx 1;
    Ok {| l_tp := tp'; l_fp := l_fp s; l_fn := l_fn s; l_ngt := l_ngt s;
          l_ndt := l_ndt s; dt_assignment := dt_assignment s;
          gt_assignment := gt_assignment s |}
  else
    fn' ← add_at (l_fn s) gt_tag score_idx 1;
    Ok {| l_tp := l_tp s; l_fp := l_fp s; l_fn := fn'; l_ngt := l_ngt s;
          l_ndt := l_ndt s; dt_assignment := dt_assignment s;
          gt_assignment := gt_assignment s |}.

(** Lines 68-99: the body of the loop over the ground truths. *)
Definition gt_body (order : list nat) (gt_idx : nat) (s : locals)
  : result locals :=
  gt_box ← getitem gt_boxes gt_idx;
  let gt_tag := tag_top gt_box in
  if decide (gt_tag ∈ _classes self) then
    '(da, ga) ← scan order gt_idx gt_tag (dt_assignment s) (gt_assignment s);
    n ← dict_get (l_ngt s) gt_tag;
    let s1 := {| l_tp := l_tp s; l_fp := l_fp s; l_fn := l_fn s;
                 l_ngt := <[gt_tag := n + 1]> (l_ngt s); l_ndt := l_ndt s;
                 dt_assignment := da; gt_assignment := ga |} in
    for_each (seq 0 (_pr_nsamples self)) (count_gt gt_idx gt_tag) s1
  else Ok s.

(** Lines 108-110. *)
Definition count_dt (dt_idx : nat) (dt_tag : ObjectClass) (score_idx : nat)
    (s : locals) : result locals :=
  ndt' ← add_at (l_ndt s) dt_tag score_idx 1;
  d ← getitem (dt_assignment s) score_idx;
  if decide (is_Some (d !! dt_idx)) then
    Ok {| l_tp := l_tp s; l_fp := l_fp s; l_fn := l_fn s; l_ngt := l_ngt s;
          l_ndt := ndt'; dt_assignment := dt_assignment s;
          gt_assignment := gt_assignment s |}
  else
    fp' ← add_at (l_fp s) dt_tag score_idx 1;
    Ok {| l_tp := l_tp s; l_fp := fp'; l_fn := l_fn s; l_ngt := l_ngt s;
          l_ndt := ndt'; dt_assignment := dt_assignment s;
          gt_assignment := gt_assignment s |}.

(** Lines 102-110: the body of the loop over the detections. *)
Definition dt_body (dt_idx : nat) (s : locals) : result locals :=
  dt_box ← getitem dt_boxes dt_idx;
  if decide (tag_top dt_box ∈ _classes self) then
    let thres_loc :=
      (Z.of_nat (searchsorted (_pr_thresholds self) (tag_score dt_box)) - 1)%Z in
    for_each (seq 0 (Z.to_nat thres_loc))
             (count_dt dt_idx (tag_top dt_box)) s
  else Ok s.

(** Lines 54-60. *)
Definition fresh_locals : locals :=
  let n := _pr_nsamples self in
  let cls := _classes self in
  {| l_tp := dict_fromkeys cls (replicate n 0);
     l_fp := dict_fromkeys cls (replicate n 0);
     l_fn := dict_fromkeys cls (replicate n 0);
     l_ngt := dict_fromkeys cls 0;
     l_ndt := dict_fromkeys cls (replicate n 0);
     dt_assignment := replicate n ∅;
     gt_assignment := replicate n ∅ |}.

(** The detection order (line 66): best score first. *)
Definition dt_order : list nat :=
  rev (argsort (map tag_score dt_boxes)).

(** The locals after the ground-truth loop. *)
Definition gt_loop : result locals :=
  for_each (seq 0 (length gt_boxes)) (gt_body dt_order) fresh_locals.

(** The locals at the [return] of [get_stats]. *)
Definition get_stats_locals : result locals :=
  s ← gt_loop;
  for_each (seq 0 (length dt_boxes)) dt_body s.

End Matcher.

Definition get_stats (self : ObjectBenchmark) (iou : nat -> nat -> Q)
    (gt_boxes dt_boxes : ObjectTarget3DArray) : result FrameStats :=
  if decide (frame gt_boxes = frame dt_boxes) then
    s ← get_stats_locals self iou (boxes gt_boxes) (boxes dt_boxes);
    Ok (to_stats s)
  else Raise AssertionError.

(** ** The accumulator *)

Section Accumulator.

Variable stats : FrameStats.

(** [stats.f[k][i]] on the [edict]: a missing key yields an empty [edict],
    on which the addition raises [TypeError]. *)
Definition stats_get (f : gmap ObjectClass (list nat)) (k : ObjectClass)
    (i : nat) : result nat :=
  l ← of_option TypeError (f !! k);
  getitem l i.

(** [d[k][i] += e] on a table of [self], where evaluating [e] may raise:
    Python reads [d[k][i]] before it evaluates [e]. *)
Definition add_from (d : gmap ObjectClass (list nat)) (k : ObjectClass)
    (i : nat) (e : result nat) : result (gmap ObjectClass (list nat)) :=
  l ← dict_get d k;
  x ← getitem l i;
  n ← e;
  Ok (<[k := <[i := x + n]> l]> d).

(** Lines 124-127. *)
Definition add_level (k : ObjectClass) (i : nat) (self : ObjectBenchmark)
  : result ObjectBenchmark :=
  total_dt' ← add_from (_total_dt self) k i (stats_get (st_ndt stats) k i);
  tp' ← add_from (_tp self) k i (stats_get (st_tp stats) k i);
  fp' ← add_from (_fp self) k i (stats_get (st_fp stats) k i);
  fn' ← add_from (_fn self) k i (stats_get (st_fn stats) k i);
  Ok {| _classes := _classes self; _min_overlaps := _min_overlaps self;
        _pr_nsamples := _pr_nsamples self; _min_score := _min_score self;
        _pr_thresholds := _pr_thresholds self; _total_gt := _total_gt self;
        _total_dt := total_dt'; _tp := tp'; _fp := fp'; _fn := fn' |}.

(** Lines 122-127: the body of the loop over the classes. *)
Definition add_class (k : ObjectClass) (self : ObjectBenchmark)
  : result ObjectBenchmark :=
  total ← dict_get (_total_gt self) k;
  ngt ← of_option TypeError (st_ngt stats !! k);
  let self1 :=
    {| _classes := _classes self; _min_overlaps := _min_overlaps self;
       _pr_nsamples := _pr_nsamples self; _min_score := _min_score self;
       _pr_thresholds := _pr_thresholds self;
       _total_gt := <[k := total + ngt]> (_total_gt self);
       _total_dt := _total_dt self; _tp := _tp self; _fp := _fp self;
       _fn := _fn self |} in
  for_each (seq 0 (_pr_nsamples self)) (add_level k) self1.

Definition add_stats (self : ObjectBenchmark) : result ObjectBenchmark :=
  for_each (_classes self) add_class self.

End Accumulator.

(** ** The queries *)

(** The value of a metric query: one number per class when a score is given,
    one list over the whole ladder per class otherwise. *)
Inductive metric :=
  | AtScore (m : gmap ObjectClass Q)
  | Curve (m : gmap ObjectClass (list Q)).

Section Queries.

Variable self : ObjectBenchmark.

Definition _get_score_idx (score : option Q) : Z :=
  match score with
  | None => Z.of_nat (_pr_nsamples self / 2)
  | Some s => (Z.of_nat (searchsorted (_pr_thresholds self) s) - 1)%Z
  end.

(** [{k: v[score_idx] for k, v in d.items()}]. *)
Definition column (d : gmap ObjectClass (list nat)) (score_idx : Z)
  : result (gmap ObjectClass nat) :=
  if decide (map_Forall (fun _ v => is_Some (py_index v score_idx)) d) then
    Ok (omap (fun v => py_index v score_idx) d)
  else Raise IndexError.

Definition gt_count : gmap ObjectClass nat := _total_gt self.

Definition dt_count (score : option Q) : result (gmap ObjectClass nat) :=
  column (_total_dt self) (_get_score_idx score).

Definition tp (score : option Q) : result (gmap ObjectClass nat) :=
  column (_tp self) (_get_score_idx score).

Definition fp (score : option Q) : result (gmap ObjectClass nat) :=
  column (_fp self) (_get_score_idx score).

Definition fn (score : option Q) : result (gmap ObjectClass nat) :=
  column (_fn self) (_get_score_idx score).

(** [t / (t + f) if f > 0 else 1] *)
Definition ratio_gt (t f : nat) : Q :=
  if (0 <? f)%nat then (Qnat t / Qnat (t + f))%Q else 1%Q.

(** One class of the whole-ladder branch of [precision] and [recall]:
    [1 if b[k][i] == 0 else a[k][i] / (a[k][i] + b[k][i])] for every
    level [i]. *)
Definition ratio_curve (a b : gmap ObjectClass (list nat)) (k : ObjectClass)
  : result (list Q) :=
  for_each (seq 0 (_pr_nsamples self))
    (fun i acc =>
       lb ← dict_get b k; f ← getitem lb i;
       v ← (if (f =? 0)%nat then Ok 1%Q
            else la ← dict_get a k; t ← getitem la i;
                 Ok (Qnat t / Qnat (t + f))%Q);
       Ok (acc ++ [v]))
    [].

Definition precision (score : option Q) : result metric :=
  match score with
  | None =>
      p ← dict_comp (_classes self) (ratio_curve (_tp self) (_fp self)) ∅;
      Ok (Curve p)
  | Some _ =>
      tps ← tp score;
      fps ← fp score;
      p ← dict_comp (_classes self)
            (fun k => f ← dict_get fps k; t ← dict_get tps k;
                      Ok (ratio_gt t f)) ∅;
      Ok (AtScore p)
  end.

Definition recall (score : option Q) : result metric :=
  match score with
  | None =>
      r ← dict_comp (_classes self) (ratio_curve (_tp self) (_fn self)) ∅;
      Ok (Curve r)
  | Some _ =>
      tps ← tp score;
      fns ← fn score;
      r ← dict_comp (_classes self)
            (fun k => f ← dict_get fns k; t ← dict_get tps k;
                      Ok (ratio_gt t f)) ∅;
      Ok (AtScore r)
  end.

(** Python's [x / y] on floats. *)
Definition py_div (x y : Q) : result Q :=
  if Qeq_bool y 0 then Raise ZeroDivisionError else Ok (x / y)%Q.

(** The expression of lines 188 and 191: [(1+b2) * (p+r) / (b2*p + r)]. *)
Definition fs_expr (b2 p r : Q) : result Q :=
  py_div ((1 + b2) * (p + r)) (b2 * p + r).

Definition fs_curve (b2 : Q) (p r : gmap ObjectClass (list Q))
    (k : ObjectClass) : result (list Q) :=
  for_each (seq 0 (_pr_nsamples self))
    (fun i acc =>
       lp ← dict_get p k; pi ← getitem lp i;
       lr ← dict_get r k; ri ← getitem lr i;
       v ← fs_expr b2 pi ri;
       Ok (acc ++ [v]))
    [].

Definition fscore (beta : Q) (score : option Q) : result metric :=
  let b2 := (beta * beta)%Q in
  p ← precision score;
  r ← recall score;
  match p, r with
  | Curve pc, Curve rc =>
      fs ← dict_comp (_classes self) (fs_curve b2 pc rc) ∅;
      Ok r
  | AtScore ps, AtScore rs =>
      fs ← dict_comp (_classes self)
             (fun k => pk ← dict_get ps k; rk ← dict_get rs k;
                       fs_expr b2 pk rk) ∅;
      Ok r
  | _, _ => Raise TypeError
  end.

End Queries.

(** ** Instances of the library parameters

    Concrete instances of the two parameters of the constructor, on the
    inputs where their results are exact. *)

(** [np.geomspace(1, 2^(num-1), num) = [1, 2, 4, ..., 2^(num-1)]]; other
    arguments are outside this instance. *)
Definition geomspace_pow2 (start stop : Q) (num : nat) : result (list Q) :=
  if Qeq_bool start 1 && Qeq_bool stop (inject_Z (2 ^ Z.of_nat (num - 1)))
     && (0 <? num)%nat
  then Ok (map (fun i => inject_Z (2 ^ Z.of_nat i)) (seq 0 num))
  else Raise ValueError.

Definition digit_of (c : Ascii.ascii) : option Z :=
  let n := Ascii.nat_of_ascii c in
  if (48 <=? n)%nat && (n <=? 57)%nat then Some (Z.of_nat (n - 48)) else None.

Fixpoint int_digits (s : string) (acc : Z) : option Z :=
  match s with
  | EmptyString => Some acc
  | String c s' => d ← digit_of c; int_digits s' (10 * acc + d)%Z
  end.

(** [int(s)] on a non-empty string of ASCII decimal digits; other strings are
    outside this instance. *)
Definition int_decimal (s : string) : result Z :=
  match s with
  | EmptyString => Raise ValueError
  | _ => of_option ValueError (int_digits s 0)
  end.

(** ** The scenario of the specification

    Ladder size 4, linear scale, minimal score 0; one class with IoU
    threshold 0.5; one frame with two ground truths and two detections:
    A (score 0.9, IoU 0.8 with the first ground truth) and B (score 0.3, IoU
    0.6 with the second). The two other IoU entries are left open. *)

Definition car : ObjectClass := 0.

Definition scenario_gt : ObjectTarget3DArray :=
  {| frame := 0;
     boxes := [ {| tag_top := car; tag_score := 1 |};
                {| tag_top := car; tag_score := 1 |} ] |}.

Definition scenario_dt : ObjectTarget3DArray :=
  {| frame := 0;
     boxes := [ {| tag_top := car; tag_score := 9 # 10 |};
                {| tag_top := car; tag_score := 3 # 10 |} ] |}.

(** [x] is the IoU of B with the first ground truth, [y] the IoU of A with
    the second. *)
Definition scenario_iou (x y : Q) (gt_idx dt_idx : nat) : Q :=
  match gt_idx, dt_idx with
  | 0, 0 => 8 # 10
  | 0, _ => x
  | _, 0 => y
  | _, _ => 6 # 10
  end.

(** The matrices with the open entries at 0 or 1: whatever the open entries
    are, the acceptance tests of the scenario are those of one of these. *)
Definition scenario_iou_bool (bx b_y : bool) : nat -> nat -> Q :=
  scenario_iou (if bx then 1 else 0) (if b_y then 1 else 0).

(** The benchmark of the scenario, its frame statistics, and the benchmark
    after merging them once. *)
Definition scenario_init : result ObjectBenchmark :=
  init geomspace_pow2 int_decimal (Many [car]) (One (1 # 2)) 4 0 "lin".

Definition scenario_stats (x y : Q) : result FrameStats :=
  b ← scenario_init; get_stats b (scenario_iou x y) scenario_gt scenario_dt.

Definition scenario_merged (x y : Q) : result ObjectBenchmark :=
  b ← scenario_init; f ← scenario_stats x y; add_stats f b.

(** ** Predicates used in the statements *)

(** A dictionary of per-level lists has the keys [cls] and lists of length
    [n]. *)
Definition shaped (cls : list ObjectClass) (n : nat)
    (d : gmap ObjectClass (list nat)) : Prop :=
  (forall k, k ∈ cls <-> is_Some (d !! k)) /\
  (forall k l, d !! k = Some l -> length l = n).

Definition keyed (cls : list ObjectClass) (d : gmap ObjectClass nat) : Prop :=
  forall k, k ∈ cls <-> is_Some (d !! k).

(** A frame statistic has the shape of the benchmark's tables. *)
Definition stats_shaped (cls : list ObjectClass) (n : nat) (f : FrameStats)
  : Prop :=
  shaped cls n (st_tp f) /\ shaped cls n (st_fp f) /\ shaped cls n (st_fn f) /\
  keyed cls (st_ngt f) /\ shaped cls n (st_ndt f).

(** The aggregated tables of a benchmark have the shape the constructor gives
    them. *)
Definition well_shaped (b : ObjectBenchmark) : Prop :=
  shaped (_classes b) (_pr_nsamples b) (_tp b) /\
  shaped (_classes b) (_pr_nsamples b) (_fp b) /\
  shaped (_classes b) (_pr_nsamples b) (_fn b) /\
  keyed (_classes b) (_total_gt b) /\
  shaped (_classes b) (_pr_nsamples b) (_total_dt b).

(** The standard weighted F-score of the specification,
    [(1+β²)·P·R / (β²·P + R)]. *)
Definition fscore_formula (beta p r : Q) : Q :=
  ((1 + beta * beta) * p * r / (beta * beta * p + r))%Q.

(** The first detection of [order] that the scan of lines 74-92 accepts for
    a ground truth: same top label, IoU above the class threshold. *)
Definition acceptable (self : ObjectBenchmark) (iou : nat -> nat -> Q)
    (dt_boxes : list ObjectTarget3D) (gt_idx : nat) (gt_tag : ObjectClass)
    (dt_idx : nat) : Prop :=
  exists dt_box min_overlap,
    dt_boxes !! dt_idx = Some dt_box /\
    tag_top dt_box = gt_tag /\
    _min_overlaps self !! gt_tag = Some min_overlap /\
    (min_overlap < iou gt_idx dt_idx)%Q.

(** The benchmarks that construction followed by any number of
    [get_stats]/[add_stats] rounds can produce. *)
Inductive reachable (geomspace : Q -> Q -> nat -> result (list Q))
    (py_int : string -> result Z) : ObjectBenchmark -> Prop :=
  | reach_init classes min_overlaps n min_score scale b :
      init geomspace py_int classes min_overlaps n min_score scale = Ok b ->
      reachable geomspace py_int b
  | reach_add b iou gt_boxes dt_boxes f b' :
      reachable geomspace py_int b ->
      get_stats b iou gt_boxes dt_boxes = Ok f ->
      add_stats f b = Ok b' ->
      reachable geomspace py_int b'.

(** The entry of level [i] in the list stored for class [k]. *)
Definition level_of (d : gmap ObjectClass (list nat)) (i : nat)
    (k : ObjectClass) : option nat :=
  d !! k ≫= fun l => l !! i.

(** ** A closed form of the accumulator *)

(** [l] with its first [j] entries increased by those of [s]: the list of a
    class after [j] rounds of the loop over the levels. *)
Fixpoint add_prefix (j : nat) (l s : list nat) : list nat :=
  match j, l, s with
  | S j', x :: l', y :: s' => (x + y) :: add_prefix j' l' s'
  | _, _, _ => l
  end.

(** One class of [add_stats] on one table. *)
Definition merge_table (s : gmap ObjectClass (list nat))
    (d : gmap ObjectClass (list nat)) (k : ObjectClass)
  : gmap ObjectClass (list nat) :=
  match s !! k with
  | Some sl => alter (fun l => zip_with Nat.add l sl) k d
  | None => d
  end.

Definition merge_count (s : gmap ObjectClass nat) (d : gmap ObjectClass nat)
    (k : ObjectClass) : gmap ObjectClass nat :=
  match s !! k with
  | Some n => alter (fun t => t + n) k d
  | None => d
  end.

(** A benchmark with its five tables replaced. *)
Definition with_tables (b : ObjectBenchmark) (gt : gmap ObjectClass nat)
    (dt tps fps fns : gmap ObjectClass (list nat)) : ObjectBenchmark :=
  {| _classes := _classes b; _min_overlaps := _min_overlaps b;
     _pr_nsamples := _pr_nsamples b; _min_score := _min_score b;
     _pr_thresholds := _pr_thresholds b;
     _total_gt := gt; _total_dt := dt; _tp := tps; _fp := fps; _fn := fns |}.

(** The benchmark after the classes [ks] of [add_stats] have been run. *)
Definition merged_on (ks : list ObjectClass) (f : FrameStats)
    (b : ObjectBenchmark) : ObjectBenchmark :=
  with_tables b
    (foldl (merge_count (st_ngt f)) (_total_gt b) ks)
    (foldl (merge_table (st_ndt f)) (_total_dt b) ks)
    (foldl (merge_table (st_tp f)) (_tp b) ks)
    (foldl (merge_table (st_fp f)) (_fp b) ks)
    (foldl (merge_table (st_fn f)) (_fn b) ks).

(** ** Notions used for the matcher *)

(** [d] is the first detection of [order] acceptable for the ground truth. *)
Definition first_acceptable (self : ObjectBenchmark) (iou : nat -> nat -> Q)
    (dt_boxes : list ObjectTarget3D) (order : list nat) (gt_idx : nat)
    (gt_tag : ObjectClass) (dt_idx : nat) : Prop :=
  exists pre post,
    order = pre ++ dt_idx :: post /\
    (forall d, d ∈ pre -> ~ acceptable self iou dt_boxes gt_idx gt_tag d) /\
    acceptable self iou dt_boxes gt_idx gt_tag dt_idx.

(** The ladder index of a detection's own score (line 81). *)
Definition thres_loc_of (self : ObjectBenchmark)
    (dt_boxes : list ObjectTarget3D) (dt_idx : nat) : nat :=
  match dt_boxes !! dt_idx with
  | Some box => searchsorted (_pr_thresholds self) (tag_score box)
  | None => 0
  end.

(** Whether the key [x] is assigned at level [i]. *)
Definition assigned (a : list (gmap nat nat)) (x i : nat) : bool :=
  match a !! i with
  | Some m => bool_decide (is_Some (m !! x))
  | None => false
  end.

(** [l] with one added to the entries below [j] that satisfy [p]: the list
    of a class after [j] rounds of a counting loop. *)
Definition bump (p : nat -> bool) (j : nat) (l : list nat) : list nat :=
  imap (fun i x => if (i <? j)%nat && p i then x + 1 else x) l.

(** The locals with the true-positive and false-negative tables replaced. *)
Definition set_counts (s : locals) (tps fns : gmap ObjectClass (list nat))
  : locals :=
  {| l_tp := tps; l_fp := l_fp s; l_fn := fns; l_ngt := l_ngt s;
     l_ndt := l_ndt s; dt_assignment := dt_assignment s;
     gt_assignment := gt_assignment s |}.

(** The tables and assignments of the locals have the benchmark's shape. *)
Definition locals_shaped (self : ObjectBenchmark) (s : locals) : Prop :=
  shaped (_classes self) (_pr_nsamples self) (l_tp s) /\
  shaped (_classes self) (_pr_nsamples self) (l_fp s) /\
  shaped (_classes self) (_pr_nsamples self) (l_fn s) /\
  keyed (_classes self) (l_ngt s) /\
  shaped (_classes self) (_pr_nsamples self) (l_ndt s) /\
  length (dt_assignment s) = _pr_nsamples self /\
  length (gt_assignment s) = _pr_nsamples self.

(** At every level, true positives and false negatives add up to [n]. *)
Definition balanced (ltp lfn : list nat) (n : nat) : Prop :=
  forall i t f, ltp !! i = Some t -> lfn !! i = Some f -> t + f = n.

(** The entries of [l] do not increase with the level. *)
Definition descending (l : list nat) : Prop :=
  forall i t t', l !! i = Some t -> l !! S i = Some t' -> t' <= t.

(** ** Invariants of the loop over the ground truths *)

(** For every class the per-level counts are balanced against the number of
    ground truths, and the true positives do not increase with the level. *)
Definition counts_inv (tps fns : gmap ObjectClass (list nat))
    (ngt : gmap ObjectClass nat) : Prop :=
  forall k ltp lfn n,
    tps !! k = Some ltp -> fns !! k = Some lfn -> ngt !! k = Some n ->
    balanced ltp lfn n /\ descending ltp.

(** A detection that is assigned at some level is assigned at exactly the
    levels below its own ladder index. *)
Definition da_inv (self : ObjectBenchmark) (dt_boxes : list ObjectTarget3D)
    (da : list (gmap nat nat)) : Prop :=
  forall d i, assigned da d i = true ->
    i < thres_loc_of self dt_boxes d /\
    forall i', i' < thres_loc_of self dt_boxes d -> assigned da d i' = true.

(** Every assignment of a ground truth is to its first acceptable
    detection. *)
Definition ga_inv (self : ObjectBenchmark) (iou : nat -> nat -> Q)
    (gt_boxes dt_boxes : list ObjectTarget3D) (order : list nat)
    (ga : list (gmap nat nat)) : Prop :=
  forall i m g d, ga !! i = Some m -> m !! g = Some d ->
    exists box, gt_boxes !! g = Some box /\
                tag_top box ∈ _classes self /\
                first_acceptable self iou dt_boxes order g (tag_top box) d.

(** The invariant before the round of ground truth [j]. *)
Definition gt_inv (self : ObjectBenchmark) (iou : nat -> nat -> Q)
    (gt_boxes dt_boxes : list ObjectTarget3D) (order : list nat)
    (j : nat) (s : locals) : Prop :=
  locals_shaped self s /\
  counts_inv (l_tp s) (l_fn s) (l_ngt s) /\
  da_inv self dt_boxes (dt_assignment s) /\
  (forall g i, assigned (gt_assignment s) g i = true -> g < j) /\
  ga_inv self iou gt_boxes dt_boxes order (gt_assignment s).

(** The rounds of the loop over the detections leave the matching alone. *)
Definition same_matching (s0 s : locals) : Prop :=
  l_tp s = l_tp s0 /\ l_fn s = l_fn s0 /\ l_ngt s = l_ngt s0 /\
  dt_assignment s = dt_assignment s0 /\ gt_assignment s = gt_assignment s0.

(** The order of [np.argsort]: by ascending score. *)
Definition le_score (scores : list Q) (i j : nat) : Prop :=
  (score_at scores i <= score_at scores j)%Q.

(** The score of detection [d], as the sort reads it. *)
Definition dt_score (dt_boxes : list ObjectTarget3D) (d : nat) : Q :=
  score_at (map tag_score dt_boxes) d.

(** [d] comes before [d'] in a best-score-first order. *)
Definition not_worse (dt_boxes : list ObjectTarget3D) (d d' : nat) : Prop :=
  (dt_score dt_boxes d' <= dt_score dt_boxes d)%Q.

(** The benchmark of the scenario, written out. *)
Definition scenario_benchmark : ObjectBenchmark :=
  {| _classes := [car];
     _min_overlaps := {[ car := 1 # 2 ]};
     _pr_nsamples := 4;
     _min_score := 0;
     _pr_thresholds := linspace_open 0 1 4;
     _total_gt := {[ car := 0 ]};
     _total_dt := {[ car := [0; 0; 0; 0] ]};
     _tp := {[ car := [0; 0; 0; 0] ]};
     _fp := {[ car := [0; 0; 0; 0] ]};
     _fn := {[ car := [0; 0; 0; 0] ]} |}.

(** The ratio of the whole-ladder branch of [precision] and [recall]:
    [1 if f == 0 else t / (t + f)]. *)
Definition ratio_eq (t f : nat) : Q :=
  if (f =? 0)%nat then 1%Q else (Qnat t / Qnat (t + f))%Q.

(** One class of the whole-ladder branch in closed form. *)
Definition ratio_list (la lb : list nat) (j : nat) : list Q :=
  map (fun i => ratio_eq (nth i la 0) (nth i lb 0)) (seq 0 j).

(** The frame statistics of the scenario with both open IoU entries at 0,
    those with both at 1 (detection A then overlaps both ground truths), and
    the benchmark after the first have been merged once. *)
Definition scenario_frame : FrameStats :=
  {| st_tp := {[ car := [2; 2; 1; 1] ]};
     st_fp := {[ car := [0; 0; 0; 0] ]};
     st_fn := {[ car := [0; 0; 1; 1] ]};
     st_ngt := {[ car := 2 ]};
     st_ndt := {[ car := [2; 1; 1; 0] ]} |}.

Definition scenario_frame_crossed : FrameStats :=
  {| st_tp := {[ car := [1; 1; 1; 1] ]};
     st_fp := {[ car := [1; 0; 0; 0] ]};
     st_fn := {[ car := [1; 1; 1; 1] ]};
     st_ngt := {[ car := 2 ]};
     st_ndt := {[ car := [2; 1; 1; 0] ]} |}.

Definition scenario_merged_benchmark : ObjectBenchmark :=
  with_tables scenario_benchmark
    (st_ngt scenario_frame) (st_ndt scenario_frame) (st_tp scenario_frame)
    (st_fp scenario_frame) (st_fn scenario_frame).

(** The entry that [v[score_idx]] reads in the list stored for class [k]. *)
Definition entry_at (d : gmap ObjectClass (list nat)) (score_idx : Z)
    (k : ObjectClass) : option nat :=
  d !! k ≫= fun l => py_index l score_idx.

(** A frame of the scenario's benchmark in which the only detection (score
    0.9) does not overlap the only ground truth; its statistics, and the
    benchmark after they have been merged once. *)
Definition missed_gt : ObjectTarget3DArray :=
  {| frame := 1; boxes := [ {| tag_top := car; tag_score := 1 |} ] |}.

Definition missed_dt : ObjectTarget3DArray :=
  {| frame := 1; boxes := [ {| tag_top := car; tag_score := 9 # 10 |} ] |}.

Definition missed_frame : FrameStats :=
  {| st_tp := {[ car := [0; 0; 0; 0] ]};
     st_fp := {[ car := [1; 1; 1; 0] ]};
     st_fn := {[ car := [1; 1; 1; 1] ]};
     st_ngt := {[ car := 1 ]};
     st_ndt := {[ car := [1; 1; 1; 0] ]} |}.

Definition missed_benchmark : ObjectBenchmark :=
  with_tables scenario_benchmark
    (st_ngt missed_frame) (st_ndt missed_frame) (st_tp missed_frame)
    (st_fp missed_frame) (st_fn missed_frame).

(** The two assignment tables mirror each other at every level. *)
Definition mirrored (da ga : list (gmap nat nat)) : Prop :=
  forall i md mg, da !! i = Some md -> ga !! i = Some mg ->
    forall d g, md !! d = Some g <-> mg !! g = Some d.

(** No detection is acceptable for any ground truth: every IoU entry of a
    detection is at most the threshold of the detection's class. *)
Definition no_overlap (self : ObjectBenchmark) (iou : nat -> nat -> Q)
    (dt_boxes : list ObjectTarget3D) : Prop :=
  forall g d box t,
    dt_boxes !! d = Some box ->
    _min_overlaps self !! tag_top box = Some t ->
    (iou g d <= t)%Q.

(** Entry by entry, the first table is at most the second. *)
Definition table_le (a c : gmap ObjectClass (list nat)) : Prop :=
  forall k la lc i x y,
    a !! k = Some la -> c !! k = Some lc ->
    la !! i = Some x -> lc !! i = Some y -> x <= y.

(** The benchmark that construction gives for two classes and a one-element
    list of IoU thresholds: the second class has no threshold. *)
Definition short_overlaps_benchmark : ObjectBenchmark :=
  {| _classes := [0; 1];
     _min_overlaps := {[ 0 := 1 # 2 ]};
     _pr_nsamples := 4;
     _min_score := 0;
     _pr_thresholds := linspace_open 0 1 4;
     _total_gt := dict_fromkeys [0; 1] 0;
     _total_dt := dict_fromkeys [0; 1] [0; 0; 0; 0];
     _tp := dict_fromkeys [0; 1] [0; 0; 0; 0];
     _fp := dict_fromkeys [0; 1] [0; 0; 0; 0];
     _fn := dict_fromkeys [0; 1] [0; 0; 0; 0] |}.

(** ** Average precision *)

(** [np.trapz(y, x)] on two arrays of one length: the sum over the
    consecutive pairs of [(x1 - x0) * (y1 + y0) / 2]. *)
Fixpoint trapz (y x : list Q) : Q :=
  match y, x with
  | y0 :: ((y1 :: _) as y'), x0 :: ((x1 :: _) as x') =>
      ((x1 - x0) * (y1 + y0) / 2 + trapz y' x')%Q
  | _, _ => 0%Q
  end.

(** [ap] (lines 194-200). *)
Definition ap (self : ObjectBenchmark) : result (gmap ObjectClass Q) :=
  p ← precision self None;
  r ← recall self None;
  match p, r with
  | Curve pc, Curve rc =>
      dict_comp (_classes self)
        (fun k => pk ← dict_get pc k; rk ← dict_get rc k;
                  Ok (- trapz pk rk)%Q) ∅
  | _, _ => Raise TypeError
  end.

(** ** Object tags (abstraction.py) *)

(** [[f(x) for x in l]] where evaluating [f(x)] may raise. *)
Fixpoint list_comp {A B} (l : list A) (f : A -> result B) : result (list B) :=
  match l with
  | [] => Ok []
  | x :: l' => y ← f x; ys ← list_comp l' f; Ok (y :: ys)
  end.

(** A label as [ObjectTag.__init__] tells them apart: a string, an integer,
    or an object that is neither, such as a member of the enumeration. *)
Inductive label (member : Type) :=
  | LStr (s : string)
  | LInt (v : Z)
  | LMember (m : member).
Arguments LStr {member} s.
Arguments LInt {member} v.
Arguments LMember {member} m.

(** An [enum.Enum] class, through the two lookups the constructor uses:
    [mapping[name]], which raises [KeyError] on an unknown name, and
    [mapping(value)], which raises [ValueError] on an unknown value. *)
Record Enum (member : Type) := {
  by_name : string -> option member;
  by_value : Z -> option member
}.
Arguments by_name {member} e s.
Arguments by_value {member} e v.

Record ObjectTag (member : Type) := {
  mapping : Enum member;
  labels : list (label member);
  scores : list Q
}.
Arguments mapping {member} o.
Arguments labels {member} o.
Arguments scores {member} o.

(** The arguments [labels] and [scores] of the constructor: one label with
    one score or none, or a list of labels with a list of scores or none. *)
Inductive tag_args (member : Type) :=
  | single (l : label member) (score : option Q)
  | multiple (ls : list (label member)) (ss : option (list Q)).
Arguments single {member} l score.
Arguments multiple {member} ls ss.

Section Tags.

Context {member : Type}.

(** The body of the conversion loop (lines 35-38). *)
Definition convert (m : Enum member) (i : nat) (ls : list (label member))
  : result (list (label member)) :=
  l ← getitem ls i;
  match l with
  | LStr s => e ← of_option KeyError (by_name m s); Ok (<[i := LMember e]> ls)
  | LInt v => e ← of_option ValueError (by_value m v);
              Ok (<[i := LMember e]> ls)
  | LMember _ => Ok ls
  end.

(** [ObjectTag.__init__] (lines 14-43); a [mapping] that is not an [Enum]
    class is [None]. *)
Definition ObjectTag_init (args : tag_args member)
    (mapping : option (Enum member)) : result (ObjectTag member) :=
  m ← of_option ValueError mapping;
  p ← match args with
      | single l None => Ok ([l], [1%Q])
      | multiple _ None => Raise ValueError
      | single l (Some s) => Ok ([l], [s])
      | multiple ls (Some ss) => Ok (ls, ss)
      end;
  ls ← for_each (seq 0 (length p.1)) (convert m) p.1;
  let order := rev (argsort p.2) in
  ls' ← list_comp order (getitem ls);
  ss' ← list_comp order (getitem p.2);
  Ok {| mapping := m; labels := ls'; scores := ss' |}.

(** [ObjectTarget3D.tag_score] (lines 86-88) and the label that
    [ObjectTarget3D.tag_name] reads (lines 82-84), on the tag of the
    target. *)
Definition top_score (tag : ObjectTag member) : result Q :=
  getitem (scores tag) 0.

Definition top_label (tag : ObjectTag member) : result (label member) :=
  getitem (labels tag) 0.

End Tags.

(** What the conversion loop leaves in place of one label. *)
Definition resolve {member} (m : Enum member) (l : label member)
  : result (label member) :=
  match l with
  | LStr s => e ← of_option KeyError (by_name m s); Ok (LMember e)
  | LInt v => e ← of_option ValueError (by_value m v); Ok (LMember e)
  | LMember _ => Ok l
  end.

(** The labels that the constructor was given. *)
Definition args_labels {member} (args : tag_args member)
  : list (label member) :=
  match args with
  | single l _ => [l]
  | multiple ls _ => ls
  end.

(** An enumeration of three classes, valued 0, 1 and 2; a member is written
    as its position. *)
Definition three_classes : Enum nat := {|
  by_name := fun s =>
    if String.eqb s "Car" then Some 0
    else if String.eqb s "Van" then Some 1
    else if String.eqb s "Pedestrian" then Some 2
    else None;
  by_value := fun v =>
    if ((0 <=? v)%Z && (v <? 3)%Z)%bool then Some (Z.to_nat v) else None
|}.

(** The scores that the constructor sorts, when the shape of its arguments
    lets it go on. *)
Definition args_scores {member} (args : tag_args member) : option (list Q) :=
  match args with
  | single _ None => Some [1%Q]
  | single _ (Some s) => Some [s]
  | multiple _ ss => ss
  end.

(** Entry [i] of the labels paired with entry [i] of the scores. *)
Definition pair_at {A B} (xs : list A) (ys : list B) (i : nat)
  : option (A * B) :=
  x ← xs !! i; y ← ys !! i; Some (x, y).

(** Three labels given by name, by value and as a member, with their
    scores, and the tag that the constructor makes of them. *)
Definition scored_args : tag_args nat :=
  multiple [LStr "Van"; LInt 0; LMember 2] (Some [3 # 10; 6 # 10; 1 # 10]%Q).

Definition scored_tag : ObjectTag nat := {|
  mapping := three_classes;
  labels := [LMember 0; LMember 1; LMember 2];
  scores := [6 # 10; 3 # 10; 1 # 10]%Q
|}.


(** ** Sensor calibration (abstraction.py) *)

(** [CameraMetadata] and [LidarMetadata] (lines 128-133). *)
Inductive metadata (matrix : Type) :=
  | CameraMetadata (width height : Q) (distort_coeffs : list Q)
      (distort_intri : option matrix)
  | LidarMetadata.
Arguments CameraMetadata {matrix} width height distort_coeffs distort_intri.
Arguments LidarMetadata {matrix}.

(** A frame id is a string, or [None] where an argument is left out; the
    dictionaries are keyed by frame ids. An intrinsic matrix is [None] for a
    lidar. *)
Record TransformSet (matrix : Type) := {
  base_frame : option string;
  intrinsics : gmap (option string) (option matrix);
  intrinsics_meta : gmap (option string) (metadata matrix);
  extrinsics : gmap (option string) matrix
}.
Arguments base_frame {matrix} t.
Arguments intrinsics {matrix} t.
Arguments intrinsics_meta {matrix} t.
Arguments extrinsics {matrix} t.

(** What [get_extrinsic] returns: the integer 1, or a matrix. *)
Inductive extrinsic (matrix : Type) :=
  | One1
  | Matrix (m : matrix).
Arguments One1 {matrix}.
Arguments Matrix {matrix} m.

(** The arrays and the numpy calls on them: [transform.shape], [np.dot],
    [np.linalg.inv], [np.diag], the stacking
    [np.vstack([transform, np.array([0]*3 + [1])])] of line 200, the axis
    rotation of line 166 and the matrix of line 184. *)
Class Arrays (matrix : Type) := {
  shape : matrix -> list nat;
  dot : matrix -> matrix -> result matrix;
  inv : matrix -> result matrix;
  np_diag : matrix -> result matrix;
  vstack_row : matrix -> matrix;
  flu_to_rdf : matrix;
  pinhole_matrix : Q -> Q -> Q -> Q -> Q -> matrix
}.

Section Calibration.

Context {matrix : Type} `{Arrays matrix}.

(** [TransformSet.__init__] (lines 140-147). *)
Definition TransformSet_init (base : option string) : TransformSet matrix :=
  {| base_frame := base; intrinsics := ∅; intrinsics_meta := ∅;
     extrinsics := ∅ |}.

(** [_assert_exist] (lines 149-156). *)
Definition _assert_exist (self : TransformSet matrix)
    (frame_id : option string) (extrinsic : bool) : result unit :=
  if decide (intrinsics self !! frame_id = None) then Raise ValueError
  else if extrinsic && bool_decide (extrinsics self !! frame_id = None)
  then Raise ValueError
  else Ok tt.

(** [set_intrinsic_camera] (lines 158-173). *)
Definition set_intrinsic_camera (self : TransformSet matrix)
    (frame_id : option string) (transform : matrix) (size : Q * Q)
    (rotate : bool) (distort_coeffs : list Q) (distort_intri : option matrix)
  : result (TransformSet matrix) :=
  let '(width, height) := size in
  transform ← (if rotate then dot transform flu_to_rdf else Ok transform);
  Ok {| base_frame := base_frame self;
        intrinsics := <[frame_id := Some transform]> (intrinsics self);
        intrinsics_meta :=
          <[frame_id := CameraMetadata width height distort_coeffs
                          distort_intri]> (intrinsics_meta self);
        extrinsics := extrinsics self |}.

(** [set_intrinsic_lidar] (lines 175-177). *)
Definition set_intrinsic_lidar (self : TransformSet matrix)
    (frame_id : option string) : TransformSet matrix :=
  {| base_frame := base_frame self;
     intrinsics := <[frame_id := None]> (intrinsics self);
     intrinsics_meta := <[frame_id := LidarMetadata]> (intrinsics_meta self);
     extrinsics := extrinsics self |}.

(** [set_intrinsic_pinhole] (lines 179-186). *)
Definition set_intrinsic_pinhole (self : TransformSet matrix)
    (frame_id : option string) (size : Q * Q) (cx cy fx fy s : Q)
    (distort_coeffs : list Q) : result (TransformSet matrix) :=
  let P := pinhole_matrix fx s cx fy cy in
  set_intrinsic_camera self frame_id P size true distort_coeffs (Some P).

Definition with_extrinsic (self : TransformSet matrix)
    (frame_id : option string) (m : matrix) : TransformSet matrix :=
  {| base_frame := base_frame self;
     intrinsics := intrinsics self;
     intrinsics_meta := intrinsics_meta self;
     extrinsics := <[frame_id := m]> (extrinsics self) |}.

(** The first assertion of [set_extrinsic] (line 196) calls [np.allclose]
    with one array; its second array is a required argument, so the call
    raises [TypeError] once its argument is evaluated (assertions are
    taken to be enabled). *)
Definition identity_check (transform : matrix) : result unit :=
  _ ← np_diag transform; Raise TypeError.

(** [set_extrinsic] (lines 188-224). *)
Definition set_extrinsic (self : TransformSet matrix) (transform : matrix)
    (frame_to frame_from : option string) : result (TransformSet matrix) :=
  _ ← (if decide (frame_to = frame_from) then identity_check transform
       else Ok tt);
  transform ← (if decide (shape transform = [3; 4])
               then Ok (vstack_row transform)
               else if decide (shape transform <> [4; 4])
               then Raise ValueError
               else Ok transform);
  if decide (frame_to = None) then
    _ ← _assert_exist self frame_from false;
    m ← inv transform;
    Ok (with_extrinsic self frame_from m)
  else
    _ ← _assert_exist self frame_to false;
    if decide (frame_from = None) then
      _ ← _assert_exist self frame_to false;
      Ok (with_extrinsic self frame_to transform)
    else
      _ ← _assert_exist self frame_from false;
      match extrinsics self !! frame_from with
      | Some e =>
          m ← dot transform e;
          Ok (with_extrinsic self frame_to m)
      | None =>
          match extrinsics self !! frame_to with
          | Some e =>
              ei ← inv e;
              m ← dot transform ei;
              Ok (with_extrinsic self frame_from m)
          | None => Raise ValueError
          end
      end.

(** [get_extrinsic] (lines 226-246). *)
Definition get_extrinsic (self : TransformSet matrix)
    (frame_to frame_from : option string) : result (extrinsic matrix) :=
  if decide (frame_to = frame_from) then Ok One1
  else if decide (frame_from <> None) then
    _ ← _assert_exist self frame_from true;
    if decide (frame_to <> None) then
      _ ← _assert_exist self frame_to true;
      a ← dict_get (extrinsics self) frame_to;
      b ← dict_get (extrinsics self) frame_from;
      bi ← inv b;
      m ← dot a bi;
      Ok (Matrix m)
    else
      b ← dict_get (extrinsics self) frame_from;
      bi ← inv b;
      Ok (Matrix bi)
  else
    if decide (frame_to <> None) then
      _ ← _assert_exist self frame_to true;
      a ← dict_get (extrinsics self) frame_to;
      Ok (Matrix a)
    else Raise ValueError.

End Calibration.

(** The two dictionaries of intrinsics have the same frames, and every
    frame with an extrinsic has an intrinsic. *)
Definition consistent {matrix} (ts : TransformSet matrix) : Prop :=
  (forall f, extrinsics ts !! f <> None -> intrinsics ts !! f <> None) /\
  (forall f, intrinsics ts !! f = None <-> intrinsics_meta ts !! f = None).

(** The calibrations that the constructor and the setters can produce. *)
Inductive configured {matrix} `{Arrays matrix}
  : TransformSet matrix -> Prop :=
  | conf_init base : configured (TransformSet_init base)
  | conf_camera ts ts' f t size rotate dc di :
      configured ts ->
      set_intrinsic_camera ts f t size rotate dc di = Ok ts' ->
      configured ts'
  | conf_lidar ts f : configured ts -> configured (set_intrinsic_lidar ts f)
  | conf_pinhole ts ts' f size cx cy fx fy s dc :
      configured ts ->
      set_intrinsic_pinhole ts f size cx cy fx fy s dc = Ok ts' ->
      configured ts'
  | conf_extrinsic ts ts' t f_to f_from :
      configured ts ->
      set_extrinsic ts t f_to f_from = Ok ts' ->
      configured ts'.

(** Arrays as expressions: a named array of a given shape and the calls
    made on arrays. *)
Inductive array_expr :=
  | Named (name : string) (dims : list nat)
  | Dot (a b : array_expr)
  | Inv (a : array_expr)
  | Diag (a : array_expr)
  | Stacked (a : array_expr).

Definition expr_shape (a : array_expr) : list nat :=
  match a with
  | Named _ dims => dims
  | Stacked _ => [4; 4]
  | _ => [4; 4]
  end.

#[global] Instance array_expr_arrays : Arrays array_expr := {|
  shape := expr_shape;
  dot := fun a b => Ok (Dot a b);
  inv := fun a => Ok (Inv a);
  np_diag := fun a => Ok (Diag a);
  vstack_row := Stacked;
  flu_to_rdf := Named "flu_to_rdf" [3; 3];
  pinhole_matrix := fun _ _ _ _ _ => Named "P" [3; 3]
|}.

(** A lidar and a camera, the camera placed by a 3x4 transform from the
    base frame. *)
Definition velo : option string := Some "velo".
Definition cam : option string := Some "cam".

Definition rig_intrinsics : TransformSet array_expr :=
  {| base_frame := velo;
     intrinsics := <[cam := Some (Dot (Named "P" [3; 3])
                                      (Named "flu_to_rdf" [3; 3]))]>
                     (<[velo := None]> ∅);
     intrinsics_meta :=
       <[cam := CameraMetadata 1242 375 [] (Some (Named "P" [3; 3]))]>
         (<[velo := LidarMetadata]> ∅);
     extrinsics := ∅ |}.

Definition rig : TransformSet array_expr :=
  with_extrinsic rig_intrinsics cam (Stacked (Named "T" [3; 4])).

(** ** The summary *)

(** [max(l)] on a list: the first of its greatest entries; [ValueError] on
    an empty list. *)
Definition py_max_nat (l : list nat) : result nat :=
  match l with
  | [] => Raise ValueError
  | x :: l' => Ok (foldl (fun m y => if (m <? y)%nat then y else m) x l')
  end.

Definition py_max (l : list Q) : result Q :=
  match l with
  | [] => Raise ValueError
  | x :: l' => Ok (foldl (fun m y => if Qltb m y then y else m) x l')
  end.

Definition tab : string := String (Ascii.ascii_of_nat 9) "".
Definition newline : string := String (Ascii.ascii_of_nat 10) "".

Section Summary.

(** The name of a class ([k.name]) and the two conversions of the format
    strings, [%d] and [%.3f]. *)
Variable name : ObjectClass -> string.
Variable fmt_d : nat -> string.
Variable fmt_3f : Q -> string.

Variable self : ObjectBenchmark.

(** [m[k]] where a number is formatted, and [max(m[k])]. *)
Definition number_at (m : metric) (k : ObjectClass) : result Q :=
  match m with
  | AtScore d => dict_get d k
  | Curve d => _ ← dict_get d k; Raise TypeError
  end.

Definition max_at (m : metric) (k : ObjectClass) : result Q :=
  match m with
  | AtScore d => _ ← dict_get d k; Raise TypeError
  | Curve d => l ← dict_get d k; py_max l
  end.

(** The body of the loop of [summary] (lines 214-221). *)
Definition summary_class (precision recall fscore : metric)
    (ap : gmap ObjectClass Q) (k : ObjectClass) (lines : list string)
  : result (list string) :=
  let lines := lines ++ ["Results for " +:+ name k +:+ ":"] in
  ngt ← dict_get (_total_gt self) k;
  ldt ← dict_get (_total_dt self) k;
  mdt ← py_max_nat ldt;
  let lines :=
    lines ++ [tab +:+ "Total processed targets:" +:+ tab +:+ fmt_d ngt
              +:+ " gt boxes, " +:+ fmt_d mdt +:+ " dt boxes"] in
  pk ← number_at precision k;
  let lines :=
    lines ++ [tab +:+ "Precision (score > 0.8):" +:+ tab +:+ fmt_3f pk] in
  rk ← number_at recall k;
  let lines :=
    lines ++ [tab +:+ "Recall (score > 0.8):" +:+ tab +:+ tab
              +:+ fmt_3f rk] in
  fk ← max_at fscore k;
  let lines :=
    lines ++ [tab +:+ "F1 max (score > 0.8):" +:+ tab +:+ tab
              +:+ fmt_3f fk] in
  ak ← dict_get ap k;
  Ok (lines ++ [tab +:+ "AP:" +:+ tab +:+ tab +:+ tab +:+ fmt_3f ak]).

(** [summary] (lines 202-224): the lines, and the string they are joined
    to. The call [self.fscore(0.8)] passes 0.8 as [beta]. *)
Definition summary_lines : result (list string) :=
  let lines := [""; "========== Benchmark Summary =========="] in
  precision ← precision self (Some (8 # 10)%Q);
  recall ← recall self (Some (8 # 10)%Q);
  fscore ← fscore self (8 # 10)%Q None;
  ap ← ap self;
  lines ← for_each (_classes self) (summary_class precision recall fscore ap)
            lines;
  Ok (lines ++ ["========== Summary End =========="]).

Definition summary : result string :=
  lines ← summary_lines;
  Ok (String.concat newline lines).

End Summary.

(** The level condition under which the F-score curve divides by zero
    nowhere: no tracked class has a level without true positives but with
    both false positives and false negatives. *)
Definition no_dead_level (b : ObjectBenchmark) : Prop :=
  forall k i t f m,
    k ∈ _classes b ->
    level_of (_tp b) i k = Some t ->
    level_of (_fp b) i k = Some f ->
    level_of (_fn b) i k = Some m ->
    ~ (t = 0 /\ 0 < f /\ 0 < m).

(** A decimal rendering of counts and a rendering of rationals as
    fractions, for running the summary. *)
Definition show_nat (n : nat) : string := pretty n.

Definition show_Q (x : Q) : string :=
  pretty (Qnum x) +:+ "/" +:+ pretty (Z.pos (Qden x)).

(** The line of the summary that is headed [F1 max]. *)
Definition f1_line (fmt_3f : Q -> string) (fk : Q) : string :=
  tab +:+ "F1 max (score > 0.8):" +:+ tab +:+ tab +:+ fmt_3f fk.

(** The lines of the summary of the merged scenario. *)
Definition scenario_summary_lines : list string :=
  Eval vm_compute in
    match summary_lines (fun _ => "Car") show_nat show_Q
            scenario_merged_benchmark with
    | Ok lines => lines
    | Raise _ => []
    end.

(** * Properties *)

(** ** The exception monad and the loops *)

Lemma bind_Ok {A B} (r : result A) (f : A -> result B) (b : B) :
  r ≫= f = Ok b -> exists a, r = Ok a /\ f a = Ok b.
Proof. destruct r as [a|e]; [eauto | discriminate]. Qed.

Lemma bind_Raise {A B} (r : result A) (f : A -> result B) (e : exn) :
  r ≫= f = Raise e -> r = Raise e \/ exists a, r = Ok a /\ f a = Raise e.
Proof.
  intros H; destruct r as [a|e']; [eauto | left].
  simpl in H. congruence.
Qed.

(** Splits a hypothesis [r ≫= f = Ok b] into its two runs. *)
Ltac inv_bind H :=
  let a := fresh "a" in
  let Ha := fresh "E" in
  apply bind_Ok in H; destruct H as (a & Ha & H).

Lemma for_each_ext {A S} (l : list A) (f g : A -> S -> result S) (s : S) :
  (forall x s', In x l -> f x s' = g x s') ->
  for_each l f s = for_each l g s.
Proof.
  revert s; induction l as [|x l IH]; intros s Hfg; [reflexivity|].
  simpl. rewrite Hfg by (left; reflexivity).
  destruct (g x s) as [s'|e]; [|reflexivity].
  apply IH. intros; apply Hfg; right; assumption.
Qed.

Lemma for_each_app {A S} (l1 l2 : list A) (f : A -> S -> result S) (s : S) :
  for_each (l1 ++ l2) f s = s' ← for_each l1 f s; for_each l2 f s'.
Proof.
  revert s; induction l1 as [|x l1 IH]; intros s; [reflexivity|].
  simpl. destruct (f x s); [apply IH | reflexivity].
Qed.

(** A loop invariant for [for_each]: an invariant kept by every successful
    run of the body holds after every successful run of the loop. *)
Lemma for_each_inv {A S} (P : S -> Prop) (l : list A)
    (f : A -> S -> result S) (s s' : S) :
  (forall x a a', In x l -> P a -> f x a = Ok a' -> P a') ->
  P s -> for_each l f s = Ok s' -> P s'.
Proof.
  revert s; induction l as [|x l IH]; intros s Hf Hs Hrun.
  - inversion Hrun; subst; assumption.
  - simpl in Hrun. inv_bind Hrun.
    apply (IH a); [| |assumption].
    + intros; eapply Hf; eauto; right; assumption.
    + eapply Hf; eauto; left; reflexivity.
Qed.

(** ** The IoU matrix is read only through the acceptance test *)

Section IouExt.

Variable self : ObjectBenchmark.
Variables iou iou' : nat -> nat -> Q.
Hypothesis same_test : forall g d k t,
  _min_overlaps self !! k = Some t ->
  Qltb t (iou g d) = Qltb t (iou' g d).

Lemma scan_ext dt_boxes order gt_idx gt_tag da ga :
  scan self iou dt_boxes order gt_idx gt_tag da ga
  = scan self iou' dt_boxes order gt_idx gt_tag da ga.
Proof.
  induction order as [|d order IH]; [reflexivity|].
  simpl. destruct (getitem dt_boxes d) as [box|]; [|reflexivity]. simpl.
  destruct (decide (tag_top box ≠ gt_tag)); [exact IH|].
  unfold dict_get.
  destruct (_min_overlaps self !! gt_tag) as [t|] eqn:Ht; [|reflexivity].
  simpl. rewrite (same_test gt_idx d gt_tag t Ht).
  destruct (Qltb t (iou' gt_idx d)); [reflexivity | exact IH].
Qed.

Lemma get_stats_ext gt_boxes dt_boxes :
  get_stats self iou gt_boxes dt_boxes = get_stats self iou' gt_boxes dt_boxes.
Proof.
  unfold get_stats, get_stats_locals, gt_loop.
  destruct (decide (frame gt_boxes = frame dt_boxes)); [|reflexivity].
  rewrite (for_each_ext _ (gt_body self iou (boxes gt_boxes) (boxes dt_boxes) _)
                          (gt_body self iou' (boxes gt_boxes) (boxes dt_boxes)
                             (dt_order (boxes dt_boxes)))); [reflexivity|].
  intros g s _. unfold gt_body.
  destruct (getitem (boxes gt_boxes) g) as [box|]; [|reflexivity]. simpl.
  destruct (decide (tag_top box ∈ _classes self)); [|reflexivity].
  rewrite scan_ext. reflexivity.
Qed.

End IouExt.

(** ** The scenario *)

Lemma scenario_iou_cases (x y : Q) (b : ObjectBenchmark) :
  scenario_init = Ok b ->
  exists bx b_y,
    get_stats b (scenario_iou x y) scenario_gt scenario_dt
    = get_stats b (scenario_iou_bool bx b_y) scenario_gt scenario_dt.
Proof.
  intros Hb. vm_compute in Hb. injection Hb as <-.
  exists (Qltb (1 # 2) x), (Qltb (1 # 2) y).
  apply get_stats_ext. intros g d k t Ht.
  assert (k = car /\ t = 1 # 2) as [-> ->].
  { destruct (decide (k = car)) as [->|Hk].
    - vm_compute in Ht. injection Ht as <-. auto.
    - exfalso. revert Ht. change (_min_overlaps _) with (dict_fromkeys [car] (1 # 2)).
      unfold dict_fromkeys. simpl. rewrite lookup_insert_ne by congruence.
      rewrite lookup_empty. discriminate. }
  unfold scenario_iou_bool, scenario_iou.
  destruct g as [|g], d as [|d]; try reflexivity.
  - destruct (Qltb (1 # 2) x); reflexivity.
  - destruct (Qltb (1 # 2) y); reflexivity.
Qed.

Lemma init_lin geomspace py_int classes min_overlaps n min_score :
  init geomspace py_int classes min_overlaps n min_score "lin"
  = init geomspace_pow2 int_decimal classes min_overlaps n min_score "lin".
Proof. reflexivity. Qed.

(** Everything the scenario computes, for the four concrete matrices. *)
Lemma scenario_bool_run (bx b_y : bool) :
  exists b0 f b p r fs tps ndts,
    scenario_init = Ok b0 /\
    get_stats b0 (scenario_iou_bool bx b_y) scenario_gt scenario_dt = Ok f /\
    add_stats f b0 = Ok b /\
    precision b (Some (3 # 4)) = Ok (AtScore p) /\
    recall b (Some (3 # 4)) = Ok (AtScore r) /\
    fscore b 1 (Some (3 # 4)) = Ok (AtScore fs) /\
    p !! car = Some 1%Q /\ r !! car = Some (1 # 2) /\
    fs !! car = Some (1 # 2) /\
    st_tp f !! car = Some tps /\ st_ndt f !! car = Some ndts /\
    tps !! 3 = Some 1 /\ ndts !! 3 = Some 0.
Proof.
  destruct bx, b_y.
  all: eexists _, _, _, _, _, _, _, _.
  all: do 12 (split; [vm_compute; reflexivity|]).
  all: vm_compute; reflexivity.
Qed.

(** The same for arbitrary open IoU entries. *)
Lemma scenario_run (x y : Q) :
  exists b f p r fs tps ndts,
    scenario_stats x y = Ok f /\
    scenario_merged x y = Ok b /\
    precision b (Some (3 # 4)) = Ok (AtScore p) /\
    recall b (Some (3 # 4)) = Ok (AtScore r) /\
    fscore b 1 (Some (3 # 4)) = Ok (AtScore fs) /\
    p !! car = Some 1%Q /\ r !! car = Some (1 # 2) /\
    fs !! car = Some (1 # 2) /\
    st_tp f !! car = Some tps /\ st_ndt f !! car = Some ndts /\
    tps !! 3 = Some 1 /\ ndts !! 3 = Some 0.
Proof.
  destruct (scenario_init) as [b0|] eqn:Hb0; [|discriminate].
  destruct (scenario_iou_cases x y b0 Hb0) as (bx & b_y & Hsame).
  destruct (scenario_bool_run bx b_y)
    as (b0' & f & b & p & r & fs & tps & ndts & H0 & Hf & Hb & Hrest).
  assert (b0' = b0) as -> by congruence.
  exists b, f, p, r, fs, tps, ndts.
  unfold scenario_merged, scenario_stats. rewrite Hb0. simpl.
  rewrite Hsame, Hf. simpl. rewrite Hb. auto.
Qed.

(** C5: in the scenario of the specification (ladder of 4 linear levels from
    0, one class with IoU threshold 0.5, two ground truths, detection A with
    score 0.9 and IoU 0.8 with the first, detection B with score 0.3 and IoU
    0.6 with the second, whatever the two other IoU entries), after the
    frame's statistics are merged once, the precision at score 0.75 is 1 and
    the recall at score 0.75 is 0.5. *)
Theorem scenario_precision_recall (x y : Q) :
  exists b p r,
    scenario_merged x y = Ok b /\
    precision b (Some (3 # 4)) = Ok (AtScore p) /\
    recall b (Some (3 # 4)) = Ok (AtScore r) /\
    p !! car = Some 1%Q /\
    r !! car = Some (1 # 2).
Proof.
  destruct (scenario_run x y)
    as (b & f & p & r & fs & tps & ndts & _ & Hb & Hp & Hr & _ & Hpc & Hrc & _).
  exists b, p, r. auto.
Qed.

(** Whenever [fscore] returns, in either branch, what it returns is the
    result of [recall]. *)
Lemma fscore_is_recall (b : ObjectBenchmark) (beta : Q) (score : option Q)
    (m : metric) :
  fscore b beta score = Ok m -> recall b score = Ok m.
Proof.
  unfold fscore. intros H.
  destruct (precision b score) as [p|]; [|discriminate]. simpl in H.
  destruct (recall b score) as [r|]; [|discriminate]. simpl in H.
  destruct p, r; try discriminate;
    destruct (dict_comp _ _ _); simpl in H; congruence.
Qed.

(** C1: on the merged scenario (precision 1, recall 0.5 at score 0.75) the
    F-score query with β = 1 returns 0.5, the recall, and not the value 2/3
    of the weighted formula (1+β²)·P·R / (β²·P + R). *)
Theorem fscore_returns_recall (x y : Q) :
  exists b fs r v,
    scenario_merged x y = Ok b /\
    fscore b 1 (Some (3 # 4)) = Ok (AtScore fs) /\
    recall b (Some (3 # 4)) = Ok (AtScore r) /\
    fs = r /\
    fs !! car = Some v /\
    (v == 1 # 2)%Q /\
    (fscore_formula 1 1 (1 # 2) == 2 # 3)%Q /\
    ~ (v == fscore_formula 1 1 (1 # 2))%Q.
Proof.
  destruct (scenario_run x y)
    as (b & f & p & r & fs & tps & ndts & _ & Hb & Hp & Hr & Hfs & _ & _ & Hv & _).
  exists b, fs, r, (1 # 2).
  repeat split; try assumption; try reflexivity.
  - unfold fscore in Hfs. rewrite Hp, Hr in Hfs. simpl in Hfs.
    destruct (dict_comp _ _ _); simpl in Hfs; congruence.
  - vm_compute. discriminate.
Qed.

(** C3: in the scenario, detection A (score 0.9, ladder index 4) is matched;
    at level 3, the last level below its index, the frame counts a true
    positive but no detection observed: the detections loop stops one level
    short of the levels at which the match is marked. *)
Theorem detections_counted_one_level_short (x y : Q) :
  exists f tps ndts,
    scenario_stats x y = Ok f /\
    searchsorted (linspace_open 0 1 4) (9 # 10) = 4 /\
    st_tp f !! car = Some tps /\
    st_ndt f !! car = Some ndts /\
    tps !! 3 = Some 1 /\
    ndts !! 3 = Some 0.
Proof.
  destruct (scenario_run x y)
    as (b & f & p & r & fs & tps & ndts & Hf & _ & _ & _ & _ & _ & _ & _ & Ht & Hn & H3 & H3').
  exists f, tps, ndts. repeat split; assumption || reflexivity.
Qed.

(** ** The threshold ladder *)

Lemma log_is_not_lin (scale : string) :
  String.prefix "log" scale = true -> String.eqb scale "lin" = false.
Proof.
  intros Hp. destruct (String.eqb scale "lin") eqn:E; [|reflexivity].
  apply String.eqb_eq in E. subst. discriminate.
Qed.

Lemma slice_to1_rev_length {A} (a : list A) :
  length (slice_to1_rev a) = length a - 2.
Proof. unfold slice_to1_rev. rewrite length_rev, length_drop. reflexivity. Qed.

Lemma linspace_open_length (start stop : Q) (num : nat) :
  length (linspace_open start stop num) = num.
Proof. unfold linspace_open. rewrite length_map, length_seq. reflexivity. Qed.

Lemma geomspace_pow2_length (a b : Q) (n : nat) (g : list Q) :
  geomspace_pow2 a b n = Ok g -> length g = n.
Proof.
  unfold geomspace_pow2. destruct (_ && _); [|discriminate].
  intros [= <-]. rewrite length_map, length_seq. reflexivity.
Qed.

(** The linear ladder has one threshold per sample. *)
Lemma lin_thresholds_length geomspace py_int n min_score l :
  make_thresholds geomspace py_int n min_score "lin" = Ok l -> length l = n.
Proof. intros [= <-]. apply linspace_open_length. Qed.

(** C4: with a log scale mode the constructor builds a ladder of N-1
    thresholds for N samples: of the N+1 geometric values the slice [[:1:-1]]
    drops two, not one. *)
Theorem log_ladder_one_short
    (geomspace : Q -> Q -> nat -> result (list Q))
    (py_int : string -> result Z)
    (geomspace_length :
       forall a b n g, geomspace a b n = Ok g -> length g = n)
    classes min_overlaps (n : nat) (min_score : Q) (scale : string)
    (b : ObjectBenchmark) :
  String.prefix "log" scale = true ->
  init geomspace py_int classes min_overlaps n min_score scale = Ok b ->
  _pr_nsamples b = n /\ length (_pr_thresholds b) = n - 1.
Proof.
  intros Hlog Hinit. unfold init in Hinit.
  inv_bind Hinit. inv_bind Hinit. injection Hinit as <-. simpl.
  split; [reflexivity|].
  unfold make_thresholds in E0. rewrite (log_is_not_lin _ Hlog), Hlog in E0.
  inv_bind E0. inv_bind E0. injection E0 as <-.
  rewrite slice_to1_rev_length, !length_map.
  rewrite (geomspace_length _ _ _ _ E2). lia.
Qed.

Lemma log_ladder_one_short_witness :
  exists b,
    init geomspace_pow2 int_decimal (Many [car]) (One (1 # 2)) 2 0 "log4" = Ok b
    /\ _pr_thresholds b = [0 # 3]
    /\ _pr_nsamples b = 2 /\ length (_pr_thresholds b) = 2 - 1.
Proof.
  eexists. split; [vm_compute; reflexivity|].
  split; [vm_compute; reflexivity|].
  apply (log_ladder_one_short geomspace_pow2 int_decimal geomspace_pow2_length
           (Many [car]) (One (1 # 2)) 2 0 "log4").
  - reflexivity.
  - vm_compute; reflexivity.
Defined.

(** ** Failures of the constructor *)

Lemma overlaps_of_list_short (cs : list ObjectClass) (vs : list Q) (i : nat)
    (acc : gmap ObjectClass Q) :
  i + length vs <= length cs ->
  exists d, overlaps_of_list (Many cs) i vs acc = Ok d.
Proof.
  revert i acc; induction vs as [|v vs IH]; intros i acc Hlen; simpl in *.
  - eauto.
  - unfold getitem. destruct (lookup_lt_is_Some_2 cs i) as [c ->]; [lia|].
    simpl. apply IH. lia.
Qed.

Lemma overlaps_of_list_long (cs : list ObjectClass) (vs : list Q) (i : nat)
    (acc : gmap ObjectClass Q) :
  i <= length cs -> length cs < i + length vs ->
  overlaps_of_list (Many cs) i vs acc = Raise IndexError.
Proof.
  revert i acc; induction vs as [|v vs IH]; intros i acc Hi Hlen; simpl in *.
  - lia.
  - unfold getitem. destruct (cs !! i) as [c|] eqn:Hc; simpl; [|reflexivity].
    apply lookup_lt_Some in Hc. apply IH; lia.
Qed.

(** A list of IoU thresholds no longer than the class list is accepted. *)
Lemma init_accepts_short_overlaps geomspace py_int cs vs n min_score :
  length vs <= length cs ->
  exists b, init geomspace py_int (Many cs) (Many vs) n min_score "lin" = Ok b.
Proof.
  intros Hlen. unfold init.
  destruct (overlaps_of_list_short cs vs 0 ∅) as [d ->]; [lia|].
  simpl. eauto.
Qed.

(** C9 (as the code has it): construction raises whenever the scale mode is
    neither ["lin"] nor a string that starts with ["log"], and whenever the
    IoU thresholds are a list longer than the class list. *)
Theorem init_fails geomspace py_int classes min_overlaps n min_score scale :
  (String.eqb scale "lin" = false /\ String.prefix "log" scale = false) \/
  (exists cs vs, classes = Many cs /\ min_overlaps = Many vs /\
                 length cs < length vs) ->
  exists e,
    init geomspace py_int classes min_overlaps n min_score scale = Raise e.
Proof.
  intros [[Hlin Hlog]|(cs & vs & -> & -> & Hlen)]; unfold init.
  - destruct (match min_overlaps with Many vs => _ | One v => _ end)
      as [d|e]; simpl; [|eauto].
    unfold make_thresholds. rewrite Hlin, Hlog. simpl. eauto.
  - rewrite overlaps_of_list_long by (simpl; lia). simpl. eauto.
Qed.

Lemma init_fails_witness :
  (exists e, init geomspace_pow2 int_decimal (Many [car]) (One (1 # 2)) 4 0
               "linear" = Raise e) /\
  (exists e, init geomspace_pow2 int_decimal (Many [car]) (Many [1 # 2; 1 # 2])
               4 0 "lin" = Raise e).
Proof.
  split.
  - apply (init_fails geomspace_pow2 int_decimal (Many [car]) (One (1 # 2)) 4 0
             "linear").
    left. split; reflexivity.
  - apply (init_fails geomspace_pow2 int_decimal (Many [car])
             (Many [1 # 2; 1 # 2]) 4 0 "lin").
    right. exists [car], [1 # 2; 1 # 2]. repeat split. simpl. lia.
Defined.

(** C9 as stated fails: two classes with a one-element list of IoU thresholds
    construct a benchmark, in which the second class has no threshold. *)
Lemma init_accepts_mismatched_lengths :
  exists b,
    length [1 # 2] <> length [0; 1] /\
    init geomspace_pow2 int_decimal (Many [0; 1]) (Many [1 # 2]) 4 0 "lin"
    = Ok b /\
    _min_overlaps b !! 1 = None.
Proof.
  eexists. split; [simpl; lia|].
  split; vm_compute; reflexivity.
Qed.

(** ** The assertion on the score *)

Lemma bind_not_raise {A B} (e : exn) (r : result A) (f : A -> result B) :
  r <> Raise e -> (forall a, f a <> Raise e) -> r ≫= f <> Raise e.
Proof.
  intros Hr Hf. destruct r as [a|e']; simpl; [apply Hf|].
  intros [= ->]. apply Hr. reflexivity.
Qed.

Lemma for_each_not_raise {A S} (e : exn) (l : list A)
    (f : A -> S -> result S) (s : S) :
  (forall x a, f x a <> Raise e) -> for_each l f s <> Raise e.
Proof.
  intros Hf. revert s; induction l as [|x l IH]; intros s; simpl.
  - discriminate.
  - apply bind_not_raise; [apply Hf | apply IH].
Qed.

Lemma of_option_not_raise {A} (e e' : exn) (o : option A) :
  e <> e' -> of_option e o <> Raise e'.
Proof. intros Hne. destruct o; simpl; congruence. Qed.

Lemma add_at_not_assertion (d : gmap ObjectClass (list nat)) k i n :
  add_at d k i n <> Raise AssertionError.
Proof.
  unfold add_at, dict_get, getitem.
  apply bind_not_raise; [apply of_option_not_raise; discriminate|]. intros l.
  apply bind_not_raise; [apply of_option_not_raise; discriminate|]. intros x.
  discriminate.
Qed.

Lemma assign_box_not_assertion levels g d da ga :
  assign_box levels g d da ga <> Raise AssertionError.
Proof.
  revert da ga; induction levels as [|i levels IH]; intros da ga; simpl.
  - discriminate.
  - apply bind_not_raise; [apply of_option_not_raise; discriminate|]. intros m.
    destruct (decide (is_Some (m !! d))); [apply IH|].
    apply bind_not_raise; [apply of_option_not_raise; discriminate|]. intros m'.
    apply IH.
Qed.

(** The test [thres_loc >= 0] of line 82 holds for every score. *)
Lemma thres_loc_nonneg (thresholds : list Q) (score : Q) :
  (0 <=? Z.of_nat (searchsorted thresholds score))%Z = true.
Proof. apply Z.leb_le. lia. Qed.

Lemma scan_not_assertion self iou dt_boxes order g tag da ga :
  scan self iou dt_boxes order g tag da ga <> Raise AssertionError.
Proof.
  induction order as [|d order IH]; simpl.
  - discriminate.
  - apply bind_not_raise; [apply of_option_not_raise; discriminate|]. intros box.
    destruct (decide (tag_top box ≠ tag)); [exact IH|].
    apply bind_not_raise; [apply of_option_not_raise; discriminate|]. intros t.
    destruct (Qltb t (iou g d)); [|exact IH].
    rewrite thres_loc_nonneg. apply assign_box_not_assertion.
Qed.

Lemma get_stats_locals_not_assertion self iou gt_boxes dt_boxes :
  get_stats_locals self iou gt_boxes dt_boxes <> Raise AssertionError.
Proof.
  unfold get_stats_locals, gt_loop.
  apply bind_not_raise.
  - apply for_each_not_raise. intros g s. unfold gt_body.
    apply bind_not_raise; [apply of_option_not_raise; discriminate|]. intros box.
    destruct (decide (tag_top box ∈ _classes self)); [|discriminate].
    apply bind_not_raise; [apply scan_not_assertion|]. intros [da ga].
    apply bind_not_raise; [apply of_option_not_raise; discriminate|]. intros n.
    apply for_each_not_raise. intros i s'. unfold count_gt.
    apply bind_not_raise; [apply of_option_not_raise; discriminate|]. intros m.
    destruct (decide (is_Some (m !! g)));
      (apply bind_not_raise; [apply add_at_not_assertion | discriminate]).
  - intros s. apply for_each_not_raise. intros d s'. unfold dt_body.
    apply bind_not_raise; [apply of_option_not_raise; discriminate|]. intros box.
    destruct (decide (tag_top box ∈ _classes self)); [|discriminate].
    apply for_each_not_raise. intros i s''. unfold count_dt.
    apply bind_not_raise; [apply add_at_not_assertion|]. intros ndt'.
    apply bind_not_raise; [apply of_option_not_raise; discriminate|]. intros m.
    destruct (decide (is_Some (m !! d))); [discriminate|].
    apply bind_not_raise; [apply add_at_not_assertion | discriminate].
Qed.

(** C8: when the two box arrays belong to the same frame, [get_stats] never
    fails with an assertion, whatever the scores of the detections are: the
    asserted index is a position returned by [searchsorted], which is never
    negative. *)
Theorem get_stats_never_asserts_on_scores self iou (fr : nat)
    (gt_boxes dt_boxes : list ObjectTarget3D) :
  get_stats self iou {| frame := fr; boxes := gt_boxes |}
                     {| frame := fr; boxes := dt_boxes |}
  <> Raise AssertionError.
Proof.
  unfold get_stats. simpl.
  destruct (decide (fr = fr)) as [_|Hne]; [|congruence].
  apply bind_not_raise; [apply get_stats_locals_not_assertion | discriminate].
Qed.

(** A frame of the scenario's benchmark (minimal score 0) whose only
    detection has score -0.5 and overlaps the only ground truth: the scan
    reaches the assertion with index 0, passes it, and the statistics are
    returned. *)
Example score_below_min_accepted :
  exists b f,
    scenario_init = Ok b /\
    get_stats b (fun _ _ => 1%Q)
      {| frame := 0; boxes := [ {| tag_top := car; tag_score := 1 |} ] |}
      {| frame := 0; boxes := [ {| tag_top := car; tag_score := - (1 # 2) |} ] |}
    = Ok f /\
    st_tp f !! car = Some [0; 0; 0; 0] /\
    st_fn f !! car = Some [1; 1; 1; 1].
Proof.
  eexists _, _. do 3 (split; [vm_compute; reflexivity|]).
  vm_compute; reflexivity.
Qed.

(** The same with a score of 1.5, above the range: the detection counts as
    matched at every level. *)
Example score_above_one_accepted :
  exists b f,
    scenario_init = Ok b /\
    get_stats b (fun _ _ => 1%Q)
      {| frame := 0; boxes := [ {| tag_top := car; tag_score := 1 |} ] |}
      {| frame := 0; boxes := [ {| tag_top := car; tag_score := 3 # 2 |} ] |}
    = Ok f /\
    st_tp f !! car = Some [1; 1; 1; 1].
Proof.
  eexists _, _. do 2 (split; [vm_compute; reflexivity|]).
  vm_compute; reflexivity.
Qed.

(** ** The order on the rationals *)

Lemma Qltb_lt (x y : Q) : Qltb x y = true <-> (x < y)%Q.
Proof.
  unfold Qltb. rewrite negb_true_iff. split.
  - intros H. apply Qnot_le_lt. intros Hle.
    apply Qle_bool_iff in Hle. congruence.
  - intros H. destruct (Qle_bool y x) eqn:E; [|reflexivity].
    apply Qle_bool_iff in E. exfalso. eapply Qlt_not_le; eassumption.
Qed.

(** ** [searchsorted] on an ascending array *)

(** On an ascending array the position returned is the number of entries
    strictly below the value: exactly the entries before it are below. *)
Lemma searchsorted_sorted (a : list Q) (v : Q) :
  StronglySorted Qle a ->
  forall i x, a !! i = Some x ->
    ((x < v)%Q <-> i < searchsorted a v).
Proof.
  induction 1 as [|y a Ha IH Hy]; intros i x Hx; [discriminate|].
  simpl. destruct (Qltb y v) eqn:E.
  - destruct i as [|i]; simpl in Hx.
    + injection Hx as <-. apply Qltb_lt in E. split; [lia|auto].
    + rewrite (IH i x Hx). lia.
  - assert (~ (y < v)%Q) as Hyv by (rewrite <- Qltb_lt; congruence).
    split; [|lia]. intros Hxv. exfalso. apply Hyv.
    destruct i as [|i]; simpl in Hx.
    + congruence.
    + rewrite Forall_forall in Hy.
      eapply Qle_lt_trans; [apply (Hy x)|exact Hxv].
      eapply list_elem_of_lookup_2. exact Hx.
Qed.

Lemma searchsorted_le_length (a : list Q) (v : Q) :
  searchsorted a v <= length a.
Proof.
  induction a as [|x a IH]; simpl; [lia|].
  destruct (Qltb x v); simpl; lia.
Qed.

(** ** Queries below the ladder *)

Lemma py_index_minus1 {A} (l : list A) :
  l <> [] -> py_index l (-1) = l !! (length l - 1).
Proof.
  intros Hl. unfold py_index. simpl.
  destruct l as [|x l]; [congruence|].
  replace (-1 + Z.of_nat (length (x :: l)) <? 0)%Z with false
    by (symmetry; apply Z.ltb_ge; simpl length; lia).
  f_equal. simpl length. lia.
Qed.

Lemma searchsorted_below (a : list Q) (score : Q) :
  Forall (fun t => (score <= t)%Q) a -> searchsorted a score = 0.
Proof.
  intros Ha. destruct a as [|x a]; [reflexivity|].
  apply Forall_cons in Ha as [Hx _]. simpl. unfold Qltb.
  apply Qle_bool_iff in Hx. rewrite Hx. reflexivity.
Qed.

Lemma column_minus1 cls n (d : gmap ObjectClass (list nat)) :
  shaped cls n d -> 0 < n ->
  exists m, column d (-1) = Ok m /\ forall k, m !! k = level_of d (n - 1) k.
Proof.
  intros [_ Hlen] Hn.
  assert (Hidx : forall k l, d !! k = Some l -> py_index l (-1) = l !! (n - 1)).
  { intros k l Hk. specialize (Hlen k l Hk).
    rewrite py_index_minus1 by (destruct l; simpl in *; [lia|congruence]).
    rewrite Hlen. reflexivity. }
  unfold column. destruct (decide _) as [_|Hbad].
  - eexists. split; [reflexivity|]. intros k.
    rewrite lookup_omap. unfold level_of.
    destruct (d !! k) as [l|] eqn:Hk; simpl; [|reflexivity].
    eapply Hidx; eassumption.
  - exfalso. apply Hbad. intros k l Hk. simpl.
    rewrite (Hidx k l Hk). apply lookup_lt_is_Some_2.
    rewrite (Hlen k l Hk). lia.
Qed.

Lemma level_of_shaped cls n (d : gmap ObjectClass (list nat)) i k :
  shaped cls n d -> k ∈ cls -> i < n -> is_Some (level_of d i k).
Proof.
  intros [Hkeys Hlen] Hk Hi. unfold level_of.
  apply Hkeys in Hk as [l Hl]. rewrite Hl. simpl.
  apply lookup_lt_is_Some_2. rewrite (Hlen k l Hl). assumption.
Qed.

Lemma dict_comp_Ok {V} (ks : list ObjectClass) (f : ObjectClass -> result V)
    (g : ObjectClass -> V) (acc : gmap ObjectClass V) :
  (forall k, k ∈ ks -> f k = Ok (g k)) ->
  exists m, dict_comp ks f acc = Ok m /\
            (forall k, k ∈ ks -> m !! k = Some (g k)) /\
            (forall k, k ∉ ks -> m !! k = acc !! k).
Proof.
  revert acc; induction ks as [|k0 ks IH]; intros acc Hf; simpl.
  - exists acc. split; [reflexivity|]. split; [|reflexivity].
    intros k Hk. apply elem_of_nil in Hk. contradiction.
  - rewrite (Hf k0) by (left). simpl.
    destruct (IH (<[k0 := g k0]> acc)) as (m & Hm & Hin & Hout).
    { intros k Hk. apply Hf. right. assumption. }
    exists m. split; [assumption|]. split.
    + intros k Hk. destruct (decide (k ∈ ks)) as [Hks|Hks]; [auto|].
      apply elem_of_cons in Hk as [->|Hk]; [|contradiction].
      rewrite (Hout k0 Hks). apply lookup_insert_eq.
    + intros k Hk. apply not_elem_of_cons in Hk as [Hne Hks].
      rewrite (Hout k Hks). apply lookup_insert_ne. congruence.
Qed.

(** The per-class ratio of the score branch of [precision] and [recall],
    read off two columns. *)
Lemma ratio_at_score cls (ts fs : gmap ObjectClass nat) :
  (forall k, k ∈ cls -> is_Some (ts !! k) /\ is_Some (fs !! k)) ->
  exists m,
    dict_comp cls (fun k => f ← dict_get fs k; t ← dict_get ts k;
                            Ok (ratio_gt t f)) ∅ = Ok m /\
    forall k, k ∈ cls ->
      exists t f, ts !! k = Some t /\ fs !! k = Some f /\
                  m !! k = Some (ratio_gt t f).
Proof.
  intros Hkeys.
  destruct (dict_comp_Ok cls
              (fun k => f ← dict_get fs k; t ← dict_get ts k; Ok (ratio_gt t f))
              (fun k => ratio_gt (default 0 (ts !! k)) (default 0 (fs !! k))) ∅)
    as (m & Hm & Hin & _).
  { intros k Hk. destruct (Hkeys k Hk) as [[t Ht] [f Hf]].
    unfold dict_get. rewrite Ht, Hf. reflexivity. }
  exists m. split; [assumption|]. intros k Hk.
  destruct (Hkeys k Hk) as [[t Ht] [f Hf]].
  exists t, f. rewrite (Hin k Hk), Ht, Hf. auto.
Qed.

(** C10: when the explicit score is not above any ladder threshold, the
    score-to-level translation yields -1 and the count queries return, for
    every class, the entry of the last level; precision and recall are
    computed from the entries of the last level. *)
Theorem low_score_reads_last_level (b : ObjectBenchmark) (score : Q) :
  well_shaped b ->
  0 < _pr_nsamples b ->
  Forall (fun t => (score <= t)%Q) (_pr_thresholds b) ->
  let last := _pr_nsamples b - 1 in
  _get_score_idx b (Some score) = (-1)%Z /\
  (exists m, tp b (Some score) = Ok m /\
             forall k, m !! k = level_of (_tp b) last k) /\
  (exists m, fp b (Some score) = Ok m /\
             forall k, m !! k = level_of (_fp b) last k) /\
  (exists m, fn b (Some score) = Ok m /\
             forall k, m !! k = level_of (_fn b) last k) /\
  (exists m, dt_count b (Some score) = Ok m /\
             forall k, m !! k = level_of (_total_dt b) last k) /\
  (exists p, precision b (Some score) = Ok (AtScore p) /\
             forall k, k ∈ _classes b ->
               exists t f, level_of (_tp b) last k = Some t /\
                           level_of (_fp b) last k = Some f /\
                           p !! k = Some (ratio_gt t f)) /\
  (exists r, recall b (Some score) = Ok (AtScore r) /\
             forall k, k ∈ _classes b ->
               exists t f, level_of (_tp b) last k = Some t /\
                           level_of (_fn b) last k = Some f /\
                           r !! k = Some (ratio_gt t f)).
Proof.
  intros (Htp & Hfp & Hfn & _ & Hdt) Hn Hlow last.
  assert (Hidx : _get_score_idx b (Some score) = (-1)%Z).
  { unfold _get_score_idx. rewrite (searchsorted_below _ _ Hlow). reflexivity. }
  destruct (column_minus1 _ _ _ Htp Hn) as (mtp & Emtp & Ltp).
  destruct (column_minus1 _ _ _ Hfp Hn) as (mfp & Emfp & Lfp).
  destruct (column_minus1 _ _ _ Hfn Hn) as (mfn & Emfn & Lfn).
  destruct (column_minus1 _ _ _ Hdt Hn) as (mdt & Emdt & Ldt).
  assert (Hlast : last < _pr_nsamples b) by (unfold last; lia).
  split; [assumption|].
  unfold tp, fp, fn, dt_count, precision, recall.
  unfold tp, fp, fn. rewrite Hidx, Emtp, Emfp, Emfn, Emdt. simpl.
  do 4 (split; [eauto|]).
  split.
  - destruct (ratio_at_score (_classes b) mtp mfp) as (p & Hp & Hpk).
    { intros k Hk. rewrite Ltp, Lfp. split; eapply level_of_shaped; eauto. }
    rewrite Hp. simpl. exists p. split; [reflexivity|].
    intros k Hk. destruct (Hpk k Hk) as (t & f & Ht & Hf & Hv).
    exists t, f. rewrite <- Ltp, <- Lfp. auto.
  - destruct (ratio_at_score (_classes b) mtp mfn) as (r & Hr & Hrk).
    { intros k Hk. rewrite Ltp, Lfn. split; eapply level_of_shaped; eauto. }
    rewrite Hr. simpl. exists r. split; [reflexivity|].
    intros k Hk. destruct (Hrk k Hk) as (t & f & Ht & Hf & Hv).
    exists t, f. rewrite <- Ltp, <- Lfn. auto.
Qed.

(** ** The accumulator in closed form *)

Lemma add_prefix_length j (l s : list nat) :
  length (add_prefix j l s) = length l.
Proof.
  revert l s; induction j as [|j IH]; intros [|x l] [|y s]; simpl; auto.
Qed.

Lemma add_prefix_lookup j (l s : list nat) :
  add_prefix j l s !! j = l !! j.
Proof.
  revert l s; induction j as [|j IH]; intros [|x l] [|y s]; simpl; auto.
Qed.

Lemma add_prefix_step j (l s : list nat) x y :
  l !! j = Some x -> s !! j = Some y ->
  <[j := x + y]> (add_prefix j l s) = add_prefix (S j) l s.
Proof.
  revert l s; induction j as [|j IH]; intros [|a l] [|c s] Hx Hy;
    simpl in *; try discriminate.
  - injection Hx as ->. injection Hy as ->. destruct l, s; reflexivity.
  - f_equal. apply IH; assumption.
Qed.

Lemma add_prefix_full (l s : list nat) :
  length l = length s -> add_prefix (length l) l s = zip_with Nat.add l s.
Proof.
  revert s; induction l as [|x l IH]; intros [|y s] Hlen; simpl in *;
    try discriminate; try reflexivity.
  f_equal. apply IH. lia.
Qed.

Lemma alter_Some `{Countable K} {V} (f : V -> V) (d : gmap K V) k x :
  d !! k = Some x -> alter f k d = <[k := f x]> d.
Proof.
  intros Hk. apply map_eq. intros j.
  rewrite lookup_alter, lookup_insert. case_decide; [|reflexivity].
  rewrite Hk. reflexivity.
Qed.

Lemma with_tables_id (b : ObjectBenchmark) :
  with_tables b (_total_gt b) (_total_dt b) (_tp b) (_fp b) (_fn b) = b.
Proof. destruct b; reflexivity. Qed.

Lemma add_from_insert (d : gmap nat (list nat)) k (l0 s : list nat)
    j x y (e : result nat) :
  l0 !! j = Some x -> s !! j = Some y -> e = Ok y ->
  add_from (<[k := add_prefix j l0 s]> d) k j e
  = Ok (<[k := add_prefix (S j) l0 s]> d).
Proof.
  intros Hx Hy ->. unfold add_from, dict_get, getitem.
  rewrite lookup_insert_eq. simpl. rewrite add_prefix_lookup, Hx. simpl.
  rewrite insert_insert_eq, (add_prefix_step j l0 s x y Hx Hy). reflexivity.
Qed.

Lemma stats_get_Some (t : gmap nat (list nat)) k (l : list nat) j y :
  t !! k = Some l -> l !! j = Some y -> stats_get t k j = Ok y.
Proof.
  intros Hl Hy. unfold stats_get, getitem. rewrite Hl. simpl.
  rewrite Hy. reflexivity.
Qed.

Section AddClass.

Variable f : FrameStats.
Variable k : ObjectClass.
Variable b : ObjectBenchmark.
Variables ldt ltp lfp lfn sdt stp sfp sfn : list nat.
Hypothesis Hldt : _total_dt b !! k = Some ldt.
Hypothesis Hltp : _tp b !! k = Some ltp.
Hypothesis Hlfp : _fp b !! k = Some lfp.
Hypothesis Hlfn : _fn b !! k = Some lfn.
Hypothesis Hsdt : st_ndt f !! k = Some sdt.
Hypothesis Hstp : st_tp f !! k = Some stp.
Hypothesis Hsfp : st_fp f !! k = Some sfp.
Hypothesis Hsfn : st_fn f !! k = Some sfn.

(** The loop over the levels, after [j] rounds. *)
Lemma add_levels_run (gt : gmap ObjectClass nat) (j : nat) :
  j <= length ldt -> j <= length ltp -> j <= length lfp -> j <= length lfn ->
  j <= length sdt -> j <= length stp -> j <= length sfp -> j <= length sfn ->
  for_each (seq 0 j) (add_level f k)
    (with_tables b gt (_total_dt b) (_tp b) (_fp b) (_fn b))
  = Ok (with_tables b gt
          (<[k := add_prefix j ldt sdt]> (_total_dt b))
          (<[k := add_prefix j ltp stp]> (_tp b))
          (<[k := add_prefix j lfp sfp]> (_fp b))
          (<[k := add_prefix j lfn sfn]> (_fn b))).
Proof.
  induction j as [|j IH]; intros H1 H2 H3 H4 H5 H6 H7 H8.
  - simpl. destruct ldt, ltp, lfp, lfn; simpl;
      rewrite !insert_id by assumption; reflexivity.
  - rewrite seq_S, for_each_app, IH by lia. simpl.
    destruct (lookup_lt_is_Some_2 ldt j) as [x1 Hx1]; [lia|].
    destruct (lookup_lt_is_Some_2 ltp j) as [x2 Hx2]; [lia|].
    destruct (lookup_lt_is_Some_2 lfp j) as [x3 Hx3]; [lia|].
    destruct (lookup_lt_is_Some_2 lfn j) as [x4 Hx4]; [lia|].
    destruct (lookup_lt_is_Some_2 sdt j) as [y1 Hy1]; [lia|].
    destruct (lookup_lt_is_Some_2 stp j) as [y2 Hy2]; [lia|].
    destruct (lookup_lt_is_Some_2 sfp j) as [y3 Hy3]; [lia|].
    destruct (lookup_lt_is_Some_2 sfn j) as [y4 Hy4]; [lia|].
    unfold add_level. simpl.
    rewrite (add_from_insert _ k ldt sdt j x1 y1 _ Hx1 Hy1
               (stats_get_Some _ _ _ _ _ Hsdt Hy1)). simpl.
    rewrite (add_from_insert _ k ltp stp j x2 y2 _ Hx2 Hy2
               (stats_get_Some _ _ _ _ _ Hstp Hy2)). simpl.
    rewrite (add_from_insert _ k lfp sfp j x3 y3 _ Hx3 Hy3
               (stats_get_Some _ _ _ _ _ Hsfp Hy3)). simpl.
    rewrite (add_from_insert _ k lfn sfn j x4 y4 _ Hx4 Hy4
               (stats_get_Some _ _ _ _ _ Hsfn Hy4)).
    reflexivity.
Qed.

End AddClass.

Lemma shaped_lookup cls n (d : gmap ObjectClass (list nat)) k :
  shaped cls n d -> k ∈ cls -> exists l, d !! k = Some l /\ length l = n.
Proof.
  intros [Hkeys Hlen] Hk. apply Hkeys in Hk as [l Hl].
  exists l. split; [assumption | eapply Hlen; eassumption].
Qed.

Lemma shaped_merge_table cls n (s d : gmap ObjectClass (list nat)) k :
  shaped cls n s -> shaped cls n d -> shaped cls n (merge_table s d k).
Proof.
  intros [Hks Hls] [Hkd Hld]. unfold merge_table.
  destruct (s !! k) as [sl|] eqn:Hs; [|split; assumption].
  split.
  - intros j. rewrite lookup_alter. case_decide; subst.
    + rewrite fmap_is_Some. apply Hkd.
    + apply Hkd.
  - intros j l. rewrite lookup_alter. case_decide; subst.
    + destruct (d !! j) as [l0|] eqn:Hd; simpl; [|discriminate].
      intros [= <-]. rewrite length_zip_with.
      rewrite (Hld _ _ Hd), (Hls _ _ Hs). lia.
    + apply Hld.
Qed.

Lemma keyed_merge_count cls (s d : gmap ObjectClass nat) k :
  keyed cls d -> keyed cls (merge_count s d k).
Proof.
  intros Hkd. unfold merge_count. destruct (s !! k) as [n|]; [|assumption].
  intros j. rewrite lookup_alter. case_decide; subst; [|apply Hkd].
  rewrite fmap_is_Some. apply Hkd.
Qed.

Lemma shaped_merge_tables cls n (s d : gmap ObjectClass (list nat)) ks :
  shaped cls n s -> shaped cls n d -> shaped cls n (foldl (merge_table s) d ks).
Proof.
  intros Hs. revert d; induction ks as [|k ks IH]; intros d Hd; simpl.
  - assumption.
  - apply IH. apply shaped_merge_table; assumption.
Qed.

Lemma keyed_merge_counts cls (s d : gmap ObjectClass nat) ks :
  keyed cls d -> keyed cls (foldl (merge_count s) d ks).
Proof.
  revert d; induction ks as [|k ks IH]; intros d Hd; simpl.
  - assumption.
  - apply IH. apply keyed_merge_count; assumption.
Qed.

Lemma merged_on_well_shaped ks f b :
  well_shaped b -> stats_shaped (_classes b) (_pr_nsamples b) f ->
  well_shaped (merged_on ks f b).
Proof.
  intros (H1 & H2 & H3 & H4 & H5) (F1 & F2 & F3 & F4 & F5).
  unfold well_shaped, merged_on. simpl.
  split; [|split; [|split; [|split]]];
    first [apply shaped_merge_tables; assumption
          | apply keyed_merge_counts; assumption].
Qed.

(** One class of [add_stats]. *)
Lemma add_class_run f k b :
  well_shaped b -> stats_shaped (_classes b) (_pr_nsamples b) f ->
  k ∈ _classes b ->
  add_class f k b = Ok (merged_on [k] f b).
Proof.
  intros (H1 & H2 & H3 & H4 & H5) (F1 & F2 & F3 & F4 & F5) Hk.
  destruct (shaped_lookup _ _ _ k H1 Hk) as (ltp & Hltp & Lltp).
  destruct (shaped_lookup _ _ _ k H2 Hk) as (lfp & Hlfp & Llfp).
  destruct (shaped_lookup _ _ _ k H3 Hk) as (lfn & Hlfn & Llfn).
  destruct (shaped_lookup _ _ _ k H5 Hk) as (ldt & Hldt & Lldt).
  destruct (shaped_lookup _ _ _ k F1 Hk) as (stp & Hstp & Lstp).
  destruct (shaped_lookup _ _ _ k F2 Hk) as (sfp & Hsfp & Lsfp).
  destruct (shaped_lookup _ _ _ k F3 Hk) as (sfn & Hsfn & Lsfn).
  destruct (shaped_lookup _ _ _ k F5 Hk) as (sdt & Hsdt & Lsdt).
  destruct (proj1 (H4 k) Hk) as [t Ht].
  destruct (proj1 (F4 k) Hk) as [n Hn].
  unfold add_class, dict_get. rewrite Ht, Hn. simpl.
  etrans.
  { apply (add_levels_run f k b ldt ltp lfp lfn sdt stp sfp sfn
             Hldt Hltp Hlfp Hlfn Hsdt Hstp Hsfp Hsfn
             (<[k := t + n]> (_total_gt b)) (_pr_nsamples b)); lia. }
  unfold merged_on, merge_table, merge_count. simpl.
  rewrite Hn, Hsdt, Hstp, Hsfp, Hsfn.
  rewrite (alter_Some _ _ _ _ Ht), (alter_Some _ _ _ _ Hldt),
    (alter_Some _ _ _ _ Hltp), (alter_Some _ _ _ _ Hlfp),
    (alter_Some _ _ _ _ Hlfn).
  rewrite <- (add_prefix_full ldt sdt), <- (add_prefix_full ltp stp),
    <- (add_prefix_full lfp sfp), <- (add_prefix_full lfn sfn) by lia.
  rewrite Lldt, Lltp, Llfp, Llfn. reflexivity.
Qed.

Lemma add_classes_run f ks b :
  well_shaped b -> stats_shaped (_classes b) (_pr_nsamples b) f ->
  (forall k, k ∈ ks -> k ∈ _classes b) ->
  for_each ks (add_class f) b = Ok (merged_on ks f b).
Proof.
  revert b; induction ks as [|k ks IH]; intros b Hb Hf Hks.
  - simpl. unfold merged_on. simpl. rewrite with_tables_id. reflexivity.
  - simpl. rewrite add_class_run by (auto; apply Hks; left). simpl.
    rewrite IH.
    + reflexivity.
    + apply merged_on_well_shaped; assumption.
    + exact Hf.
    + intros j Hj. apply Hks. right. assumption.
Qed.

(** [add_stats] on tables of the right shape: it returns, and returns the
    closed form. *)
Lemma add_stats_merged f b :
  well_shaped b -> stats_shaped (_classes b) (_pr_nsamples b) f ->
  add_stats f b = Ok (merged_on (_classes b) f b).
Proof. intros Hb Hf. apply add_classes_run; auto. Qed.

(** ** Merging is independent of the order *)

Lemma foldl_commute {A B C} (f : A -> B -> A) (g : A -> C -> A) :
  (forall a x y, g (f a x) y = f (g a y) x) ->
  forall l1 l2 a, foldl g (foldl f a l1) l2 = foldl f (foldl g a l2) l1.
Proof.
  intros Hfg.
  assert (Hone : forall l2 a x, foldl g (f a x) l2 = f (foldl g a l2) x).
  { induction l2 as [|y l2 IH]; intros a x; simpl; [reflexivity|].
    rewrite Hfg. apply IH. }
  induction l1 as [|x l1 IH]; intros l2 a; simpl; [reflexivity|].
  rewrite IH, Hone. reflexivity.
Qed.

Lemma zip_with_add_swap (l s1 s2 : list nat) :
  zip_with Nat.add (zip_with Nat.add l s1) s2
  = zip_with Nat.add (zip_with Nat.add l s2) s1.
Proof.
  revert s1 s2; induction l as [|x l IH]; intros [|y s1] [|z s2]; simpl;
    try reflexivity.
  f_equal; [lia | apply IH].
Qed.

Lemma merge_table_commute (s1 s2 d : gmap ObjectClass (list nat)) k1 k2 :
  merge_table s2 (merge_table s1 d k1) k2
  = merge_table s1 (merge_table s2 d k2) k1.
Proof.
  unfold merge_table.
  destruct (s1 !! k1) as [l1|], (s2 !! k2) as [l2|]; try reflexivity.
  apply map_eq. intros j. rewrite !lookup_alter.
  repeat case_decide; subst; try reflexivity; try congruence.
  destruct (d !! j) as [l|]; simpl; [|reflexivity].
  f_equal. apply zip_with_add_swap.
Qed.

Lemma merge_count_commute (s1 s2 d : gmap ObjectClass nat) k1 k2 :
  merge_count s2 (merge_count s1 d k1) k2
  = merge_count s1 (merge_count s2 d k2) k1.
Proof.
  unfold merge_count.
  destruct (s1 !! k1) as [n1|], (s2 !! k2) as [n2|]; try reflexivity.
  apply map_eq. intros j. rewrite !lookup_alter.
  repeat case_decide; subst; try reflexivity; try congruence.
  destruct (d !! j) as [t|]; simpl; [|reflexivity].
  f_equal. lia.
Qed.

Lemma merged_on_commute ks1 ks2 f1 f2 b :
  merged_on ks2 f2 (merged_on ks1 f1 b) = merged_on ks1 f1 (merged_on ks2 f2 b).
Proof.
  unfold merged_on, with_tables. simpl.
  f_equal; apply foldl_commute; intros;
    first [apply merge_table_commute | apply merge_count_commute].
Qed.

(** C7: for a benchmark with tables of the constructor's shape and two frame
    statistics of that shape, merging the first then the second and merging
    the second then the first both return, and return the same benchmark:
    the same tp, fp, fn, ground-truth and detection totals for every class
    and level. *)
Theorem add_stats_commutes (b : ObjectBenchmark) (f1 f2 : FrameStats) :
  well_shaped b ->
  stats_shaped (_classes b) (_pr_nsamples b) f1 ->
  stats_shaped (_classes b) (_pr_nsamples b) f2 ->
  exists b12,
    (b1 ← add_stats f1 b; add_stats f2 b1) = Ok b12 /\
    (b2 ← add_stats f2 b; add_stats f1 b2) = Ok b12.
Proof.
  intros Hb Hf1 Hf2.
  exists (merged_on (_classes b) f2 (merged_on (_classes b) f1 b)).
  rewrite (add_stats_merged f1 b Hb Hf1), (add_stats_merged f2 b Hb Hf2).
  simpl. split.
  - apply (add_stats_merged f2 (merged_on (_classes b) f1 b)).
    + apply merged_on_well_shaped; assumption.
    + exact Hf2.
  - rewrite merged_on_commute.
    apply (add_stats_merged f1 (merged_on (_classes b) f2 b)).
    + apply merged_on_well_shaped; assumption.
    + exact Hf1.
Qed.

(** ** The scan of the detections *)

Section Scan.

Variable self : ObjectBenchmark.
Variable iou : nat -> nat -> Q.
Variable dt_boxes : list ObjectTarget3D.

(** What a successful scan has done: either no detection of the order is
    acceptable and nothing changed, or the first acceptable detection was
    assigned at the levels below its own ladder index. *)
Lemma scan_spec order gt_idx gt_tag da ga da' ga' :
  scan self iou dt_boxes order gt_idx gt_tag da ga = Ok (da', ga') ->
  (da' = da /\ ga' = ga /\
   forall d, d ∈ order -> ~ acceptable self iou dt_boxes gt_idx gt_tag d)
  \/
  (exists d,
     first_acceptable self iou dt_boxes order gt_idx gt_tag d /\
     assign_box (seq 0 (thres_loc_of self dt_boxes d)) gt_idx d da ga
     = Ok (da', ga')).
Proof.
  induction order as [|d order IH]; simpl; intros Hscan.
  - injection Hscan as <- <-. left. repeat split.
    intros d Hd. apply elem_of_nil in Hd. contradiction.
  - unfold getitem in Hscan.
    destruct (dt_boxes !! d) as [box|] eqn:Hbox; [|discriminate].
    simpl in Hscan.
    assert (Hskip :
      ~ acceptable self iou dt_boxes gt_idx gt_tag d ->
      scan self iou dt_boxes order gt_idx gt_tag da ga = Ok (da', ga') ->
      (da' = da /\ ga' = ga /\
       forall d0, d0 ∈ d :: order ->
                  ~ acceptable self iou dt_boxes gt_idx gt_tag d0)
      \/
      (exists d0,
         first_acceptable self iou dt_boxes (d :: order) gt_idx gt_tag d0 /\
         assign_box (seq 0 (thres_loc_of self dt_boxes d0)) gt_idx d0 da ga
         = Ok (da', ga'))).
    { intros Hnot Hrest. destruct (IH Hrest) as [(-> & -> & Hnone)|(d0 & Hfirst & Hassign)].
      - left. repeat split. intros d0 Hd0.
        apply elem_of_cons in Hd0 as [->|Hd0]; auto.
      - right. exists d0. split; [|assumption].
        destruct Hfirst as (pre & post & -> & Hpre & Hacc).
        exists (d :: pre), post. repeat split; [|assumption].
        intros d1 Hd1. apply elem_of_cons in Hd1 as [->|Hd1]; auto. }
    destruct (decide (tag_top box ≠ gt_tag)) as [Hne|Heq].
    + apply Hskip; [|assumption].
      intros (box' & t & Hb & Htag & _). congruence.
    + apply dec_stable in Heq.
      unfold dict_get in Hscan.
      destruct (_min_overlaps self !! gt_tag) as [t|] eqn:Ht; [|discriminate].
      simpl in Hscan.
      destruct (Qltb t (iou gt_idx d)) eqn:Hlt.
      * rewrite thres_loc_nonneg, Nat2Z.id in Hscan.
        right. exists d. split.
        -- exists [], order. repeat split.
           ++ intros d0 Hd0. apply elem_of_nil in Hd0. contradiction.
           ++ exists box, t. repeat split; try assumption.
              apply Qltb_lt. assumption.
        -- unfold thres_loc_of. rewrite Hbox. assumption.
      * apply Hskip; [|assumption].
        intros (box' & t' & Hb & _ & Ht' & Hlt').
        assert (t' = t) as -> by congruence.
        apply Qltb_lt in Hlt'. congruence.
Qed.

End Scan.

(** ** The assignment of one pair *)

Lemma not_is_Some_None {A} (o : option A) : ~ is_Some o -> o = None.
Proof. destruct o; [intros H; exfalso; apply H; eauto | reflexivity]. Qed.

Lemma assign_box_spec levels g d (da ga da' ga' : list (gmap nat nat)) :
  assign_box levels g d da ga = Ok (da', ga') ->
  length da = length ga ->
  length da' = length da /\ length ga' = length ga /\
  (forall i, i ∈ levels -> i < length da) /\
  (forall i m, da !! i = Some m ->
     da' !! i = Some (if decide (i ∈ levels /\ m !! d = None)
                      then <[d := g]> m else m)) /\
  (forall i m mg, da !! i = Some m -> ga !! i = Some mg ->
     ga' !! i = Some (if decide (i ∈ levels /\ m !! d = None)
                      then <[g := d]> mg else mg)).
Proof.
  revert da ga; induction levels as [|i0 levels IH]; intros da ga Hrun Hlen;
    simpl in Hrun.
  - injection Hrun as <- <-.
    refine (conj _ (conj _ (conj _ (conj _ _)))); try reflexivity.
    + intros i Hi. apply elem_of_nil in Hi. contradiction.
    + intros i m Hm. rewrite decide_False; [assumption|].
      intros [Hi _]. apply elem_of_nil in Hi. contradiction.
    + intros i m mg Hm Hmg. rewrite decide_False; [assumption|].
      intros [Hi _]. apply elem_of_nil in Hi. contradiction.
  - unfold getitem in Hrun.
    destruct (da !! i0) as [m0|] eqn:Hm0; [|discriminate]. simpl in Hrun.
    assert (Hi0 : i0 < length da) by (eapply lookup_lt_Some; eassumption).
    destruct (decide (is_Some (m0 !! d))) as [Hin|Hout].
    + destruct (IH _ _ Hrun Hlen) as (L1 & L2 & Hlv & Hda & Hga).
      assert (Hsame : forall i m, da !! i = Some m ->
                (i ∈ i0 :: levels /\ m !! d = None) <->
                (i ∈ levels /\ m !! d = None)).
      { intros i m Hm. split; intros [Hi Hnone]; split; try assumption.
        - apply elem_of_cons in Hi as [->|Hi]; [|assumption].
          rewrite Hm0 in Hm. injection Hm as ->.
          rewrite Hnone in Hin. destruct Hin; discriminate.
        - right; assumption. }
      refine (conj L1 (conj L2 (conj _ (conj _ _)))).
      * intros i Hi. apply elem_of_cons in Hi as [->|Hi]; auto.
      * intros i m Hm. rewrite (Hda i m Hm). f_equal.
        apply decide_ext. symmetry. apply Hsame. assumption.
      * intros i m mg Hm Hmg. rewrite (Hga i m mg Hm Hmg). f_equal.
        apply decide_ext. symmetry. apply Hsame. assumption.
    + apply not_is_Some_None in Hout.
      destruct (ga !! i0) as [g0|] eqn:Hg0; [|discriminate]. simpl in Hrun.
      apply IH in Hrun; [|rewrite !length_insert; assumption].
      destruct Hrun as (L1 & L2 & Hlv & Hda & Hga).
      rewrite !length_insert in *.
      assert (Hsame : forall i (m : gmap nat nat), i <> i0 ->
                (i ∈ i0 :: levels /\ m !! d = None) <->
                (i ∈ levels /\ m !! d = None)).
      { intros i m Hne. split; intros [Hi Hnone]; split; try assumption.
        - apply elem_of_cons in Hi as [->|Hi]; [congruence|assumption].
        - right; assumption. }
      refine (conj L1 (conj L2 (conj _ (conj _ _)))).
      * intros i Hi. apply elem_of_cons in Hi as [->|Hi]; auto.
      * intros i m Hm. destruct (decide (i = i0)) as [->|Hne].
        -- rewrite Hm0 in Hm. injection Hm as <-.
           rewrite (Hda i0 (<[d := g]> m0))
             by (apply list_lookup_insert_eq; assumption).
           f_equal. rewrite decide_False
             by (intros [_ Hx]; rewrite lookup_insert_eq in Hx; discriminate).
           rewrite decide_True by (split; [left|assumption]). reflexivity.
        -- rewrite (Hda i m) by (rewrite list_lookup_insert_ne; auto).
           f_equal. apply decide_ext. symmetry. apply Hsame. assumption.
      * intros i m mg Hm Hmg. destruct (decide (i = i0)) as [->|Hne].
        -- rewrite Hm0 in Hm. injection Hm as <-.
           rewrite Hg0 in Hmg. injection Hmg as <-.
           rewrite (Hga i0 (<[d := g]> m0) (<[g := d]> g0));
             [| apply list_lookup_insert_eq; assumption
              | apply list_lookup_insert_eq; lia].
           f_equal. rewrite decide_False
             by (intros [_ Hx]; rewrite lookup_insert_eq in Hx; discriminate).
           rewrite decide_True by (split; [left|assumption]). reflexivity.
        -- rewrite (Hga i m mg)
             by (rewrite list_lookup_insert_ne; auto).
           f_equal. apply decide_ext. symmetry. apply Hsame. assumption.
Qed.

(** ** The counting loops *)

Lemma bump_lookup p j (l : list nat) i :
  bump p j l !! i
  = (fun x => if (i <? j)%nat && p i then x + 1 else x) <$> l !! i.
Proof. unfold bump. apply list_lookup_imap. Qed.

Lemma bump_length p j (l : list nat) : length (bump p j l) = length l.
Proof. unfold bump. apply length_imap. Qed.

Lemma bump_0 p (l : list nat) : bump p 0 l = l.
Proof.
  apply list_eq. intros i. rewrite bump_lookup.
  destruct (l !! i); reflexivity.
Qed.

Lemma bump_at p j (l : list nat) : bump p j l !! j = l !! j.
Proof.
  rewrite bump_lookup. rewrite Nat.ltb_irrefl. simpl.
  destruct (l !! j); reflexivity.
Qed.

Lemma bump_step_true p j (l : list nat) x :
  p j = true -> l !! j = Some x ->
  <[j := x + 1]> (bump p j l) = bump p (S j) l.
Proof.
  intros Hp Hx. apply list_eq. intros i.
  destruct (decide (i = j)) as [->|Hne].
  - rewrite list_lookup_insert_eq
      by (rewrite bump_length; eapply lookup_lt_Some; eassumption).
    rewrite bump_lookup, Hx, Hp.
    replace (j <? S j)%nat with true by (symmetry; apply Nat.ltb_lt; lia).
    reflexivity.
  - rewrite list_lookup_insert_ne by congruence.
    rewrite !bump_lookup. destruct (l !! i) as [y|]; [|reflexivity]. simpl.
    destruct (Nat.ltb_spec i j), (Nat.ltb_spec i (S j)); try reflexivity; lia.
Qed.

Lemma bump_step_false p j (l : list nat) :
  p j = false -> bump p (S j) l = bump p j l.
Proof.
  intros Hp. apply list_eq. intros i. rewrite !bump_lookup.
  destruct (l !! i) as [y|]; [|reflexivity]. simpl.
  destruct (decide (i = j)) as [->|Hne].
  - rewrite Hp, !andb_false_r. reflexivity.
  - destruct (Nat.ltb_spec i j), (Nat.ltb_spec i (S j)); try reflexivity; lia.
Qed.

Lemma set_counts_id (s : locals) : set_counts s (l_tp s) (l_fn s) = s.
Proof. destruct s; reflexivity. Qed.

(** The loop of lines 95-99 after [j] rounds: the true positives are bumped
    at the levels where the ground truth is assigned, the false negatives at
    the others. *)
Lemma count_gt_run g tag (s : locals) (ltp lfn : list nat) (j : nat) :
  l_tp s !! tag = Some ltp -> l_fn s !! tag = Some lfn ->
  j <= length ltp -> j <= length lfn -> j <= length (gt_assignment s) ->
  for_each (seq 0 j) (count_gt g tag) s
  = Ok (set_counts s
          (<[tag := bump (assigned (gt_assignment s) g) j ltp]> (l_tp s))
          (<[tag := bump (fun i => negb (assigned (gt_assignment s) g i)) j lfn]>
             (l_fn s))).
Proof.
  intros Htp Hfn. induction j as [|j IH]; intros H1 H2 H3.
  - simpl. rewrite !bump_0, !insert_id by assumption.
    rewrite set_counts_id. reflexivity.
  - rewrite seq_S, for_each_app, IH by lia. simpl.
    destruct (lookup_lt_is_Some_2 ltp j) as [x Hx]; [lia|].
    destruct (lookup_lt_is_Some_2 lfn j) as [y Hy]; [lia|].
    destruct (lookup_lt_is_Some_2 (gt_assignment s) j) as [m Hm]; [lia|].
    unfold count_gt, getitem. simpl. rewrite Hm. simpl.
    assert (Hasg : assigned (gt_assignment s) g j
                   = bool_decide (is_Some (m !! g))).
    { unfold assigned. rewrite Hm. reflexivity. }
    unfold add_at, dict_get, getitem.
    destruct (decide (is_Some (m !! g))) as [Hin|Hout].
    + rewrite lookup_insert_eq. simpl. rewrite bump_at, Hx. simpl.
      unfold set_counts. simpl. rewrite insert_insert_eq.
      rewrite (bump_step_true _ j ltp x)
        by (rewrite ?Hasg, ?bool_decide_eq_true; assumption).
      rewrite (bump_step_false (fun i => negb (assigned (gt_assignment s) g i)))
        by (rewrite Hasg, bool_decide_eq_true_2 by assumption; reflexivity).
      reflexivity.
    + rewrite lookup_insert_eq. simpl. rewrite bump_at, Hy. simpl.
      unfold set_counts. simpl. rewrite insert_insert_eq.
      rewrite (bump_step_true (fun i => negb (assigned (gt_assignment s) g i))
                 j lfn y)
        by (rewrite ?Hasg, ?bool_decide_eq_false_2 by assumption;
            reflexivity || assumption).
      rewrite (bump_step_false (assigned (gt_assignment s) g))
        by (rewrite Hasg, bool_decide_eq_false_2 by assumption; reflexivity).
      reflexivity.
Qed.

(** ** Who is assigned after one pair has been assigned *)

Lemma assigned_true (a : list (gmap nat nat)) x i :
  assigned a x i = true <-> exists m, a !! i = Some m /\ is_Some (m !! x).
Proof.
  unfold assigned. destruct (a !! i) as [m|].
  - rewrite bool_decide_eq_true. split; [eauto|].
    intros (m' & [= <-] & H). assumption.
  - split; [discriminate|]. intros (m' & [=] & _).
Qed.

Lemma assigned_lt (a : list (gmap nat nat)) x i :
  assigned a x i = true -> i < length a.
Proof.
  rewrite assigned_true. intros (m & Hm & _).
  eapply lookup_lt_Some; eassumption.
Qed.

Lemma assign_box_assigned levels g d (da ga da' ga' : list (gmap nat nat)) :
  assign_box levels g d da ga = Ok (da', ga') ->
  length da = length ga ->
  (forall x i, assigned da' x i = true <->
     assigned da x i = true \/
     (x = d /\ i ∈ levels /\ assigned da d i = false)) /\
  (forall x i, assigned ga' x i = true <->
     assigned ga x i = true \/
     (x = g /\ i ∈ levels /\ assigned da d i = false)).
Proof.
  intros Hrun Hlen.
  destruct (assign_box_spec _ _ _ _ _ _ _ Hrun Hlen)
    as (L1 & L2 & Hlv & Hda & Hga).
  assert (Hcase : forall i (m : gmap nat nat), da !! i = Some m ->
            (i ∈ levels /\ m !! d = None) <->
            (i ∈ levels /\ assigned da d i = false)).
  { intros i m Hm. unfold assigned. rewrite Hm, bool_decide_eq_false.
    split; intros [Hi Hd]; split; try assumption.
    - rewrite Hd. intros [? ?]; discriminate.
    - apply not_is_Some_None. assumption. }
  split; intros x i.
  - destruct (da !! i) as [m|] eqn:Hm.
    + pose proof (Hcase i m Hm) as Hc.
      unfold assigned at 1 2. rewrite (Hda i m Hm), Hm.
      rewrite !bool_decide_eq_true.
      destruct (decide (i ∈ levels /\ m !! d = None)) as [Hyes|Hno].
      * rewrite lookup_insert. destruct (decide (d = x)) as [->|Hne].
        -- split; [|eauto]. intros _. right. split; [reflexivity|].
           apply Hc. assumption.
        -- split; [auto|]. intros [H|(-> & _)]; [assumption|congruence].
      * split; [auto|]. intros [H|(-> & H)]; [assumption|].
        exfalso. apply Hno. apply Hc. assumption.
    + assert (da' !! i = None) as Hm'.
      { apply lookup_ge_None. rewrite L1. apply lookup_ge_None. assumption. }
      unfold assigned at 1 2. rewrite Hm, Hm'.
      split; [discriminate|]. intros [H|(_ & Hi & _)]; [discriminate|].
      apply Hlv in Hi. apply lookup_ge_None in Hm. lia.
  - destruct (da !! i) as [m|] eqn:Hm.
    + pose proof (Hcase i m Hm) as Hc.
      destruct (lookup_lt_is_Some_2 ga i) as [mg Hmg].
      { rewrite <- Hlen. eapply lookup_lt_Some; eassumption. }
      unfold assigned at 1 2. rewrite (Hga i m mg Hm Hmg), Hmg.
      rewrite !bool_decide_eq_true.
      destruct (decide (i ∈ levels /\ m !! d = None)) as [Hyes|Hno].
      * rewrite lookup_insert. destruct (decide (g = x)) as [->|Hne].
        -- split; [|eauto]. intros _. right. split; [reflexivity|].
           apply Hc. assumption.
        -- split; [auto|]. intros [H|(-> & _)]; [assumption|congruence].
      * split; [auto|]. intros [H|(-> & H)]; [assumption|].
        exfalso. apply Hno. apply Hc. assumption.
    + assert (ga' !! i = None) as Hm'.
      { apply lookup_ge_None. rewrite L2, <- Hlen.
        apply lookup_ge_None. assumption. }
      assert (ga !! i = None) as Hmg.
      { apply lookup_ge_None. rewrite <- Hlen.
        apply lookup_ge_None. assumption. }
      unfold assigned at 1 2. rewrite Hmg, Hm'.
      split; [discriminate|]. intros [H|(_ & Hi & _)]; [discriminate|].
      apply Hlv in Hi. apply lookup_ge_None in Hm. lia.
Qed.

(** Every value stored by an assignment is the assigned pair. *)
Lemma assign_box_values levels g d (da ga da' ga' : list (gmap nat nat)) :
  assign_box levels g d da ga = Ok (da', ga') ->
  length da = length ga ->
  forall i m' x y,
    ga' !! i = Some m' -> m' !! x = Some y ->
    (exists m, ga !! i = Some m /\ m !! x = Some y) \/ (x = g /\ y = d).
Proof.
  intros Hrun Hlen i m' x y Hm' Hxy.
  destruct (assign_box_spec _ _ _ _ _ _ _ Hrun Hlen)
    as (L1 & L2 & Hlv & Hda & Hga).
  destruct (lookup_lt_is_Some_2 ga i) as [mg Hmg].
  { rewrite <- L2. eapply lookup_lt_Some; eassumption. }
  destruct (lookup_lt_is_Some_2 da i) as [m Hm].
  { rewrite Hlen. eapply lookup_lt_Some; eassumption. }
  rewrite (Hga i m mg Hm Hmg) in Hm'. injection Hm' as <-.
  destruct (decide (i ∈ levels /\ m !! d = None)) as [Hyes|Hno].
  - rewrite lookup_insert in Hxy. destruct (decide (g = x)) as [->|Hne].
    + injection Hxy as <-. right. auto.
    + left. eauto.
  - left. eauto.
Qed.

(** ** Shapes *)

Lemma foldl_insert_lookup {V} (ks : list nat) (v : V) (acc : gmap nat V) k :
  foldl (fun d j => <[j := v]> d) acc ks !! k
  = if decide (k ∈ ks) then Some v else acc !! k.
Proof.
  revert acc; induction ks as [|j ks IH]; intros acc.
  - rewrite decide_False; [reflexivity|]. apply not_elem_of_nil.
  - cbn [foldl]. rewrite IH. destruct (decide (k ∈ ks)) as [Hin|Hout].
    + rewrite decide_True by (right; assumption). reflexivity.
    + rewrite lookup_insert. destruct (decide (j = k)) as [->|Hne].
      * rewrite decide_True by left. reflexivity.
      * rewrite decide_False; [reflexivity|].
        intros H. apply elem_of_cons in H as [->|H]; congruence.
Qed.

Lemma dict_fromkeys_lookup {V} (ks : list nat) (v : V) k :
  dict_fromkeys ks v !! k = if decide (k ∈ ks) then Some v else None.
Proof. unfold dict_fromkeys. rewrite foldl_insert_lookup, lookup_empty. reflexivity. Qed.

Lemma keyed_fromkeys {V} (cls : list nat) (v : V) k :
  k ∈ cls <-> is_Some (dict_fromkeys cls v !! k).
Proof.
  rewrite dict_fromkeys_lookup. destruct (decide (k ∈ cls)); split; eauto.
  - contradiction.
  - intros [? ?]; discriminate.
Qed.

Lemma shaped_fromkeys cls n :
  shaped cls n (dict_fromkeys cls (replicate n 0)).
Proof.
  split.
  - intros k. apply keyed_fromkeys.
  - intros k l. rewrite dict_fromkeys_lookup.
    destruct (decide (k ∈ cls)); [|discriminate].
    intros [= <-]. apply length_replicate.
Qed.

Lemma init_well_shaped geomspace py_int classes min_overlaps n min_score scale b :
  init geomspace py_int classes min_overlaps n min_score scale = Ok b ->
  well_shaped b.
Proof.
  unfold init. intros H. inv_bind H. inv_bind H. injection H as <-.
  unfold well_shaped. simpl.
  split; [|split; [|split; [|split]]]; try apply shaped_fromkeys.
  intros k. apply keyed_fromkeys.
Qed.

Lemma fresh_locals_shaped self : locals_shaped self (fresh_locals self).
Proof.
  unfold locals_shaped, fresh_locals. simpl.
  split; [|split; [|split; [|split; [|split; [|split]]]]];
    try apply shaped_fromkeys; try apply length_replicate.
  intros k. apply keyed_fromkeys.
Qed.

Lemma add_at_shaped cls n (d d' : gmap nat (list nat)) k i x :
  shaped cls n d -> add_at d k i x = Ok d' -> shaped cls n d'.
Proof.
  intros [Hkeys Hlen] Hrun. unfold add_at, dict_get, getitem in Hrun.
  destruct (d !! k) as [l|] eqn:Hl; [|discriminate]. simpl in Hrun.
  destruct (l !! i) as [y|]; [|discriminate]. injection Hrun as <-.
  split.
  - intros j. rewrite lookup_insert. destruct (decide (k = j)) as [->|Hne].
    + rewrite Hkeys, Hl. split; eauto.
    + apply Hkeys.
  - intros j l'. rewrite lookup_insert. destruct (decide (k = j)) as [->|Hne].
    + intros [= <-]. rewrite length_insert. eapply Hlen; eassumption.
    + apply Hlen.
Qed.

Lemma scan_lengths self iou dt_boxes order g tag
    (da ga da' ga' : list (gmap nat nat)) :
  scan self iou dt_boxes order g tag da ga = Ok (da', ga') ->
  length da = length ga ->
  length da' = length da /\ length ga' = length ga.
Proof.
  intros Hscan Hlen.
  destruct (scan_spec _ _ _ _ _ _ _ _ _ _ Hscan)
    as [(-> & -> & _)|(d & _ & Hassign)]; [auto|].
  destruct (assign_box_spec _ _ _ _ _ _ _ Hassign Hlen) as (L1 & L2 & _).
  auto.
Qed.

(** ** One ground truth *)

(** What a successful round of the loop over the ground truths has done. *)
Lemma gt_body_spec self iou gt_boxes dt_boxes order g (s s' : locals) :
  locals_shaped self s ->
  gt_body self iou gt_boxes dt_boxes order g s = Ok s' ->
  s' = s \/
  exists box da' ga' ltp lfn n,
    gt_boxes !! g = Some box /\
    tag_top box ∈ _classes self /\
    scan self iou dt_boxes order g (tag_top box)
      (dt_assignment s) (gt_assignment s) = Ok (da', ga') /\
    length da' = _pr_nsamples self /\
    length ga' = _pr_nsamples self /\
    l_tp s !! tag_top box = Some ltp /\
    l_fn s !! tag_top box = Some lfn /\
    l_ngt s !! tag_top box = Some n /\
    length ltp = _pr_nsamples self /\
    length lfn = _pr_nsamples self /\
    s' = {| l_tp := <[tag_top box :=
                        bump (assigned ga' g) (_pr_nsamples self) ltp]> (l_tp s);
            l_fp := l_fp s;
            l_fn := <[tag_top box :=
                        bump (fun i => negb (assigned ga' g i))
                          (_pr_nsamples self) lfn]> (l_fn s);
            l_ngt := <[tag_top box := n + 1]> (l_ngt s);
            l_ndt := l_ndt s;
            dt_assignment := da';
            gt_assignment := ga' |}.
Proof.
  intros (Htp & Hfp & Hfn & Hngt & Hndt & Lda & Lga) Hrun.
  unfold gt_body, getitem in Hrun.
  destruct (gt_boxes !! g) as [box|] eqn:Hbox; [|discriminate].
  simpl in Hrun.
  destruct (decide (tag_top box ∈ _classes self)) as [Hcls|Hcls];
    [|left; congruence].
  right. inv_bind Hrun. destruct a as [da' ga']. inv_bind Hrun.
  unfold dict_get in E0.
  destruct (l_ngt s !! tag_top box) as [n|] eqn:Hn; [|discriminate].
  injection E0 as <-.
  destruct (scan_lengths _ _ _ _ _ _ _ _ _ _ E) as [L1 L2]; [congruence|].
  destruct (shaped_lookup _ _ _ _ Htp Hcls) as (ltp & Hltp & Lltp).
  destruct (shaped_lookup _ _ _ _ Hfn Hcls) as (lfn & Hlfn & Llfn).
  rewrite (count_gt_run g (tag_top box) _ ltp lfn) in Hrun;
    simpl; try assumption; try lia.
  injection Hrun as <-.
  exists box, da', ga', ltp, lfn, n.
  repeat (split; [first [assumption | reflexivity | congruence]|]).
  reflexivity.
Qed.

(** ** The effect of one scan on the assignments *)

Lemma scan_effect self iou dt_boxes order g tag
    (da ga da' ga' : list (gmap nat nat)) :
  scan self iou dt_boxes order g tag da ga = Ok (da', ga') ->
  length da = length ga ->
  da_inv self dt_boxes da ->
  (forall i, assigned ga g i = false) ->
  da_inv self dt_boxes da' /\
  (forall x i, assigned ga' x i = true -> assigned ga x i = true \/ x = g) /\
  (exists c, forall i, assigned ga' g i = true <-> i < c) /\
  (forall i m' x y, ga' !! i = Some m' -> m' !! x = Some y ->
     (exists m, ga !! i = Some m /\ m !! x = Some y) \/
     (x = g /\ first_acceptable self iou dt_boxes order g tag y)).
Proof.
  intros Hscan Hlen Hda Hfresh.
  destruct (scan_spec _ _ _ _ _ _ _ _ _ _ Hscan)
    as [(-> & -> & _)|(d & Hfirst & Hassign)].
  { split; [assumption|]. split; [auto|]. split.
    - exists 0. intros i. rewrite Hfresh. split; [discriminate|lia].
    - intros i m' x y Hm Hxy. left. eauto. }
  destruct (assign_box_assigned _ _ _ _ _ _ _ Hassign Hlen) as [Ha Hb].
  pose proof (assign_box_values _ _ _ _ _ _ _ Hassign Hlen) as Hval.
  set (t := thres_loc_of self dt_boxes d) in *.
  assert (Hseq : forall i, i ∈ seq 0 t <-> i < t).
  { intros i. rewrite elem_of_seq. lia. }
  split; [|split; [|split]].
  - (* the assignments of the detections *)
    intros x i Hx. apply Ha in Hx.
    destruct (decide (x = d)) as [->|Hne].
    + fold t. destruct (assigned da d 0) eqn:E0.
      * destruct (Hda d 0 E0) as [_ Hall]. fold t in Hall.
        destruct Hx as [Hx|(_ & Hi & Hno)].
        -- split; [apply (Hda d i Hx)|].
           intros i' Hi'. apply Ha. left. apply Hall. assumption.
        -- apply Hseq in Hi. rewrite (Hall i Hi) in Hno. discriminate.
      * assert (Hnone : forall i0, assigned da d i0 = false).
        { intros i0. destruct (assigned da d i0) eqn:E; [|reflexivity].
          destruct (Hda d i0 E) as [Hlt Hall]. fold t in Hlt, Hall.
          rewrite Hall in E0 by lia. discriminate. }
        destruct Hx as [Hx|(_ & Hi & _)]; [rewrite Hnone in Hx; discriminate|].
        apply Hseq in Hi. split; [assumption|].
        intros i' Hi'. apply Ha. right.
        split; [reflexivity|]. split; [apply Hseq; assumption | apply Hnone].
    + destruct Hx as [Hx|(-> & _)]; [|congruence].
      destruct (Hda x i Hx) as [Hlt Hall]. split; [assumption|].
      intros i' Hi'. apply Ha. left. apply Hall. assumption.
  - (* who is assigned among the ground truths *)
    intros x i Hx. apply Hb in Hx. destruct Hx as [Hx|(-> & _)]; auto.
  - (* the levels of this ground truth *)
    destruct (assigned da d 0) eqn:E0.
    + destruct (Hda d 0 E0) as [_ Hall]. fold t in Hall.
      exists 0. intros i. rewrite Hb, Hfresh. split; [|lia].
      intros [H|(_ & Hi & Hno)]; [discriminate|].
      apply Hseq in Hi. rewrite (Hall i Hi) in Hno. discriminate.
    + assert (Hnone : forall i0, assigned da d i0 = false).
      { intros i0. destruct (assigned da d i0) eqn:E; [|reflexivity].
        destruct (Hda d i0 E) as [Hlt Hall]. fold t in Hlt, Hall.
        rewrite Hall in E0 by lia. discriminate. }
      exists t. intros i. rewrite Hb, Hfresh. split.
      * intros [H|(_ & Hi & _)]; [discriminate|]. apply Hseq. assumption.
      * intros Hi. right. split; [reflexivity|].
        split; [apply Hseq; assumption | apply Hnone].
  - (* the values *)
    intros i m' x y Hm Hxy.
    destruct (Hval i m' x y Hm Hxy) as [H|[-> ->]]; [left; assumption|].
    right. auto.
Qed.

(** ** The invariant of the loop over the ground truths *)

Lemma shaped_insert cls n (d : gmap nat (list nat)) k l l' :
  shaped cls n d -> d !! k = Some l -> length l' = n ->
  shaped cls n (<[k := l']> d).
Proof.
  intros [Hkeys Hlen] Hl Hl'. split.
  - intros j. rewrite lookup_insert. destruct (decide (k = j)) as [->|Hne].
    + rewrite Hkeys, Hl. split; eauto.
    + apply Hkeys.
  - intros j l0. rewrite lookup_insert. destruct (decide (k = j)) as [->|Hne].
    + intros [= <-]. assumption.
    + apply Hlen.
Qed.

Lemma keyed_insert cls (d : gmap nat nat) k v v' :
  keyed cls d -> d !! k = Some v -> keyed cls (<[k := v']> d).
Proof.
  intros Hkeys Hv j. unfold keyed in Hkeys. rewrite lookup_insert.
  destruct (decide (k = j)) as [->|Hne]; [|apply Hkeys].
  rewrite Hkeys, Hv. split; eauto.
Qed.

Lemma for_each_seq_inv {St} (P : nat -> St -> Prop)
    (f : nat -> St -> result St) (n : nat) (s s' : St) :
  (forall j a a', j < n -> P j a -> f j a = Ok a' -> P (S j) a') ->
  P 0 s -> for_each (seq 0 n) f s = Ok s' -> P n s'.
Proof.
  intros Hstep.
  assert (Hgen : forall m start a a',
            start + m <= n -> P start a ->
            for_each (seq start m) f a = Ok a' -> P (start + m) a').
  { induction m as [|m IH]; intros start a a' Hle Ha Hrun; simpl in Hrun.
    - injection Hrun as <-. rewrite Nat.add_0_r. assumption.
    - inv_bind Hrun. replace (start + S m) with (S start + m) by lia.
      apply (IH (S start) a0); [lia| |assumption].
      apply (Hstep start a); [lia|assumption|assumption]. }
  intros Hs Hrun. apply (Hgen n 0 s s'); [lia|assumption|assumption].
Qed.

Lemma gt_body_inv self iou gt_boxes dt_boxes order j (s s' : locals) :
  gt_inv self iou gt_boxes dt_boxes order j s ->
  gt_body self iou gt_boxes dt_boxes order j s = Ok s' ->
  gt_inv self iou gt_boxes dt_boxes order (S j) s'.
Proof.
  intros (Hsh & Hcnt & Hda & Hfresh & Hga) Hrun.
  destruct (gt_body_spec _ _ _ _ _ _ _ _ Hsh Hrun)
    as [->|(box & da' & ga' & ltp & lfn & n & Hbox & Hcls & Hscan & L1 & L2
            & Hltp & Hlfn & Hn & Lt & Lf & ->)].
  { repeat (split; [assumption|]). split; [|assumption].
    intros g i H. apply Hfresh in H. lia. }
  destruct Hsh as (Htp & Hfp & Hfn & Hngt & Hndt & Lda & Lga).
  assert (Hnew : forall i, assigned (gt_assignment s) j i = false).
  { intros i. destruct (assigned (gt_assignment s) j i) eqn:E; [|reflexivity].
    apply Hfresh in E. lia. }
  destruct (scan_effect _ _ _ _ _ _ _ _ _ _ Hscan) as (Hda' & Hwho & [c Hc] & Hval);
    [congruence|assumption|assumption|].
  split; [|split; [|split; [|split]]]; simpl.
  - (* shapes *)
    split; [|split; [|split; [|split; [|split; [|split]]]]]; simpl;
      try assumption.
    + eapply shaped_insert; [eassumption|eassumption|].
      rewrite bump_length. assumption.
    + eapply shaped_insert; [eassumption|eassumption|].
      rewrite bump_length. assumption.
    + eapply keyed_insert; eassumption.
  - (* counts *)
    intros k ltp' lfn' n'. rewrite !lookup_insert.
    destruct (decide (tag_top box = k)) as [<-|Hne]; [|apply Hcnt].
    intros [= <-] [= <-] [= <-].
    destruct (Hcnt _ _ _ _ Hltp Hlfn Hn) as [Hbal Hdesc].
    split.
    + intros i t f. rewrite !bump_lookup.
      destruct (ltp !! i) as [t0|] eqn:Et; [|discriminate].
      destruct (lfn !! i) as [f0|] eqn:Ef; [|discriminate].
      simpl. intros [= <-] [= <-].
      assert (i < _pr_nsamples self) as Hi
          by (rewrite <- Lt; eapply lookup_lt_Some; eassumption).
      apply Nat.ltb_lt in Hi. rewrite Hi. simpl.
      specialize (Hbal i t0 f0 Et Ef).
      destruct (assigned ga' j i); simpl; lia.
    + intros i t t'. rewrite !bump_lookup.
      destruct (ltp !! i) as [t0|] eqn:Et; [|discriminate].
      destruct (ltp !! S i) as [t1|] eqn:Et1; [|discriminate].
      simpl. intros [= <-] [= <-].
      specialize (Hdesc i t0 t1 Et Et1).
      assert (i < _pr_nsamples self) as Hi
          by (rewrite <- Lt; eapply lookup_lt_Some; eassumption).
      assert (S i < _pr_nsamples self) as Hi1
          by (rewrite <- Lt; eapply lookup_lt_Some; eassumption).
      apply Nat.ltb_lt in Hi, Hi1. rewrite Hi, Hi1. simpl.
      destruct (assigned ga' j (S i)) eqn:E1.
      * assert (assigned ga' j i = true) as ->; [|lia].
        apply Hc. apply Hc in E1. lia.
      * destruct (assigned ga' j i); lia.
  - assumption.
  - intros g i H. apply Hwho in H as [H| ->]; [|lia].
    apply Hfresh in H. lia.
  - intros i m g d Hm Hgd.
    destruct (Hval i m g d Hm Hgd) as [(m0 & Hm0 & Hgd0)|(-> & Hfirst)].
    + eapply Hga; eassumption.
    + exists box. auto.
Qed.

Lemma fresh_locals_inv self iou gt_boxes dt_boxes order :
  gt_inv self iou gt_boxes dt_boxes order 0 (fresh_locals self).
Proof.
  assert (Hempty : forall x i,
            assigned (replicate (_pr_nsamples self) (∅ : gmap nat nat)) x i
            = false).
  { intros x i. destruct (assigned _ x i) eqn:E; [|reflexivity].
    apply assigned_true in E as (m & Hm & [y Hy]).
    apply lookup_replicate in Hm as [-> _].
    rewrite lookup_empty in Hy. discriminate. }
  split; [apply fresh_locals_shaped|].
  split; [|split; [|split]]; simpl.
  - intros k ltp lfn n. rewrite !dict_fromkeys_lookup.
    destruct (decide (k ∈ _classes self)); [|discriminate].
    intros [= <-] [= <-] [= <-]. split.
    + intros i t f Ht Hf.
      apply lookup_replicate in Ht as [-> _].
      apply lookup_replicate in Hf as [-> _]. reflexivity.
    + intros i t t' Ht Ht'.
      apply lookup_replicate in Ht as [-> _].
      apply lookup_replicate in Ht' as [-> _]. lia.
  - intros d i H. rewrite Hempty in H. discriminate.
  - intros g i H. rewrite Hempty in H. discriminate.
  - intros i m g d Hm Hgd.
    apply lookup_replicate in Hm as [-> _].
    rewrite lookup_empty in Hgd. discriminate.
Qed.

Lemma gt_loop_inv self iou gt_boxes dt_boxes (s : locals) :
  gt_loop self iou gt_boxes dt_boxes = Ok s ->
  gt_inv self iou gt_boxes dt_boxes (dt_order dt_boxes) (length gt_boxes) s.
Proof.
  unfold gt_loop. intros Hrun.
  eapply (for_each_seq_inv
            (gt_inv self iou gt_boxes dt_boxes (dt_order dt_boxes)));
    [|apply fresh_locals_inv|exact Hrun].
  intros j a a' _ Ha Hbody. eapply gt_body_inv; eassumption.
Qed.

(** ** The loop over the detections *)

Lemma count_dt_keeps self d tag i (s0 s s' : locals) :
  locals_shaped self s /\ same_matching s0 s ->
  count_dt d tag i s = Ok s' ->
  locals_shaped self s' /\ same_matching s0 s'.
Proof.
  intros [(Htp & Hfp & Hfn & Hngt & Hndt & Lda & Lga) Hsame] Hrun.
  unfold count_dt in Hrun. inv_bind Hrun. inv_bind Hrun.
  pose proof (add_at_shaped _ _ _ _ _ _ _ Hndt E) as Hndt'.
  destruct (decide (is_Some (a0 !! d))).
  - injection Hrun as <-. split; [|exact Hsame].
    unfold locals_shaped. simpl. auto 10.
  - inv_bind Hrun. injection Hrun as <-.
    pose proof (add_at_shaped _ _ _ _ _ _ _ Hfp E1) as Hfp'.
    split; [|exact Hsame].
    unfold locals_shaped. simpl. auto 10.
Qed.

Lemma dt_body_keeps self dt_boxes d (s0 s s' : locals) :
  locals_shaped self s /\ same_matching s0 s ->
  dt_body self dt_boxes d s = Ok s' ->
  locals_shaped self s' /\ same_matching s0 s'.
Proof.
  intros Hs Hrun. unfold dt_body in Hrun. inv_bind Hrun.
  destruct (decide (tag_top a ∈ _classes self)).
  - eapply (for_each_inv
              (fun x => locals_shaped self x /\ same_matching s0 x));
      [|exact Hs|exact Hrun].
    intros i x x' _ Hx Hstep. eapply count_dt_keeps; eassumption.
  - injection Hrun as <-. assumption.
Qed.

(** The state of the matcher at its return. *)
Lemma get_stats_locals_inv self iou gt_boxes dt_boxes (s : locals) :
  get_stats_locals self iou gt_boxes dt_boxes = Ok s ->
  locals_shaped self s /\
  counts_inv (l_tp s) (l_fn s) (l_ngt s) /\
  ga_inv self iou gt_boxes dt_boxes (dt_order dt_boxes) (gt_assignment s).
Proof.
  unfold get_stats_locals. intros Hrun. inv_bind Hrun.
  destruct (gt_loop_inv _ _ _ _ _ E) as (Hsh & Hcnt & _ & _ & Hga).
  assert (locals_shaped self s /\ same_matching a s) as [Hsh' Hsame].
  { eapply (for_each_inv
              (fun x => locals_shaped self x /\ same_matching a x));
      [|split; [exact Hsh|repeat split]|exact Hrun].
    intros d x x' _ Hx Hstep. eapply dt_body_keeps; eassumption. }
  destruct Hsame as (-> & -> & -> & _ & ->). auto.
Qed.

(** The statistics of a frame have the benchmark's shape, and their counts
    are balanced and descending. *)
Lemma get_stats_inv self iou gt_boxes dt_boxes (f : FrameStats) :
  get_stats self iou gt_boxes dt_boxes = Ok f ->
  stats_shaped (_classes self) (_pr_nsamples self) f /\
  counts_inv (st_tp f) (st_fn f) (st_ngt f).
Proof.
  unfold get_stats. destruct (decide _); [|discriminate].
  intros Hrun. inv_bind Hrun. injection Hrun as <-.
  destruct (get_stats_locals_inv _ _ _ _ _ E)
    as ((Htp & Hfp & Hfn & Hngt & Hndt & _ & _) & Hcnt & _).
  split; [|exact Hcnt]. unfold stats_shaped. simpl. auto 10.
Qed.

(** ** The detection order *)

Section Order.

Variable scores : list Q.

Lemma insert_by_perm x l : insert_by scores x l ≡ₚ x :: l.
Proof.
  induction l as [|j l IH]; simpl; [reflexivity|].
  destruct (Qle_bool _ _); [reflexivity|].
  rewrite IH. apply Permutation_swap.
Qed.

Lemma insert_by_sorted x l :
  StronglySorted (le_score scores) l -> StronglySorted (le_score scores) (insert_by scores x l).
Proof.
  induction l as [|j l IH]; simpl; intros Hl.
  - repeat constructor.
  - apply StronglySorted_cons in Hl as [Hj Hl].
    destruct (Qle_bool (score_at scores x) (score_at scores j)) eqn:E.
    + apply Qle_bool_iff in E.
      apply StronglySorted_cons. split.
      * constructor; [exact E|].
        eapply Forall_impl; [exact Hj|].
        intros y Hy. unfold le_score in *. eapply Qle_trans; eassumption.
      * apply StronglySorted_cons. auto.
    + assert (le_score scores j x) as Hjx.
      { unfold le_score. apply Qlt_le_weak, Qnot_le_lt. intros Hle.
        apply Qle_bool_iff in Hle. congruence. }
      apply StronglySorted_cons. split; [|auto].
      rewrite insert_by_perm. constructor; assumption.
Qed.

Lemma argsort_perm : argsort scores ≡ₚ seq 0 (length scores).
Proof.
  unfold argsort. induction (seq 0 (length scores)) as [|x l IH]; simpl.
  - reflexivity.
  - rewrite insert_by_perm, IH. reflexivity.
Qed.

Lemma argsort_sorted : StronglySorted (le_score scores) (argsort scores).
Proof.
  unfold argsort. induction (seq 0 (length scores)) as [|x l IH]; simpl.
  - constructor.
  - apply insert_by_sorted. exact IH.
Qed.

Lemma rev_argsort_sorted :
  StronglySorted (fun i j => le_score scores j i) (rev (argsort scores)).
Proof.
  induction argsort_sorted as [|x l Hl IH Hx]; simpl.
  - constructor.
  - apply StronglySorted_app_2.
    + intros x1 x2 Hx1 Hx2. apply list_elem_of_singleton in Hx2 as ->.
      rewrite Forall_forall in Hx. apply Hx.
      apply list_elem_of_In, in_rev, list_elem_of_In. exact Hx1.
    + exact IH.
    + repeat constructor.
Qed.

End Order.

(** The detections are scanned best score first. *)
Lemma dt_order_spec (dt_boxes : list ObjectTarget3D) :
  dt_order dt_boxes ≡ₚ seq 0 (length dt_boxes) /\
  StronglySorted (not_worse dt_boxes) (dt_order dt_boxes).
Proof.
  unfold dt_order. split.
  - rewrite reverse_Permutation || rewrite <- Permutation_rev.
    rewrite argsort_perm, length_map. reflexivity.
  - apply rev_argsort_sorted.
Qed.

(** ** The matched detection *)

Lemma first_acceptable_unique self iou dt_boxes order g tag d d' :
  first_acceptable self iou dt_boxes order g tag d ->
  first_acceptable self iou dt_boxes order g tag d' ->
  d = d'.
Proof.
  intros (pre & post & -> & Hpre & Hacc) (pre' & post' & Heq & Hpre' & Hacc').
  revert pre' Heq Hpre'.
  induction pre as [|x pre IH]; intros [|x' pre'] Heq Hpre'; simpl in Heq.
  - congruence.
  - injection Heq as <- _. exfalso. apply (Hpre' d); [left|assumption].
  - injection Heq as -> _. exfalso. apply (Hpre d'); [left|assumption].
  - injection Heq as <- Heq. apply (IH (fun y Hy => Hpre y (list_elem_of_further _ _ _ Hy)) pre' Heq).
    intros y Hy. apply Hpre'. right. assumption.
Qed.

(** C2: at the return of the matcher, whenever a ground truth is assigned a
    detection at some level, its class is tracked and the detection is the
    first one, in the best-score-first order of the detections, that has the
    ground truth's top label and an IoU above the class threshold; the same
    detection is the one assigned at every level where the ground truth is
    assigned. *)
Theorem matched_is_first_acceptable self iou gt_boxes dt_boxes (s : locals) :
  get_stats_locals self iou gt_boxes dt_boxes = Ok s ->
  dt_order dt_boxes ≡ₚ seq 0 (length dt_boxes) /\
  StronglySorted (not_worse dt_boxes) (dt_order dt_boxes) /\
  forall level m g d,
    gt_assignment s !! level = Some m -> m !! g = Some d ->
    (exists box,
       gt_boxes !! g = Some box /\
       tag_top box ∈ _classes self /\
       first_acceptable self iou dt_boxes (dt_order dt_boxes) g
         (tag_top box) d) /\
    (forall level' m' d',
       gt_assignment s !! level' = Some m' -> m' !! g = Some d' -> d' = d).
Proof.
  intros Hrun.
  destruct (dt_order_spec dt_boxes) as [Hperm Hsorted].
  destruct (get_stats_locals_inv _ _ _ _ _ Hrun) as (_ & _ & Hga).
  split; [exact Hperm|]. split; [exact Hsorted|].
  intros level m g d Hm Hgd.
  destruct (Hga level m g d Hm Hgd) as (box & Hbox & Hcls & Hfirst).
  split; [exists box; auto|].
  intros level' m' d' Hm' Hgd'.
  destruct (Hga level' m' g d' Hm' Hgd') as (box' & Hbox' & _ & Hfirst').
  assert (box' = box) as -> by congruence.
  eapply first_acceptable_unique; eassumption.
Qed.

Lemma scenario_init_eq : scenario_init = Ok scenario_benchmark.
Proof. vm_compute. reflexivity. Qed.

Lemma matched_is_first_acceptable_witness :
  exists s,
    get_stats_locals scenario_benchmark (scenario_iou 0 0)
      (boxes scenario_gt) (boxes scenario_dt) = Ok s /\
    forall level m g d,
      gt_assignment s !! level = Some m -> m !! g = Some d ->
      (exists box,
         boxes scenario_gt !! g = Some box /\
         tag_top box ∈ _classes scenario_benchmark /\
         first_acceptable scenario_benchmark (scenario_iou 0 0)
           (boxes scenario_dt) (dt_order (boxes scenario_dt)) g
           (tag_top box) d) /\
      (forall level' m' d',
         gt_assignment s !! level' = Some m' -> m' !! g = Some d' -> d' = d).
Proof.
  eexists. split; [vm_compute; reflexivity|].
  apply (matched_is_first_acceptable scenario_benchmark (scenario_iou 0 0)
           (boxes scenario_gt) (boxes scenario_dt)).
  vm_compute. reflexivity.
Defined.

(** ** Recall along the ladder *)

Lemma Qnat_le (a b : nat) : a <= b -> (Qnat a <= Qnat b)%Q.
Proof. intros H. unfold Qnat. rewrite <- Zle_Qle. lia. Qed.

Lemma Qnat_pos (n : nat) : 0 < n -> (0 < Qnat n)%Q.
Proof.
  intros H. unfold Qnat. change 0%Q with (inject_Z 0). rewrite <- Zlt_Qlt. lia.
Qed.

Lemma Qnat_div_le (a b n : nat) :
  a <= b -> 0 < n -> (Qnat a / Qnat n <= Qnat b / Qnat n)%Q.
Proof.
  intros Hab Hn. unfold Qdiv. apply Qmult_le_compat_r.
  - apply Qnat_le. assumption.
  - apply Qlt_le_weak, Qinv_lt_0_compat, Qnat_pos. assumption.
Qed.

Lemma Qnat_div_le_1 (a n : nat) :
  a <= n -> 0 < n -> (Qnat a / Qnat n <= 1)%Q.
Proof.
  intros Han Hn.
  apply Qle_trans with (Qnat n / Qnat n)%Q; [apply Qnat_div_le; assumption|].
  unfold Qdiv. rewrite Qmult_inv_r; [apply Qle_refl|].
  intros H0. pose proof (Qnat_pos n Hn) as Hpos.
  rewrite H0 in Hpos. apply (Qlt_irrefl 0). assumption.
Qed.

(** With balanced counts, fewer true positives give a smaller ratio. *)
Lemma ratio_eq_mono (t f t' f' n : nat) :
  t + f = n -> t' + f' = n -> t' <= t ->
  (ratio_eq t' f' <= ratio_eq t f)%Q.
Proof.
  intros Hn Hn' Hle. unfold ratio_eq.
  destruct (Nat.eqb_spec f' 0) as [Hf'|Hf'], (Nat.eqb_spec f 0) as [Hf|Hf].
  - apply Qle_refl.
  - lia.
  - apply Qnat_div_le_1; lia.
  - rewrite Hn, Hn'. apply Qnat_div_le; lia.
Qed.

Lemma ratio_list_length la lb j : length (ratio_list la lb j) = j.
Proof. unfold ratio_list. rewrite length_map, length_seq. reflexivity. Qed.

Lemma ratio_list_lookup la lb j i t f :
  la !! i = Some t -> lb !! i = Some f -> i < j ->
  ratio_list la lb j !! i = Some (ratio_eq t f).
Proof.
  intros Ht Hf Hi. unfold ratio_list.
  rewrite list_lookup_fmap, lookup_seq_lt by assumption. simpl.
  rewrite !nth_lookup, Ht, Hf. reflexivity.
Qed.

(** The whole-ladder loop for one class, after [j] rounds. *)
Lemma ratio_curve_run (a b : gmap nat (list nat)) k la lb j :
  a !! k = Some la -> b !! k = Some lb ->
  j <= length la -> j <= length lb ->
  for_each (seq 0 j)
    (fun i acc =>
       lb ← dict_get b k; f ← getitem lb i;
       v ← (if (f =? 0)%nat then Ok 1%Q
            else la ← dict_get a k; t ← getitem la i;
                 Ok (Qnat t / Qnat (t + f))%Q);
       Ok (acc ++ [v]))
    []
  = Ok (ratio_list la lb j).
Proof.
  intros Ha Hb. induction j as [|j IH]; intros H1 H2; [reflexivity|].
  rewrite seq_S, for_each_app, IH by lia. simpl.
  destruct (lookup_lt_is_Some_2 la j) as [t Ht]; [lia|].
  destruct (lookup_lt_is_Some_2 lb j) as [f Hf]; [lia|].
  unfold dict_get, getitem. rewrite Hb. simpl. rewrite Hf. simpl.
  assert (Hlist : ratio_list la lb (S j)
                  = ratio_list la lb j ++ [ratio_eq t f]).
  { unfold ratio_list. rewrite seq_S, map_app. simpl.
    rewrite !nth_lookup, Ht, Hf. reflexivity. }
  rewrite Hlist. unfold ratio_eq.
  destruct (f =? 0)%nat; simpl; [reflexivity|].
  rewrite Ha. simpl. rewrite Ht. reflexivity.
Qed.

(** The whole-ladder recall of a well-shaped benchmark, in closed form. *)
Lemma recall_curve_spec (b : ObjectBenchmark) :
  well_shaped b ->
  exists r,
    recall b None = Ok (Curve r) /\
    forall k,
      (k ∈ _classes b ->
       exists ltp lfn, _tp b !! k = Some ltp /\ _fn b !! k = Some lfn /\
                       r !! k = Some (ratio_list ltp lfn (_pr_nsamples b))) /\
      (k ∉ _classes b -> r !! k = None).
Proof.
  intros (Htp & _ & Hfn & _ & _).
  destruct (dict_comp_Ok (_classes b) (ratio_curve b (_tp b) (_fn b))
              (fun k => ratio_list (default [] (_tp b !! k))
                          (default [] (_fn b !! k)) (_pr_nsamples b)) ∅)
    as (r & Hr & Hin & Hout).
  { intros k Hk.
    destruct (shaped_lookup _ _ _ _ Htp Hk) as (ltp & Hltp & Lt).
    destruct (shaped_lookup _ _ _ _ Hfn Hk) as (lfn & Hlfn & Lf).
    unfold ratio_curve. rewrite Hltp, Hlfn. simpl.
    apply ratio_curve_run; auto; lia. }
  exists r. unfold recall. rewrite Hr. simpl. split; [reflexivity|].
  intros k. split.
  - intros Hk.
    destruct (shaped_lookup _ _ _ _ Htp Hk) as (ltp & Hltp & Lt).
    destruct (shaped_lookup _ _ _ _ Hfn Hk) as (lfn & Hlfn & Lf).
    exists ltp, lfn. rewrite (Hin k Hk), Hltp, Hlfn. auto.
  - intros Hk. rewrite (Hout k Hk). apply lookup_empty.
Qed.

(** ** The counts of a reachable benchmark *)

Lemma counts_inv_fromkeys cls n :
  counts_inv (dict_fromkeys cls (replicate n 0))
             (dict_fromkeys cls (replicate n 0)) (dict_fromkeys cls 0).
Proof.
  intros k ltp lfn m. rewrite !dict_fromkeys_lookup.
  destruct (decide (k ∈ cls)); [|discriminate].
  intros [= <-] [= <-] [= <-]. split.
  - intros i t f Ht Hf.
    apply lookup_replicate in Ht as [-> _].
    apply lookup_replicate in Hf as [-> _]. reflexivity.
  - intros i t t' Ht Ht'.
    apply lookup_replicate in Ht as [-> _].
    apply lookup_replicate in Ht' as [-> _]. lia.
Qed.

Lemma init_counts_inv geomspace py_int classes min_overlaps n min_score scale b :
  init geomspace py_int classes min_overlaps n min_score scale = Ok b ->
  counts_inv (_tp b) (_fn b) (_total_gt b).
Proof.
  unfold init. intros H. inv_bind H. inv_bind H. injection H as <-.
  simpl. apply counts_inv_fromkeys.
Qed.

(** Merging one class keeps the counts balanced and descending. *)
Lemma merge_class_counts_inv f b k :
  well_shaped b -> stats_shaped (_classes b) (_pr_nsamples b) f ->
  counts_inv (_tp b) (_fn b) (_total_gt b) ->
  counts_inv (st_tp f) (st_fn f) (st_ngt f) ->
  k ∈ _classes b ->
  counts_inv (_tp (merged_on [k] f b)) (_fn (merged_on [k] f b))
             (_total_gt (merged_on [k] f b)).
Proof.
  intros (H1 & _ & H3 & H4 & _) (F1 & _ & F3 & F4 & _) Hb Hf Hk.
  destruct (shaped_lookup _ _ _ k H1 Hk) as (ltp & Hltp & _).
  destruct (shaped_lookup _ _ _ k H3 Hk) as (lfn & Hlfn & _).
  destruct (shaped_lookup _ _ _ k F1 Hk) as (stp & Hstp & _).
  destruct (shaped_lookup _ _ _ k F3 Hk) as (sfn & Hsfn & _).
  destruct (proj1 (H4 k) Hk) as [n Hn].
  destruct (proj1 (F4 k) Hk) as [sn Hsn].
  destruct (Hb _ _ _ _ Hltp Hlfn Hn) as [Hbal Hdesc].
  destruct (Hf _ _ _ _ Hstp Hsfn Hsn) as [Hsbal Hsdesc].
  unfold merged_on, merge_table, merge_count. simpl.
  rewrite Hstp, Hsfn, Hsn.
  intros j ltp' lfn' n'. rewrite !lookup_alter.
  destruct (decide (k = j)) as [<-|Hne]; [|apply Hb].
  rewrite Hltp, Hlfn, Hn. simpl. intros [= <-] [= <-] [= <-]. split.
  - intros i t f0 Ht Hf0.
    apply lookup_zip_with_Some in Ht as (x & y & -> & Hx & Hy).
    apply lookup_zip_with_Some in Hf0 as (x' & y' & -> & Hx' & Hy').
    specialize (Hbal i x x' Hx Hx'). specialize (Hsbal i y y' Hy Hy'). lia.
  - intros i t t' Ht Ht'.
    apply lookup_zip_with_Some in Ht as (x & y & -> & Hx & Hy).
    apply lookup_zip_with_Some in Ht' as (x' & y' & -> & Hx' & Hy').
    specialize (Hdesc i x x' Hx Hx'). specialize (Hsdesc i y y' Hy Hy'). lia.
Qed.

Lemma merged_counts_inv f ks b :
  well_shaped b -> stats_shaped (_classes b) (_pr_nsamples b) f ->
  counts_inv (_tp b) (_fn b) (_total_gt b) ->
  counts_inv (st_tp f) (st_fn f) (st_ngt f) ->
  (forall k, k ∈ ks -> k ∈ _classes b) ->
  counts_inv (_tp (merged_on ks f b)) (_fn (merged_on ks f b))
             (_total_gt (merged_on ks f b)).
Proof.
  revert b; induction ks as [|k ks IH]; intros b Hwf Hsh Hb Hf Hks.
  - exact Hb.
  - apply (IH (merged_on [k] f b)).
    + apply merged_on_well_shaped; assumption.
    + exact Hsh.
    + apply merge_class_counts_inv; auto. apply Hks. left.
    + exact Hf.
    + intros j Hj. apply Hks. right. assumption.
Qed.

Lemma reachable_inv geomspace py_int b :
  reachable geomspace py_int b ->
  well_shaped b /\ counts_inv (_tp b) (_fn b) (_total_gt b).
Proof.
  induction 1 as [classes min_overlaps n min_score scale b Hinit
                 |b iou gt_boxes dt_boxes f b' _ [Hwf Hcnt] Hstats Hadd].
  - split; [eapply init_well_shaped | eapply init_counts_inv]; eassumption.
  - destruct (get_stats_inv _ _ _ _ _ Hstats) as [Hsh Hf].
    rewrite (add_stats_merged f b Hwf Hsh) in Hadd. injection Hadd as <-.
    split.
    + apply merged_on_well_shaped; assumption.
    + apply merged_counts_inv; auto.
Qed.

(** C6 (as the code has it): on every benchmark that construction and
    rounds of [get_stats]/[add_stats] can produce, the whole-ladder recall
    query returns, and for every class the recall at level i+1 (the higher
    threshold) is at most the recall at level i. *)
Theorem recall_never_rises_with_level geomspace py_int (b : ObjectBenchmark) :
  reachable geomspace py_int b ->
  exists r,
    recall b None = Ok (Curve r) /\
    (forall k, k ∈ _classes b ->
       exists l, r !! k = Some l /\ length l = _pr_nsamples b) /\
    (forall k l i x y,
       r !! k = Some l -> l !! i = Some x -> l !! S i = Some y ->
       (y <= x)%Q).
Proof.
  intros Hreach. destruct (reachable_inv _ _ _ Hreach) as [Hwf Hcnt].
  destruct (recall_curve_spec b Hwf) as (r & Hr & Hrk).
  exists r. split; [exact Hr|]. split.
  - intros k Hk. destruct (proj1 (Hrk k) Hk) as (ltp & lfn & _ & _ & ->).
    eexists. split; [reflexivity|]. apply ratio_list_length.
  - intros k l i x y Hl Hx Hy.
    destruct (decide (k ∈ _classes b)) as [Hk|Hk];
      [|rewrite (proj2 (Hrk k) Hk) in Hl; discriminate].
    destruct (proj1 (Hrk k) Hk) as (ltp & lfn & Hltp & Hlfn & Hrl).
    rewrite Hrl in Hl. injection Hl as <-.
    destruct Hwf as (Htp & _ & Hfn & Hgt & _).
    destruct (proj1 (Hgt k) Hk) as [n Hn].
    destruct (Hcnt _ _ _ _ Hltp Hlfn Hn) as [Hbal Hdesc].
    assert (S i < _pr_nsamples b) as Hi.
    { apply lookup_lt_Some in Hy. rewrite ratio_list_length in Hy. exact Hy. }
    destruct (lookup_lt_is_Some_2 ltp i) as [t Ht];
      [rewrite (proj2 Htp _ _ Hltp); lia|].
    destruct (lookup_lt_is_Some_2 ltp (S i)) as [t' Ht'];
      [rewrite (proj2 Htp _ _ Hltp); lia|].
    destruct (lookup_lt_is_Some_2 lfn i) as [f Hf];
      [rewrite (proj2 Hfn _ _ Hlfn); lia|].
    destruct (lookup_lt_is_Some_2 lfn (S i)) as [f' Hf'];
      [rewrite (proj2 Hfn _ _ Hlfn); lia|].
    rewrite (ratio_list_lookup _ _ _ _ _ _ Ht Hf) in Hx by lia.
    rewrite (ratio_list_lookup _ _ _ _ _ _ Ht' Hf') in Hy by lia.
    injection Hx as <-. injection Hy as <-.
    apply (ratio_eq_mono t f t' f' n).
    + eapply Hbal; eassumption.
    + eapply Hbal; eassumption.
    + eapply Hdesc; eassumption.
Qed.

Lemma scenario_frame_eq :
  get_stats scenario_benchmark (scenario_iou 0 0) scenario_gt scenario_dt
  = Ok scenario_frame.
Proof. vm_compute. reflexivity. Qed.

Lemma scenario_frame_crossed_eq :
  get_stats scenario_benchmark (scenario_iou 1 1) scenario_gt scenario_dt
  = Ok scenario_frame_crossed.
Proof. vm_compute. reflexivity. Qed.

Lemma scenario_merged_eq :
  add_stats scenario_frame scenario_benchmark = Ok scenario_merged_benchmark.
Proof. vm_compute. reflexivity. Qed.

Lemma scenario_benchmark_reachable :
  reachable geomspace_pow2 int_decimal scenario_benchmark.
Proof.
  apply (reach_init geomspace_pow2 int_decimal (Many [car]) (One (1 # 2))
           4 0 "lin").
  exact scenario_init_eq.
Qed.

Lemma scenario_merged_reachable :
  reachable geomspace_pow2 int_decimal scenario_merged_benchmark.
Proof.
  apply (reach_add geomspace_pow2 int_decimal scenario_benchmark
           (scenario_iou 0 0) scenario_gt scenario_dt scenario_frame).
  - exact scenario_benchmark_reachable.
  - exact scenario_frame_eq.
  - exact scenario_merged_eq.
Qed.

Lemma recall_never_rises_with_level_witness :
  exists r,
    recall scenario_merged_benchmark None = Ok (Curve r) /\
    (forall k, k ∈ _classes scenario_merged_benchmark ->
       exists l, r !! k = Some l /\
                 length l = _pr_nsamples scenario_merged_benchmark) /\
    (forall k l i x y,
       r !! k = Some l -> l !! i = Some x -> l !! S i = Some y ->
       (y <= x)%Q).
Proof.
  exact (recall_never_rises_with_level geomspace_pow2 int_decimal
           scenario_merged_benchmark scenario_merged_reachable).
Defined.

(** C6 as stated fails: on the merged scenario the recall of the class is
    1 at level 1 and 0.5 at level 2, so the recall at level i+1 is not at
    least the recall at level i. *)
Lemma recall_drops_in_scenario :
  exists r l x y,
    reachable geomspace_pow2 int_decimal scenario_merged_benchmark /\
    recall scenario_merged_benchmark None = Ok (Curve r) /\
    r !! car = Some l /\
    l !! 1 = Some x /\ l !! 2 = Some y /\
    ~ (x <= y)%Q.
Proof.
  eexists _, _, _, _. split; [exact scenario_merged_reachable|].
  split; [vm_compute; reflexivity|].
  split; [vm_compute; reflexivity|].
  split; [reflexivity|]. split; [reflexivity|].
  vm_compute. intros H. apply H. reflexivity.
Qed.

(** ** Instances of the hypotheses on the scenario *)

Lemma add_stats_commutes_witness :
  exists b12,
    (b1 ← add_stats scenario_frame scenario_benchmark;
     add_stats scenario_frame_crossed b1) = Ok b12 /\
    (b2 ← add_stats scenario_frame_crossed scenario_benchmark;
     add_stats scenario_frame b2) = Ok b12.
Proof.
  apply (add_stats_commutes scenario_benchmark scenario_frame
           scenario_frame_crossed).
  - exact (proj1 (reachable_inv _ _ _ scenario_benchmark_reachable)).
  - exact (proj1 (get_stats_inv _ _ _ _ _ scenario_frame_eq)).
  - exact (proj1 (get_stats_inv _ _ _ _ _ scenario_frame_crossed_eq)).
Defined.

Lemma low_score_reads_last_level_witness :
  _get_score_idx scenario_merged_benchmark (Some 0%Q) = (-1)%Z /\
  exists m, tp scenario_merged_benchmark (Some 0%Q) = Ok m /\
            m !! car = Some 1.
Proof.
  destruct (low_score_reads_last_level scenario_merged_benchmark 0%Q)
    as (Hidx & (m & Hm & Hlast) & _).
  - exact (proj1 (reachable_inv _ _ _ scenario_merged_reachable)).
  - simpl. lia.
  - simpl. repeat (constructor; [vm_compute; discriminate|]). constructor.
  - split; [exact Hidx|]. exists m. split; [exact Hm|].
    rewrite Hlast. reflexivity.
Defined.

(** * Further properties of the benchmark *)

(** ** The statistics of a frame *)

(** X1: the statistics returned for a frame hold, for every tracked class
    and only for those, one list per table with one entry per ladder level,
    and one ground-truth count. *)
Theorem get_stats_shape self iou gt_boxes dt_boxes (f : FrameStats) :
  get_stats self iou gt_boxes dt_boxes = Ok f ->
  stats_shaped (_classes self) (_pr_nsamples self) f.
Proof. intros H. exact (proj1 (get_stats_inv _ _ _ _ _ H)). Qed.

Lemma get_stats_shape_witness :
  stats_shaped (_classes scenario_benchmark) (_pr_nsamples scenario_benchmark)
    scenario_frame.
Proof.
  exact (get_stats_shape scenario_benchmark (scenario_iou 0 0) scenario_gt
           scenario_dt scenario_frame scenario_frame_eq).
Defined.

(** X2: in the statistics of a frame, at every level the true positives and
    the false negatives of a class add up to its number of ground truths. *)
Theorem get_stats_tp_fn_balance self iou gt_boxes dt_boxes (f : FrameStats)
    k (ltp lfn : list nat) (n i t m : nat) :
  get_stats self iou gt_boxes dt_boxes = Ok f ->
  st_tp f !! k = Some ltp -> st_fn f !! k = Some lfn ->
  st_ngt f !! k = Some n ->
  ltp !! i = Some t -> lfn !! i = Some m ->
  t + m = n.
Proof.
  intros H Htp Hfn Hn Ht Hm.
  destruct (proj2 (get_stats_inv _ _ _ _ _ H) _ _ _ _ Htp Hfn Hn) as [Hbal _].
  exact (Hbal i t m Ht Hm).
Qed.

Lemma get_stats_tp_fn_balance_witness : 1 + 1 = 2.
Proof.
  apply (get_stats_tp_fn_balance scenario_benchmark (scenario_iou 0 0)
           scenario_gt scenario_dt scenario_frame car
           [2; 2; 1; 1] [0; 0; 1; 1] 2 2 1 1 scenario_frame_eq);
    reflexivity.
Defined.

(** X3: in the statistics of a frame, the true positives of a class do not
    increase from one level to the next (higher) one. *)
Theorem get_stats_tp_descending self iou gt_boxes dt_boxes (f : FrameStats)
    k (ltp : list nat) (i t t' : nat) :
  get_stats self iou gt_boxes dt_boxes = Ok f ->
  st_tp f !! k = Some ltp ->
  ltp !! i = Some t -> ltp !! S i = Some t' ->
  t' <= t.
Proof.
  intros H Htp Ht Ht'.
  destruct (get_stats_inv _ _ _ _ _ H) as [Hsh Hcnt].
  destruct Hsh as ((Hk1 & _) & _ & (Hk3 & _) & Hk4 & _).
  assert (k ∈ _classes self) as Hk by (apply Hk1; eauto).
  destruct (proj1 (Hk3 k) Hk) as [lfn Hfn].
  destruct (proj1 (Hk4 k) Hk) as [n Hn].
  destruct (Hcnt _ _ _ _ Htp Hfn Hn) as [_ Hdesc].
  exact (Hdesc i t t' Ht Ht').
Qed.

Lemma get_stats_tp_descending_witness : 1 <= 2.
Proof.
  apply (get_stats_tp_descending scenario_benchmark (scenario_iou 0 0)
           scenario_gt scenario_dt scenario_frame car [2; 2; 1; 1] 1 2 1
           scenario_frame_eq);
    reflexivity.
Defined.

(** X4: on every benchmark that construction and rounds of
    [get_stats]/[add_stats] can produce, at every level the accumulated true
    positives and false negatives of a class add up to its accumulated
    number of ground truths. *)
Theorem reachable_tp_fn_balance geomspace py_int (b : ObjectBenchmark)
    k (ltp lfn : list nat) (n i t m : nat) :
  reachable geomspace py_int b ->
  _tp b !! k = Some ltp -> _fn b !! k = Some lfn ->
  _total_gt b !! k = Some n ->
  ltp !! i = Some t -> lfn !! i = Some m ->
  t + m = n.
Proof.
  intros H Htp Hfn Hn Ht Hm.
  destruct (proj2 (reachable_inv _ _ _ H) _ _ _ _ Htp Hfn Hn) as [Hbal _].
  exact (Hbal i t m Ht Hm).
Qed.

Lemma reachable_tp_fn_balance_witness : 1 + 1 = 2.
Proof.
  apply (reachable_tp_fn_balance geomspace_pow2 int_decimal
           scenario_merged_benchmark car [2; 2; 1; 1] [0; 0; 1; 1] 2 2 1 1
           scenario_merged_reachable);
    reflexivity.
Defined.

(** X5: [get_stats] fails with an assertion exactly when the two box arrays
    belong to different frames. *)
Theorem get_stats_asserts_iff_frames_differ self iou
    (gt_boxes dt_boxes : ObjectTarget3DArray) :
  get_stats self iou gt_boxes dt_boxes = Raise AssertionError <->
  frame gt_boxes <> frame dt_boxes.
Proof.
  unfold get_stats. destruct (decide (frame gt_boxes = frame dt_boxes)) as [He|Hne].
  - split; [|contradiction]. intros H. exfalso.
    revert H. apply bind_not_raise;
      [apply get_stats_locals_not_assertion | discriminate].
  - split; auto.
Qed.

(** ** The metric queries *)

Lemma column_at cls n (d : gmap nat (list nat)) (idx : Z) :
  shaped cls n d -> (- Z.of_nat n <= idx < Z.of_nat n)%Z ->
  exists m, column d idx = Ok m /\ forall k, m !! k = entry_at d idx k.
Proof.
  intros [_ Hlen] Hidx.
  assert (Hsome : forall k l, d !! k = Some l -> is_Some (py_index l idx)).
  { intros k l Hk. specialize (Hlen k l Hk). unfold py_index.
    destruct (Z.ltb_spec idx 0).
    - rewrite Hlen. destruct (Z.ltb_spec (idx + Z.of_nat n) 0); [lia|].
      apply lookup_lt_is_Some_2. lia.
    - apply lookup_lt_is_Some_2. lia. }
  unfold column. destruct (decide _) as [_|Hbad].
  - eexists. split; [reflexivity|]. intros k.
    rewrite lookup_omap. reflexivity.
  - exfalso. apply Hbad. intros k l Hk. simpl. eapply Hsome. eassumption.
Qed.

Lemma entry_at_shaped cls n (d : gmap nat (list nat)) idx k :
  shaped cls n d -> (- Z.of_nat n <= idx < Z.of_nat n)%Z -> k ∈ cls ->
  exists l x, d !! k = Some l /\ length l = n /\ py_index l idx = Some x /\
              entry_at d idx k = Some x.
Proof.
  intros Hsh Hidx Hk.
  destruct (shaped_lookup _ _ _ _ Hsh Hk) as (l & Hl & Ll).
  assert (is_Some (py_index l idx)) as [x Hx].
  { unfold py_index. destruct (Z.ltb_spec idx 0).
    - rewrite Ll. destruct (Z.ltb_spec (idx + Z.of_nat n) 0); [lia|].
      apply lookup_lt_is_Some_2. lia.
    - apply lookup_lt_is_Some_2. lia. }
  exists l, x. unfold entry_at. rewrite Hl. simpl. auto.
Qed.

Lemma score_idx_range (b : ObjectBenchmark) (score : option Q) :
  0 < _pr_nsamples b -> length (_pr_thresholds b) <= _pr_nsamples b ->
  (- Z.of_nat (_pr_nsamples b) <= _get_score_idx b score
   < Z.of_nat (_pr_nsamples b))%Z.
Proof.
  intros Hn Hlen. destruct score as [s|]; unfold _get_score_idx.
  - pose proof (searchsorted_le_length (_pr_thresholds b) s). lia.
  - assert (_pr_nsamples b / 2 < _pr_nsamples b)
      by (apply Nat.div_lt; lia).
    lia.
Qed.

Lemma ratio_gt_eq (t f : nat) : ratio_gt t f = ratio_eq t f.
Proof. unfold ratio_gt, ratio_eq. destruct f; reflexivity. Qed.

Lemma ratio_eq_unit (t f : nat) : (0 <= ratio_eq t f <= 1)%Q.
Proof.
  unfold ratio_eq. destruct (Nat.eqb_spec f 0) as [->|Hf].
  - split; [discriminate | apply Qle_refl].
  - split.
    + unfold Qdiv. apply Qmult_le_0_compat.
      * change 0%Q with (Qnat 0). apply Qnat_le. lia.
      * apply Qlt_le_weak, Qinv_lt_0_compat, Qnat_pos. lia.
    + apply Qnat_div_le_1; lia.
Qed.

Lemma ratio_list_unit la lb j i x :
  ratio_list la lb j !! i = Some x -> (0 <= x <= 1)%Q.
Proof.
  unfold ratio_list. rewrite list_lookup_fmap.
  destruct (seq 0 j !! i) as [i'|]; [|discriminate].
  simpl. intros [= <-]. apply ratio_eq_unit.
Qed.

(** The whole-ladder branch of [precision] and [recall] over two tables of
    the right shape. *)
Lemma curve_spec cls n (a c : gmap nat (list nat)) self :
  _classes self = cls -> _pr_nsamples self = n ->
  shaped cls n a -> shaped cls n c ->
  exists r,
    dict_comp cls (ratio_curve self a c) ∅ = Ok r /\
    forall k,
      (k ∈ cls ->
       exists la lc, a !! k = Some la /\ c !! k = Some lc /\
                     r !! k = Some (ratio_list la lc n)) /\
      (k ∉ cls -> r !! k = None).
Proof.
  intros Hcls Hn Ha Hc.
  destruct (dict_comp_Ok cls (ratio_curve self a c)
              (fun k => ratio_list (default [] (a !! k))
                          (default [] (c !! k)) n) ∅)
    as (r & Hr & Hin & Hout).
  { intros k Hk.
    destruct (shaped_lookup _ _ _ _ Ha Hk) as (la & Hla & La).
    destruct (shaped_lookup _ _ _ _ Hc Hk) as (lc & Hlc & Lc).
    unfold ratio_curve. rewrite Hla, Hlc, Hn. simpl.
    apply ratio_curve_run; auto; lia. }
  exists r. split; [exact Hr|]. intros k. split.
  - intros Hk.
    destruct (shaped_lookup _ _ _ _ Ha Hk) as (la & Hla & La).
    destruct (shaped_lookup _ _ _ _ Hc Hk) as (lc & Hlc & Lc).
    exists la, lc. rewrite (Hin k Hk), Hla, Hlc. auto.
  - intros Hk. rewrite (Hout k Hk). apply lookup_empty.
Qed.

Lemma precision_curve_spec (b : ObjectBenchmark) :
  well_shaped b ->
  exists p,
    precision b None = Ok (Curve p) /\
    forall k,
      (k ∈ _classes b ->
       exists ltp lfp, _tp b !! k = Some ltp /\ _fp b !! k = Some lfp /\
                       p !! k = Some (ratio_list ltp lfp (_pr_nsamples b))) /\
      (k ∉ _classes b -> p !! k = None).
Proof.
  intros (Htp & Hfp & _).
  destruct (curve_spec _ _ _ _ b eq_refl eq_refl Htp Hfp) as (p & Hp & Hk).
  exists p. unfold precision. rewrite Hp. auto.
Qed.

(** X6: on a benchmark with tables of the constructor's shape the
    whole-ladder precision and recall queries return, for every tracked
    class, one value per level, and every value lies between 0 and 1. *)
Theorem curves_in_unit_interval (b : ObjectBenchmark) :
  well_shaped b ->
  exists p r,
    precision b None = Ok (Curve p) /\
    recall b None = Ok (Curve r) /\
    (forall k, k ∈ _classes b ->
       exists lp lr, p !! k = Some lp /\ r !! k = Some lr /\
                     length lp = _pr_nsamples b /\
                     length lr = _pr_nsamples b) /\
    (forall k l i x, p !! k = Some l \/ r !! k = Some l ->
       l !! i = Some x -> (0 <= x <= 1)%Q).
Proof.
  intros Hwf.
  destruct (precision_curve_spec b Hwf) as (p & Hp & Hpk).
  destruct (recall_curve_spec b Hwf) as (r & Hr & Hrk).
  exists p, r. split; [exact Hp|]. split; [exact Hr|]. split.
  - intros k Hk.
    destruct (proj1 (Hpk k) Hk) as (ltp & lfp & _ & _ & ->).
    destruct (proj1 (Hrk k) Hk) as (ltp' & lfn & _ & _ & ->).
    eexists _, _. repeat split; apply ratio_list_length.
  - intros k l i x Hl Hx.
    destruct (decide (k ∈ _classes b)) as [Hk|Hk].
    + destruct (proj1 (Hpk k) Hk) as (ltp & lfp & _ & _ & Hpl).
      destruct (proj1 (Hrk k) Hk) as (ltp' & lfn & _ & _ & Hrl).
      destruct Hl as [Hl|Hl]; rewrite ?Hpl, ?Hrl in Hl; injection Hl as <-;
        eapply ratio_list_unit; eassumption.
    + rewrite (proj2 (Hpk k) Hk), (proj2 (Hrk k) Hk) in Hl.
      destruct Hl; discriminate.
Qed.

Lemma scenario_merged_well_shaped : well_shaped scenario_merged_benchmark.
Proof. exact (proj1 (reachable_inv _ _ _ scenario_merged_reachable)). Qed.

Lemma curves_in_unit_interval_witness :
  exists p r,
    precision scenario_merged_benchmark None = Ok (Curve p) /\
    recall scenario_merged_benchmark None = Ok (Curve r) /\
    (forall k, k ∈ _classes scenario_merged_benchmark ->
       exists lp lr, p !! k = Some lp /\ r !! k = Some lr /\
                     length lp = _pr_nsamples scenario_merged_benchmark /\
                     length lr = _pr_nsamples scenario_merged_benchmark) /\
    (forall k l i x, p !! k = Some l \/ r !! k = Some l ->
       l !! i = Some x -> (0 <= x <= 1)%Q).
Proof.
  exact (curves_in_unit_interval scenario_merged_benchmark
           scenario_merged_well_shaped).
Defined.

(** ** The two branches of a metric query *)

Lemma py_index_nat (n : nat) (idx : Z) :
  (- Z.of_nat n <= idx < Z.of_nat n)%Z ->
  exists i, i < n /\
    forall A (l : list A), length l = n -> py_index l idx = l !! i.
Proof.
  intros Hidx. destruct (Z.ltb_spec idx 0) as [Hneg|Hpos].
  - exists (Z.to_nat (idx + Z.of_nat n)). split; [lia|].
    intros A l Hl. unfold py_index. rewrite Hl.
    destruct (Z.ltb_spec idx 0); [|lia].
    destruct (Z.ltb_spec (idx + Z.of_nat n) 0); [lia|reflexivity].
  - exists (Z.to_nat idx). split; [lia|].
    intros A l Hl. unfold py_index.
    destruct (Z.ltb_spec idx 0); [lia|reflexivity].
Qed.

(** The score branch of [precision] and [recall] over two tables of the
    right shape: it returns the ratio of the entries the index reads. *)
Lemma at_score_spec cls n (a c : gmap nat (list nat)) (idx : Z) :
  shaped cls n a -> shaped cls n c ->
  (- Z.of_nat n <= idx < Z.of_nat n)%Z ->
  exists ts fs m,
    column a idx = Ok ts /\ column c idx = Ok fs /\
    dict_comp cls (fun k => f ← dict_get fs k; t ← dict_get ts k;
                            Ok (ratio_gt t f)) ∅ = Ok m /\
    forall k, k ∈ cls ->
      exists t f, entry_at a idx k = Some t /\ entry_at c idx k = Some f /\
                  m !! k = Some (ratio_gt t f).
Proof.
  intros Ha Hc Hidx.
  destruct (column_at _ _ _ _ Ha Hidx) as (ts & Hts & Lts).
  destruct (column_at _ _ _ _ Hc Hidx) as (fs & Hfs & Lfs).
  destruct (ratio_at_score cls ts fs) as (m & Hm & Hmk).
  { intros k Hk. rewrite Lts, Lfs.
    destruct (entry_at_shaped _ _ _ _ _ Ha Hidx Hk) as (? & ? & _ & _ & _ & ->).
    destruct (entry_at_shaped _ _ _ _ _ Hc Hidx Hk) as (? & ? & _ & _ & _ & ->).
    split; eauto. }
  exists ts, fs, m. repeat split; try assumption.
  intros k Hk. destruct (Hmk k Hk) as (t & f & Ht & Hf & Hv).
  exists t, f. rewrite <- Lts, <- Lfs. auto.
Qed.

Lemma entry_at_Some (d : gmap nat (list nat)) (idx : Z) k l :
  d !! k = Some l -> entry_at d idx k = py_index l idx.
Proof. intros H. unfold entry_at. rewrite H. reflexivity. Qed.

Lemma precision_score_run (b : ObjectBenchmark) (s : Q) ts fs p :
  column (_tp b) (_get_score_idx b (Some s)) = Ok ts ->
  column (_fp b) (_get_score_idx b (Some s)) = Ok fs ->
  dict_comp (_classes b) (fun k => f ← dict_get fs k; t ← dict_get ts k;
                                   Ok (ratio_gt t f)) ∅ = Ok p ->
  precision b (Some s) = Ok (AtScore p).
Proof.
  intros H1 H2 H3. unfold precision, tp, fp. rewrite H1, H2. simpl.
  rewrite H3. reflexivity.
Qed.

Lemma recall_score_run (b : ObjectBenchmark) (s : Q) ts fs r :
  column (_tp b) (_get_score_idx b (Some s)) = Ok ts ->
  column (_fn b) (_get_score_idx b (Some s)) = Ok fs ->
  dict_comp (_classes b) (fun k => f ← dict_get fs k; t ← dict_get ts k;
                                   Ok (ratio_gt t f)) ∅ = Ok r ->
  recall b (Some s) = Ok (AtScore r).
Proof.
  intros H1 H2 H3. unfold recall, tp, fn. rewrite H1, H2. simpl.
  rewrite H3. reflexivity.
Qed.

(** X7: with a ladder no longer than the tables, the precision and recall
    returned for a score are the entries that the score's level index reads
    (Python-style, so index -1 reads the last level) in the whole-ladder
    curves: the two branches of each query agree. *)
Theorem score_branch_reads_curve (b : ObjectBenchmark) (s : Q) :
  well_shaped b ->
  0 < _pr_nsamples b ->
  length (_pr_thresholds b) <= _pr_nsamples b ->
  exists p r cp cr,
    precision b (Some s) = Ok (AtScore p) /\
    recall b (Some s) = Ok (AtScore r) /\
    precision b None = Ok (Curve cp) /\
    recall b None = Ok (Curve cr) /\
    forall k, k ∈ _classes b ->
      exists lp lr,
        cp !! k = Some lp /\ cr !! k = Some lr /\
        p !! k = py_index lp (_get_score_idx b (Some s)) /\
        r !! k = py_index lr (_get_score_idx b (Some s)).
Proof.
  intros Hwf Hn Hlen.
  pose proof (score_idx_range b (Some s) Hn Hlen) as Hidx.
  destruct (precision_curve_spec b Hwf) as (cp & Hcp & Hcpk).
  destruct (recall_curve_spec b Hwf) as (cr & Hcr & Hcrk).
  destruct Hwf as (Htp & Hfp & Hfn & _ & _).
  destruct (at_score_spec _ _ _ _ _ Htp Hfp Hidx)
    as (ts & fs & p & Hts & Hfs & Hp & Hpk).
  destruct (at_score_spec _ _ _ _ _ Htp Hfn Hidx)
    as (ts' & ns & r & Hts' & Hns & Hr & Hrk).
  exists p, r, cp, cr.
  split; [exact (precision_score_run b s ts fs p Hts Hfs Hp)|].
  split; [exact (recall_score_run b s ts' ns r Hts' Hns Hr)|].
  split; [exact Hcp|]. split; [exact Hcr|].
  intros k Hk.
  destruct (proj1 (Hcpk k) Hk) as (ltp & lfp & Hltp & Hlfp & Hcpl).
  destruct (proj1 (Hcrk k) Hk) as (ltp' & lfn & Hltp' & Hlfn & Hcrl).
  assert (ltp' = ltp) as -> by congruence.
  exists (ratio_list ltp lfp (_pr_nsamples b)),
         (ratio_list ltp lfn (_pr_nsamples b)).
  split; [exact Hcpl|]. split; [exact Hcrl|].
  destruct (py_index_nat _ _ Hidx) as (i & Hi & Hpy).
  destruct (Hpk k Hk) as (t & f & Ht & Hf & ->).
  destruct (Hrk k Hk) as (t' & m & Ht' & Hm & ->).
  rewrite (entry_at_Some _ _ _ _ Hltp) in Ht, Ht'.
  rewrite (entry_at_Some _ _ _ _ Hlfp) in Hf.
  rewrite (entry_at_Some _ _ _ _ Hlfn) in Hm.
  rewrite (Hpy _ ltp (proj2 Htp _ _ Hltp)) in Ht, Ht'.
  rewrite (Hpy _ lfp (proj2 Hfp _ _ Hlfp)) in Hf.
  rewrite (Hpy _ lfn (proj2 Hfn _ _ Hlfn)) in Hm.
  rewrite !Hpy by apply ratio_list_length.
  rewrite (ratio_list_lookup _ _ _ _ _ _ Ht Hf Hi).
  rewrite (ratio_list_lookup _ _ _ _ _ _ Ht' Hm Hi).
  rewrite !ratio_gt_eq. auto.
Qed.

Lemma score_branch_reads_curve_witness :
  exists p r cp cr,
    precision scenario_merged_benchmark (Some (3 # 4)) = Ok (AtScore p) /\
    recall scenario_merged_benchmark (Some (3 # 4)) = Ok (AtScore r) /\
    precision scenario_merged_benchmark None = Ok (Curve cp) /\
    recall scenario_merged_benchmark None = Ok (Curve cr) /\
    forall k, k ∈ _classes scenario_merged_benchmark ->
      exists lp lr,
        cp !! k = Some lp /\ cr !! k = Some lr /\
        p !! k = py_index lp
                   (_get_score_idx scenario_merged_benchmark (Some (3 # 4))) /\
        r !! k = py_index lr
                   (_get_score_idx scenario_merged_benchmark (Some (3 # 4))).
Proof.
  apply (score_branch_reads_curve scenario_merged_benchmark (3 # 4)).
  - exact scenario_merged_well_shaped.
  - simpl. lia.
  - simpl. lia.
Defined.

(** ** Division by zero in the F-score *)




Lemma missed_frame_eq :
  get_stats scenario_benchmark (fun _ _ => 0%Q) missed_gt missed_dt
  = Ok missed_frame.
Proof. vm_compute. reflexivity. Qed.




(** ** The linear ladder *)







(** ** From a score to a level *)

(** X10: on a ladder in ascending order, the level index computed for a
    score is at least -1 and below the length of the ladder, and the
    thresholds strictly below the score are exactly those of the levels up
    to that index. *)
Theorem score_idx_last_level_below (b : ObjectBenchmark) (s : Q) :
  StronglySorted Qle (_pr_thresholds b) ->
  (-1 <= _get_score_idx b (Some s)
   < Z.of_nat (length (_pr_thresholds b)))%Z /\
  forall i t, _pr_thresholds b !! i = Some t ->
    ((t < s)%Q <-> (Z.of_nat i <= _get_score_idx b (Some s))%Z).
Proof.
  intros Hsorted. unfold _get_score_idx.
  pose proof (searchsorted_le_length (_pr_thresholds b) s) as Hlen.
  split; [lia|].
  intros i t Ht.
  rewrite (searchsorted_sorted _ s Hsorted i t Ht). lia.
Qed.

Lemma scenario_ladder_sorted :
  StronglySorted Qle (_pr_thresholds scenario_benchmark).
Proof.
  simpl. unfold linspace_open. simpl.
  repeat (constructor; [|repeat (constructor; [vm_compute; discriminate|]);
                          constructor]).
  constructor.
Qed.

Lemma score_idx_last_level_below_witness :
  (-1 <= _get_score_idx scenario_benchmark (Some (3 # 4))
   < Z.of_nat (length (_pr_thresholds scenario_benchmark)))%Z /\
  forall i t, _pr_thresholds scenario_benchmark !! i = Some t ->
    ((t < 3 # 4)%Q <->
     (Z.of_nat i <= _get_score_idx scenario_benchmark (Some (3 # 4)))%Z).
Proof.
  exact (score_idx_last_level_below scenario_benchmark (3 # 4)
           scenario_ladder_sorted).
Defined.

(** ** A benchmark without frames *)

Lemma ratio_list_zeros n i x :
  ratio_list (replicate n 0) (replicate n 0) n !! i = Some x -> x = 1%Q.
Proof.
  intros Hx.
  assert (i < n) as Hi
      by (apply lookup_lt_Some in Hx; rewrite ratio_list_length in Hx; exact Hx).
  rewrite (ratio_list_lookup _ _ n i 0 0) in Hx;
    [|apply lookup_replicate_2; exact Hi
     |apply lookup_replicate_2; exact Hi|exact Hi].
  injection Hx as <-. reflexivity.
Qed.

(** X11: a benchmark that has just been constructed reports, for every
    tracked class and at every level, precision 1 and recall 1. *)
Theorem fresh_benchmark_reports_one geomspace py_int classes min_overlaps
    (n : nat) (min_score : Q) (scale : string) (b : ObjectBenchmark) :
  init geomspace py_int classes min_overlaps n min_score scale = Ok b ->
  exists p r,
    precision b None = Ok (Curve p) /\
    recall b None = Ok (Curve r) /\
    forall k, k ∈ _classes b ->
      p !! k = Some (replicate n 1%Q) /\ r !! k = Some (replicate n 1%Q).
Proof.
  intros Hinit.
  pose proof (init_well_shaped _ _ _ _ _ _ _ _ Hinit) as Hwf.
  destruct (precision_curve_spec b Hwf) as (p & Hp & Hpk).
  destruct (recall_curve_spec b Hwf) as (r & Hr & Hrk).
  exists p, r. split; [exact Hp|]. split; [exact Hr|].
  intros k Hk.
  destruct (proj1 (Hpk k) Hk) as (ltp & lfp & Hltp & Hlfp & ->).
  destruct (proj1 (Hrk k) Hk) as (ltp' & lfn & Hltp' & Hlfn & ->).
  unfold init in Hinit. inv_bind Hinit. inv_bind Hinit.
  injection Hinit as <-. simpl in *.
  rewrite dict_fromkeys_lookup in Hltp, Hlfp, Hltp', Hlfn.
  destruct (decide (k ∈ _)); [|discriminate].
  injection Hltp as <-. injection Hlfp as <-.
  injection Hltp' as <-. injection Hlfn as <-.
  assert (Hall : ratio_list (replicate n 0) (replicate n 0) n
                 = replicate n 1%Q).
  { apply list_eq. intros i.
    destruct (decide (i < n)) as [Hi|Hi].
    - rewrite (lookup_replicate_2 n 1%Q i Hi).
      destruct (lookup_lt_is_Some_2 (ratio_list (replicate n 0)
                                       (replicate n 0) n) i) as [x Hx];
        [rewrite ratio_list_length; exact Hi|].
      rewrite Hx. f_equal. eapply ratio_list_zeros. exact Hx.
    - rewrite !(proj2 (lookup_ge_None _ _));
        rewrite ?ratio_list_length, ?length_replicate; [reflexivity|lia|lia]. }
  rewrite Hall. auto.
Qed.

Lemma fresh_benchmark_reports_one_witness :
  exists p r,
    precision scenario_benchmark None = Ok (Curve p) /\
    recall scenario_benchmark None = Ok (Curve r) /\
    forall k, k ∈ _classes scenario_benchmark ->
      p !! k = Some (replicate 4 1%Q) /\ r !! k = Some (replicate 4 1%Q).
Proof.
  exact (fresh_benchmark_reports_one geomspace_pow2 int_decimal (Many [car])
           (One (1 # 2)) 4 0 "lin" scenario_benchmark scenario_init_eq).
Defined.

(** ** What merging adds *)

Lemma merge_table_other (s d : gmap nat (list nat)) j k :
  j <> k -> merge_table s d j !! k = d !! k.
Proof.
  intros Hne. unfold merge_table. destruct (s !! j); [|reflexivity].
  apply lookup_alter_ne. exact Hne.
Qed.

Lemma merge_count_other (s d : gmap nat nat) j k :
  j <> k -> merge_count s d j !! k = d !! k.
Proof.
  intros Hne. unfold merge_count. destruct (s !! j); [|reflexivity].
  apply lookup_alter_ne. exact Hne.
Qed.

Lemma merge_tables_skip (s d : gmap nat (list nat)) ks k :
  k ∉ ks -> foldl (merge_table s) d ks !! k = d !! k.
Proof.
  revert d; induction ks as [|j ks IH]; intros d Hk; [reflexivity|].
  apply not_elem_of_cons in Hk as [Hne Hk]. simpl.
  rewrite IH by exact Hk. apply merge_table_other. congruence.
Qed.

Lemma merge_counts_skip (s d : gmap nat nat) ks k :
  k ∉ ks -> foldl (merge_count s) d ks !! k = d !! k.
Proof.
  revert d; induction ks as [|j ks IH]; intros d Hk; [reflexivity|].
  apply not_elem_of_cons in Hk as [Hne Hk]. simpl.
  rewrite IH by exact Hk. apply merge_count_other. congruence.
Qed.

Lemma merge_tables_once (s d : gmap nat (list nat)) ks k l sl :
  NoDup ks -> k ∈ ks -> d !! k = Some l -> s !! k = Some sl ->
  foldl (merge_table s) d ks !! k = Some (zip_with Nat.add l sl).
Proof.
  intros Hnd. revert d; induction Hnd as [|j ks Hj Hnd IH];
    intros d Hk Hl Hsl.
  - apply elem_of_nil in Hk. contradiction.
  - simpl. destruct (decide (j = k)) as [->|Hne].
    + rewrite merge_tables_skip by exact Hj.
      unfold merge_table. rewrite Hsl, lookup_alter_eq, Hl. reflexivity.
    + apply elem_of_cons in Hk as [->|Hk]; [congruence|].
      apply IH; [exact Hk| |exact Hsl].
      rewrite merge_table_other by exact Hne. exact Hl.
Qed.

Lemma merge_counts_once (s d : gmap nat nat) ks k x y :
  NoDup ks -> k ∈ ks -> d !! k = Some x -> s !! k = Some y ->
  foldl (merge_count s) d ks !! k = Some (x + y).
Proof.
  intros Hnd. revert d; induction Hnd as [|j ks Hj Hnd IH];
    intros d Hk Hx Hy.
  - apply elem_of_nil in Hk. contradiction.
  - simpl. destruct (decide (j = k)) as [->|Hne].
    + rewrite merge_counts_skip by exact Hj.
      unfold merge_count. rewrite Hy, lookup_alter_eq, Hx. reflexivity.
    + apply elem_of_cons in Hk as [->|Hk]; [congruence|].
      apply IH; [exact Hk| |exact Hy].
      rewrite merge_count_other by exact Hne. exact Hx.
Qed.

Lemma level_of_merged (s d : gmap nat (list nat)) ks k i x y :
  NoDup ks -> k ∈ ks ->
  level_of d i k = Some x -> level_of s i k = Some y ->
  level_of (foldl (merge_table s) d ks) i k = Some (x + y).
Proof.
  intros Hnd Hk Hx Hy. unfold level_of in *.
  destruct (d !! k) as [l|] eqn:Hl; [|discriminate].
  destruct (s !! k) as [sl|] eqn:Hsl; [|discriminate].
  simpl in Hx, Hy.
  rewrite (merge_tables_once s d ks k l sl Hnd Hk Hl Hsl). simpl.
  apply lookup_zip_with_Some. eauto.
Qed.

(** X12: when no class is listed twice, [add_stats] on tables and frame
    statistics of the benchmark's shape returns a benchmark with the same
    configuration in which every cell of every table is the previous cell
    plus the frame's cell, and every ground-truth total is the previous
    total plus the frame's count. *)
Theorem add_stats_adds_cellwise (b : ObjectBenchmark) (f : FrameStats) :
  well_shaped b ->
  stats_shaped (_classes b) (_pr_nsamples b) f ->
  NoDup (_classes b) ->
  exists b',
    add_stats f b = Ok b' /\
    _classes b' = _classes b /\ _min_overlaps b' = _min_overlaps b /\
    _pr_nsamples b' = _pr_nsamples b /\ _min_score b' = _min_score b /\
    _pr_thresholds b' = _pr_thresholds b /\
    forall k, k ∈ _classes b ->
      (forall x y, _total_gt b !! k = Some x -> st_ngt f !! k = Some y ->
                   _total_gt b' !! k = Some (x + y)) /\
      (forall i x y,
         level_of (_total_dt b) i k = Some x ->
         level_of (st_ndt f) i k = Some y ->
         level_of (_total_dt b') i k = Some (x + y)) /\
      (forall i x y,
         level_of (_tp b) i k = Some x -> level_of (st_tp f) i k = Some y ->
         level_of (_tp b') i k = Some (x + y)) /\
      (forall i x y,
         level_of (_fp b) i k = Some x -> level_of (st_fp f) i k = Some y ->
         level_of (_fp b') i k = Some (x + y)) /\
      (forall i x y,
         level_of (_fn b) i k = Some x -> level_of (st_fn f) i k = Some y ->
         level_of (_fn b') i k = Some (x + y)).
Proof.
  intros Hwf Hsh Hnd.
  exists (merged_on (_classes b) f b).
  split; [apply add_stats_merged; assumption|].
  do 5 (split; [reflexivity|]).
  intros k Hk. unfold merged_on. simpl.
  split; [|split; [|split; [|split]]].
  - intros x y Hx Hy. apply merge_counts_once; assumption.
  - intros i x y. apply level_of_merged; assumption.
  - intros i x y. apply level_of_merged; assumption.
  - intros i x y. apply level_of_merged; assumption.
  - intros i x y. apply level_of_merged; assumption.
Qed.

Lemma scenario_benchmark_well_shaped : well_shaped scenario_benchmark.
Proof. exact (proj1 (reachable_inv _ _ _ scenario_benchmark_reachable)). Qed.

Lemma add_stats_adds_cellwise_witness :
  exists b',
    add_stats scenario_frame scenario_merged_benchmark = Ok b' /\
    level_of (_tp b') 0 car = Some (2 + 2).
Proof.
  destruct (add_stats_adds_cellwise scenario_merged_benchmark scenario_frame)
    as (b' & Hb' & _ & _ & _ & _ & _ & Hcells).
  - exact scenario_merged_well_shaped.
  - exact (proj1 (get_stats_inv _ _ _ _ _ scenario_frame_eq)).
  - simpl. apply NoDup_singleton.
  - exists b'. split; [exact Hb'|].
    destruct (Hcells car) as (_ & _ & Htp & _); [left|].
    apply Htp; reflexivity.
Defined.

(** ** The assignment is a partial matching *)

Lemma assign_box_mirrored levels g d (da ga da' ga' : list (gmap nat nat)) :
  assign_box levels g d da ga = Ok (da', ga') ->
  length da = length ga ->
  (forall i, assigned ga g i = false) ->
  mirrored da ga -> mirrored da' ga'.
Proof.
  intros Hrun Hlen Hfresh Hmir i md' mg' Hmd' Hmg' d0 g0.
  destruct (assign_box_spec _ _ _ _ _ _ _ Hrun Hlen)
    as (L1 & L2 & _ & Hda & Hga).
  destruct (lookup_lt_is_Some_2 da i) as [md Hmd];
    [rewrite <- L1; eapply lookup_lt_Some; eassumption|].
  destruct (lookup_lt_is_Some_2 ga i) as [mg Hmg];
    [rewrite <- L2; eapply lookup_lt_Some; eassumption|].
  rewrite (Hda i md Hmd) in Hmd'. injection Hmd' as <-.
  rewrite (Hga i md mg Hmd Hmg) in Hmg'. injection Hmg' as <-.
  pose proof (Hmir i md mg Hmd Hmg) as Hold.
  assert (Hg : mg !! g = None).
  { specialize (Hfresh i). unfold assigned in Hfresh. rewrite Hmg in Hfresh.
    apply bool_decide_eq_false in Hfresh. apply not_is_Some_None. exact Hfresh. }
  destruct (decide (i ∈ levels /\ md !! d = None)) as [[_ Hd]|_];
    [|apply Hold].
  rewrite !lookup_insert.
  destruct (decide (d = d0)) as [<-|Hd0], (decide (g = g0)) as [<-|Hg0].
  - split; reflexivity.
  - split; [congruence|]. intros H. apply Hold in H. congruence.
  - split; [|congruence]. intros H. apply Hold in H. congruence.
  - apply Hold.
Qed.

Lemma scan_mirrored self iou dt_boxes order g tag
    (da ga da' ga' : list (gmap nat nat)) :
  scan self iou dt_boxes order g tag da ga = Ok (da', ga') ->
  length da = length ga ->
  (forall i, assigned ga g i = false) ->
  mirrored da ga -> mirrored da' ga'.
Proof.
  intros Hscan Hlen Hfresh Hmir.
  destruct (scan_spec _ _ _ _ _ _ _ _ _ _ Hscan)
    as [(-> & -> & _)|(d & _ & Hassign)]; [exact Hmir|].
  eapply assign_box_mirrored; eassumption.
Qed.

Lemma gt_loop_mirrored self iou gt_boxes dt_boxes (s : locals) :
  gt_loop self iou gt_boxes dt_boxes = Ok s ->
  mirrored (dt_assignment s) (gt_assignment s).
Proof.
  unfold gt_loop. intros Hrun.
  assert (gt_inv self iou gt_boxes dt_boxes (dt_order dt_boxes)
            (length gt_boxes) s /\
          mirrored (dt_assignment s) (gt_assignment s)) as [_ H]; [|exact H].
  eapply (for_each_seq_inv
            (fun j a => gt_inv self iou gt_boxes dt_boxes (dt_order dt_boxes) j a
                        /\ mirrored (dt_assignment a) (gt_assignment a)));
    [| |exact Hrun].
  - intros j a a' _ [Hinv Hmir] Hbody.
    split; [eapply gt_body_inv; eassumption|].
    destruct Hinv as (Hsh & _ & _ & Hfresh & _).
    destruct (gt_body_spec _ _ _ _ _ _ _ _ Hsh Hbody)
      as [->|(box & da' & ga' & ltp & lfn & n & _ & _ & Hscan & _ & _ & _ & _
              & _ & _ & _ & ->)]; [exact Hmir|].
    simpl. destruct Hsh as (_ & _ & _ & _ & _ & Lda & Lga).
    eapply scan_mirrored; [exact Hscan|congruence| |exact Hmir].
    intros i. destruct (assigned (gt_assignment a) j i) eqn:E; [|reflexivity].
    apply Hfresh in E. lia.
  - split; [apply fresh_locals_inv|].
    intros i md mg Hmd Hmg d g. simpl in Hmd, Hmg.
    apply lookup_replicate in Hmd as [-> _].
    apply lookup_replicate in Hmg as [-> _].
    rewrite !lookup_empty. split; discriminate.
Qed.

Lemma dt_loop_same_matching self dt_boxes (l : list nat) (s0 s : locals) :
  locals_shaped self s0 ->
  for_each l (dt_body self dt_boxes) s0 = Ok s ->
  locals_shaped self s /\ same_matching s0 s.
Proof.
  intros Hsh Hrun.
  eapply (for_each_inv (fun x => locals_shaped self x /\ same_matching s0 x));
    [|split; [exact Hsh|repeat split]|exact Hrun].
  intros d x x' _ Hx Hstep. eapply dt_body_keeps; eassumption.
Qed.

(** X13: at the return of the matcher the two assignment tables mirror each
    other at every level: a detection is assigned to a ground truth exactly
    when that ground truth is assigned to it, so no detection serves two
    ground truths at one level. *)
Theorem assignment_is_partial_matching self iou gt_boxes dt_boxes
    (s : locals) (level : nat) (md mg : gmap nat nat) :
  get_stats_locals self iou gt_boxes dt_boxes = Ok s ->
  dt_assignment s !! level = Some md ->
  gt_assignment s !! level = Some mg ->
  (forall d g, md !! d = Some g <-> mg !! g = Some d) /\
  (forall g g' d, mg !! g = Some d -> mg !! g' = Some d -> g = g').
Proof.
  unfold get_stats_locals. intros Hrun Hmd Hmg. inv_bind Hrun.
  pose proof (gt_loop_mirrored _ _ _ _ _ E) as Hmir.
  destruct (gt_loop_inv _ _ _ _ _ E) as (Hsh & _).
  destruct (dt_loop_same_matching _ _ _ _ _ Hsh Hrun)
    as (_ & _ & _ & _ & Hda & Hga).
  rewrite Hda in Hmd. rewrite Hga in Hmg.
  pose proof (Hmir level md mg Hmd Hmg) as H.
  split; [exact H|].
  intros g g' d Hg Hg'. apply H in Hg, Hg'. congruence.
Qed.

Lemma assignment_is_partial_matching_witness :
  exists s md mg,
    get_stats_locals scenario_benchmark (scenario_iou 0 0)
      (boxes scenario_gt) (boxes scenario_dt) = Ok s /\
    dt_assignment s !! 0 = Some md /\ gt_assignment s !! 0 = Some mg /\
    (forall d g, md !! d = Some g <-> mg !! g = Some d) /\
    (forall g g' d, mg !! g = Some d -> mg !! g' = Some d -> g = g').
Proof.
  destruct (get_stats_locals scenario_benchmark (scenario_iou 0 0)
              (boxes scenario_gt) (boxes scenario_dt)) as [s|e] eqn:Hs;
    [|vm_compute in Hs; discriminate].
  destruct (dt_assignment s !! 0) as [md|] eqn:Hmd;
    [|vm_compute in Hs; injection Hs as <-; vm_compute in Hmd; discriminate].
  destruct (gt_assignment s !! 0) as [mg|] eqn:Hmg;
    [|vm_compute in Hs; injection Hs as <-; vm_compute in Hmg; discriminate].
  exists s, md, mg. split; [reflexivity|].
  split; [exact Hmd|]. split; [exact Hmg|].
  exact (assignment_is_partial_matching scenario_benchmark (scenario_iou 0 0)
           (boxes scenario_gt) (boxes scenario_dt) s 0 md mg Hs Hmd Hmg).
Defined.

(** ** Frames without overlap *)

Lemma no_overlap_not_acceptable self iou dt_boxes g tag d :
  no_overlap self iou dt_boxes -> ~ acceptable self iou dt_boxes g tag d.
Proof.
  intros Hno (box & t & Hbox & Htag & Ht & Hlt).
  subst tag. specialize (Hno g d box t Hbox Ht).
  eapply Qlt_not_le; eassumption.
Qed.

Lemma bump_never p j (l : list nat) :
  (forall i, p i = false) -> bump p j l = l.
Proof.
  intros Hp. apply list_eq. intros i. rewrite bump_lookup, Hp, andb_false_r.
  destruct (l !! i); reflexivity.
Qed.

Lemma gt_loop_no_overlap self iou gt_boxes dt_boxes (s : locals) :
  no_overlap self iou dt_boxes ->
  gt_loop self iou gt_boxes dt_boxes = Ok s ->
  forall k l i t, l_tp s !! k = Some l -> l !! i = Some t -> t = 0.
Proof.
  intros Hno. unfold gt_loop. intros Hrun.
  assert (locals_shaped self s /\
          (forall x i, assigned (gt_assignment s) x i = false) /\
          forall k l i t, l_tp s !! k = Some l -> l !! i = Some t -> t = 0)
    as (_ & _ & H); [|exact H].
  eapply (for_each_inv
            (fun a => locals_shaped self a /\
                      (forall x i, assigned (gt_assignment a) x i = false) /\
                      forall k l i t,
                        l_tp a !! k = Some l -> l !! i = Some t -> t = 0));
    [| |exact Hrun].
  - intros j a a' _ (Hsh & Hnone & Hzero) Hbody.
    pose proof Hsh as (_ & _ & _ & _ & _ & Lda & Lga).
    destruct (gt_body_spec _ _ _ _ _ _ _ _ Hsh Hbody)
      as [->|(box & da' & ga' & ltp & lfn & n & Hbox & Hcls & Hscan & L1 & L2
              & Hltp & Hlfn & Hn & Lt & Lf & ->)]; [auto|].
    destruct (scan_spec _ _ _ _ _ _ _ _ _ _ Hscan)
      as [(-> & -> & _)|(d & (pre & post & _ & _ & Hacc) & _)];
      [|exfalso; eapply no_overlap_not_acceptable; eassumption].
    destruct Hsh as (Htp & Hfp & Hfn & Hngt & Hndt & _ & _).
    split; [|split]; simpl.
    + split; [|split; [|split; [|split; [|split; [|split]]]]]; simpl;
        try assumption.
      * eapply shaped_insert; [eassumption|eassumption|].
        rewrite bump_length. assumption.
      * eapply shaped_insert; [eassumption|eassumption|].
        rewrite bump_length. assumption.
      * eapply keyed_insert; eassumption.
    + exact Hnone.
    + intros k l i t. rewrite lookup_insert.
      destruct (decide (tag_top box = k)) as [<-|Hne]; [|apply Hzero].
      intros [= <-]. rewrite bump_never by apply Hnone.
      apply (Hzero _ _ _ _ Hltp).
  - split; [apply fresh_locals_shaped|]. split.
    + intros x i. simpl. destruct (assigned _ x i) eqn:E; [|reflexivity].
      apply assigned_true in E as (m & Hm & [y Hy]).
      apply lookup_replicate in Hm as [-> _].
      rewrite lookup_empty in Hy. discriminate.
    + intros k l i t. simpl. rewrite dict_fromkeys_lookup.
      destruct (decide _); [|discriminate]. intros [= <-] Ht.
      apply lookup_replicate in Ht as [-> _]. reflexivity.
Qed.

(** X14: when every IoU entry of every detection is at most the threshold of
    the detection's class, the statistics of the frame count no true
    positive at any level, and at every level the false negatives of a class
    are all its ground truths. *)
Theorem no_overlap_no_true_positive self iou gt_boxes dt_boxes
    (f : FrameStats) k (ltp lfn : list nat) (n i t m : nat) :
  no_overlap self iou (boxes dt_boxes) ->
  get_stats self iou gt_boxes dt_boxes = Ok f ->
  st_tp f !! k = Some ltp -> st_fn f !! k = Some lfn ->
  st_ngt f !! k = Some n ->
  ltp !! i = Some t -> lfn !! i = Some m ->
  t = 0 /\ m = n.
Proof.
  intros Hno Hrun Htp Hfn Hn Ht Hm.
  pose proof (proj2 (get_stats_inv _ _ _ _ _ Hrun) _ _ _ _ Htp Hfn Hn)
    as [Hbal _].
  specialize (Hbal i t m Ht Hm).
  assert (t = 0) as ->; [|split; [reflexivity|lia]].
  unfold get_stats in Hrun. destruct (decide _); [|discriminate].
  inv_bind Hrun. injection Hrun as <-. simpl in *.
  unfold get_stats_locals in E. inv_bind E.
  destruct (gt_loop_inv _ _ _ _ _ E0) as (Hsh & _).
  destruct (dt_loop_same_matching _ _ _ _ _ Hsh E) as (_ & Hsame & _).
  rewrite Hsame in Htp.
  eapply (gt_loop_no_overlap _ _ _ _ _ Hno E0); eassumption.
Qed.

Lemma no_overlap_no_true_positive_witness : 0 = 0 /\ 1 = 1.
Proof.
  apply (no_overlap_no_true_positive scenario_benchmark (fun _ _ => 0%Q)
           missed_gt missed_dt missed_frame car
           [0; 0; 0; 0] [1; 1; 1; 1] 1 2 0 1).
  - intros g d box t Hbox Ht.
    destruct (decide (tag_top box = car)) as [Hc|Hc].
    + rewrite Hc in Ht. vm_compute in Ht. injection Ht as <-.
      vm_compute. discriminate.
    + simpl in Ht. rewrite lookup_singleton_ne in Ht by congruence.
      discriminate.
  - exact missed_frame_eq.
  - reflexivity.
  - reflexivity.
  - reflexivity.
  - reflexivity.
  - reflexivity.
Defined.

(** ** False positives and detections observed *)

Lemma add_at_spec (d d' : gmap nat (list nat)) k i n :
  add_at d k i n = Ok d' ->
  exists l x, d !! k = Some l /\ l !! i = Some x /\
              d' = <[k := <[i := x + n]> l]> d.
Proof.
  unfold add_at, dict_get, getitem. intros H.
  destruct (d !! k) as [l|]; [|discriminate]. simpl in H.
  destruct (l !! i) as [x|] eqn:Hx; [|discriminate].
  injection H as <-. eauto.
Qed.

Lemma table_le_bump_right (a c : gmap nat (list nat)) k i l y :
  table_le a c -> c !! k = Some l -> l !! i = Some y ->
  table_le a (<[k := <[i := y + 1]> l]> c).
Proof.
  intros Hle Hl Hy j la lc i0 x y0 Hla. rewrite lookup_insert.
  destruct (decide (k = j)) as [<-|Hne]; [|apply Hle; exact Hla].
  intros [= <-] Hx. rewrite list_lookup_insert.
  destruct (decide (i = i0)) as [<-|Hi].
  - rewrite decide_True by (split; [reflexivity|eapply lookup_lt_Some; eassumption]).
    intros [= <-]. specialize (Hle _ _ _ _ _ _ Hla Hl Hx Hy). lia.
  - rewrite decide_False by (intros [? _]; congruence).
    intros Hy0. exact (Hle _ _ _ _ _ _ Hla Hl Hx Hy0).
Qed.

Lemma table_le_bump_both (a c : gmap nat (list nat)) k i la lc x y :
  a !! k = Some la -> la !! i = Some x ->
  c !! k = Some lc -> lc !! i = Some y ->
  table_le a c ->
  table_le (<[k := <[i := x + 1]> la]> a) (<[k := <[i := y + 1]> lc]> c).
Proof.
  intros Hla Hx Hlc Hy Hle j la' lc' i0 x0 y0. rewrite !lookup_insert.
  destruct (decide (k = j)) as [<-|Hne]; [|apply Hle].
  intros [= <-] [= <-]. rewrite !list_lookup_insert.
  destruct (decide (i = i0)) as [<-|Hi].
  - rewrite !decide_True
      by (split; [reflexivity|eapply lookup_lt_Some; eassumption]).
    intros [= <-] [= <-]. specialize (Hle _ _ _ _ _ _ Hla Hlc Hx Hy). lia.
  - rewrite !decide_False by (intros [? _]; congruence).
    intros Hx0 Hy0. exact (Hle _ _ _ _ _ _ Hla Hlc Hx0 Hy0).
Qed.

Lemma count_dt_table_le d tag i (s s' : locals) :
  table_le (l_fp s) (l_ndt s) ->
  count_dt d tag i s = Ok s' ->
  table_le (l_fp s') (l_ndt s').
Proof.
  intros Hle Hrun. unfold count_dt in Hrun. inv_bind Hrun.
  apply add_at_spec in E as (lndt & y & Hlndt & Hy & ->).
  inv_bind Hrun.
  destruct (decide (is_Some (_ !! d))).
  - injection Hrun as <-. simpl. eapply table_le_bump_right; eassumption.
  - apply bind_Ok in Hrun as (fp' & Hfp' & Hrun). injection Hrun as <-. simpl.
    apply add_at_spec in Hfp' as (lfp & x & Hlfp & Hx & ->).
    eapply table_le_bump_both; eassumption.
Qed.

Lemma gt_loop_keeps_fp_ndt self iou gt_boxes dt_boxes (s : locals) :
  gt_loop self iou gt_boxes dt_boxes = Ok s ->
  l_fp s = l_fp (fresh_locals self) /\ l_ndt s = l_ndt (fresh_locals self).
Proof.
  unfold gt_loop. intros Hrun.
  assert (locals_shaped self s /\
          l_fp s = l_fp (fresh_locals self) /\
          l_ndt s = l_ndt (fresh_locals self)) as [_ H]; [|exact H].
  eapply (for_each_inv
            (fun a => locals_shaped self a /\
                      l_fp a = l_fp (fresh_locals self) /\
                      l_ndt a = l_ndt (fresh_locals self)));
    [| |exact Hrun].
  - intros j a a' _ (Hsh & Hfp & Hndt) Hbody.
    assert (gt_inv_shape : locals_shaped self a') .
    { destruct (gt_body_spec _ _ _ _ _ _ _ _ Hsh Hbody)
        as [->|(box & da' & ga' & ltp & lfn & n & _ & _ & _ & L1 & L2 & Hltp
                & Hlfn & Hn & Lt & Lf & ->)]; [exact Hsh|].
      destruct Hsh as (Htp & Hfp' & Hfn & Hngt & Hndt' & _ & _).
      split; [|split; [|split; [|split; [|split; [|split]]]]]; simpl;
        try assumption.
      - eapply shaped_insert; [eassumption|eassumption|].
        rewrite bump_length. assumption.
      - eapply shaped_insert; [eassumption|eassumption|].
        rewrite bump_length. assumption.
      - eapply keyed_insert; eassumption. }
    split; [exact gt_inv_shape|].
    destruct (gt_body_spec _ _ _ _ _ _ _ _ Hsh Hbody)
      as [->|(box & da' & ga' & ltp & lfn & n & _ & _ & _ & _ & _ & _ & _ & _
              & _ & _ & ->)]; auto.
  - split; [apply fresh_locals_shaped|]. auto.
Qed.

(** X15: in the statistics of a frame, at every level the false positives
    of a class are at most its detections observed. *)
Theorem get_stats_fp_le_ndt self iou gt_boxes dt_boxes (f : FrameStats)
    k (lfp lndt : list nat) (i x y : nat) :
  get_stats self iou gt_boxes dt_boxes = Ok f ->
  st_fp f !! k = Some lfp -> st_ndt f !! k = Some lndt ->
  lfp !! i = Some x -> lndt !! i = Some y ->
  x <= y.
Proof.
  intros Hrun Hlfp Hlndt Hx Hy.
  unfold get_stats in Hrun. destruct (decide _); [|discriminate].
  inv_bind Hrun. injection Hrun as <-. simpl in *.
  unfold get_stats_locals in E. inv_bind E.
  destruct (gt_loop_keeps_fp_ndt _ _ _ _ _ E0) as [Hfp0 Hndt0].
  assert (table_le (l_fp a) (l_ndt a)) as Hle.
  { eapply (for_each_inv (fun s => table_le (l_fp s) (l_ndt s)));
      [| |exact E].
    - intros d s s' _ Hs Hbody. unfold dt_body in Hbody. inv_bind Hbody.
      destruct (decide _); [|injection Hbody as <-; exact Hs].
      eapply (for_each_inv (fun s => table_le (l_fp s) (l_ndt s)));
        [|exact Hs|exact Hbody].
      intros lvl u u' _ Hu Hstep. eapply count_dt_table_le; eassumption.
    - rewrite Hfp0, Hndt0. simpl.
      intros j la lc i0 x0 y0. rewrite !dict_fromkeys_lookup.
      destruct (decide _); [|discriminate].
      intros [= <-] [= <-] Hx0 Hy0.
      apply lookup_replicate in Hx0 as [-> _]. lia. }
  exact (Hle _ _ _ _ _ _ Hlfp Hlndt Hx Hy).
Qed.

Lemma get_stats_fp_le_ndt_witness : 1 <= 1.
Proof.
  apply (get_stats_fp_le_ndt scenario_benchmark (fun _ _ => 0%Q)
           missed_gt missed_dt missed_frame car
           [1; 1; 1; 0] [1; 1; 1; 0] 1 1 1 missed_frame_eq);
    reflexivity.
Defined.

(** ** When the matcher returns *)

Lemma for_each_total {A St} (P : St -> Prop) (l : list A)
    (f : A -> St -> result St) (s : St) :
  P s ->
  (forall x a, x ∈ l -> P a -> exists a', f x a = Ok a' /\ P a') ->
  exists s', for_each l f s = Ok s' /\ P s'.
Proof.
  revert s; induction l as [|x l IH]; intros s Hs Hstep; simpl.
  - eauto.
  - destruct (Hstep x s) as (a' & Ha' & Pa'); [left|exact Hs|].
    rewrite Ha'. simpl. apply IH; [exact Pa'|].
    intros y a Hy. apply Hstep. right. exact Hy.
Qed.



Lemma dt_order_valid (dt_boxes : list ObjectTarget3D) d :
  d ∈ dt_order dt_boxes <-> d < length dt_boxes.
Proof.
  rewrite (proj1 (dt_order_spec dt_boxes)), elem_of_seq. lia.
Qed.






(** ** A class without a threshold *)

Lemma scan_missing_threshold self iou dt_boxes order g tag
    (da ga : list (gmap nat nat)) :
  _min_overlaps self !! tag = None ->
  (forall d, d ∈ order -> d < length dt_boxes) ->
  (exists d box, d ∈ order /\ dt_boxes !! d = Some box /\ tag_top box = tag) ->
  scan self iou dt_boxes order g tag da ga = Raise KeyError.
Proof.
  intros Hnone Hord (d0 & box0 & Hd0 & Hbox0 & Htag0).
  induction order as [|d order IH]; [apply elem_of_nil in Hd0; contradiction|].
  simpl.
  destruct (lookup_lt_is_Some_2 dt_boxes d) as [box Hbox];
    [apply Hord; left|].
  unfold getitem. rewrite Hbox. simpl.
  destruct (decide (tag_top box ≠ tag)) as [Hne|Heq].
  - apply IH.
    + intros j Hj. apply Hord. right. exact Hj.
    + apply elem_of_cons in Hd0 as [->|Hd0]; [congruence|exact Hd0].
  - unfold dict_get. rewrite Hnone. reflexivity.
Qed.

(** X17: when the first ground truth has a tracked class that has no IoU
    threshold (the constructor accepts a threshold list shorter than the
    class list) and some detection has the same class, the matcher fails
    with a [KeyError]. *)
Theorem get_stats_missing_threshold self iou (fr : nat)
    (box : ObjectTarget3D) (gt_rest dt_boxes : list ObjectTarget3D) :
  tag_top box ∈ _classes self ->
  _min_overlaps self !! tag_top box = None ->
  (exists d box', dt_boxes !! d = Some box' /\ tag_top box' = tag_top box) ->
  get_stats self iou {| frame := fr; boxes := box :: gt_rest |}
                     {| frame := fr; boxes := dt_boxes |}
  = Raise KeyError.
Proof.
  intros Hcls Hnone (d & box' & Hbox' & Htag).
  unfold get_stats. simpl.
  destruct (decide (fr = fr)) as [_|Hne]; [|congruence].
  assert (Hbody : gt_body self iou (box :: gt_rest) dt_boxes
                    (dt_order dt_boxes) 0 (fresh_locals self)
                  = Raise KeyError).
  { unfold gt_body.
    replace (getitem (box :: gt_rest) 0) with (Ok box) by reflexivity.
    cbn beta iota delta [mbind result_bind].
    destruct (decide (tag_top box ∈ _classes self)) as [_|Hn];
      [|contradiction].
    rewrite (scan_missing_threshold self iou dt_boxes (dt_order dt_boxes) 0
               (tag_top box)); [reflexivity|exact Hnone| |].
    - intros j Hj. apply dt_order_valid. exact Hj.
    - exists d, box'. split; [|auto].
      apply dt_order_valid. eapply lookup_lt_Some. exact Hbox'. }
  unfold get_stats_locals, gt_loop.
  change (seq 0 (length (box :: gt_rest))) with (0 :: seq 1 (length gt_rest)).
  cbn [for_each]. rewrite Hbody. reflexivity.
Qed.

Lemma short_overlaps_init :
  init geomspace_pow2 int_decimal (Many [0; 1]) (Many [1 # 2]) 4 0 "lin"
  = Ok short_overlaps_benchmark.
Proof. vm_compute. reflexivity. Qed.

Lemma get_stats_missing_threshold_witness :
  get_stats short_overlaps_benchmark (fun _ _ => 1%Q)
    {| frame := 0; boxes := [ {| tag_top := 1; tag_score := 1 |} ] |}
    {| frame := 0; boxes := [ {| tag_top := 1; tag_score := 1 # 2 |} ] |}
  = Raise KeyError.
Proof.
  apply (get_stats_missing_threshold short_overlaps_benchmark (fun _ _ => 1%Q)
           0 {| tag_top := 1; tag_score := 1 |} []
           [ {| tag_top := 1; tag_score := 1 # 2 |} ]).
  - simpl. right. left.
  - reflexivity.
  - exists 0, {| tag_top := 1; tag_score := 1 # 2 |}. split; reflexivity.
Defined.

(** ** Average precision *)







(** The average precision of the merged scenario: the recall curve is
    [1, 1, 0.5, 0.5] and the precision is 1 at every level, which gives the
    area 0.5. *)
Example ap_scenario :
  exists a v, ap scenario_merged_benchmark = Ok a /\
              a !! car = Some v /\ (v == 1 # 2)%Q.
Proof.
  eexists _, _. split; [vm_compute; reflexivity|].
  split; [vm_compute; reflexivity|]. reflexivity.
Qed.

(** * Object tags *)

Lemma list_comp_Ok {A B} (l : list A) (f : A -> result B) (ys : list B) :
  list_comp l f = Ok ys <-> Forall2 (fun x y => f x = Ok y) l ys.
Proof.
  revert ys; induction l as [|x l IH]; intros ys; simpl.
  - split; [intros [= <-]; constructor | intros H; inversion H; reflexivity].
  - split.
    + intros H. apply bind_Ok in H as (y & Hy & H).
      apply bind_Ok in H as (ys' & Hys & H). injection H as <-.
      constructor; [exact Hy | apply IH, Hys].
    + intros H. inversion H as [|? y ? ys' Hy Hys]; subst.
      rewrite Hy. simpl. apply IH in Hys. rewrite Hys. reflexivity.
Qed.

Lemma list_comp_Raise {A B} (l : list A) (f : A -> result B) (e : exn) :
  list_comp l f = Raise e -> exists x, x ∈ l /\ f x = Raise e.
Proof.
  induction l as [|a l IH]; simpl; [discriminate|]. intros H.
  apply bind_Raise in H as [H|(y & Hy & H)].
  - exists a. split; [left|exact H].
  - apply bind_Raise in H as [H|(ys & Hys & H)]; [|discriminate].
    destruct (IH H) as (x & Hx & Hfx). exists x. split; [right|]; assumption.
Qed.

Lemma list_comp_total {A B} (l : list A) (f : A -> result B) :
  (forall x, x ∈ l -> exists y, f x = Ok y) ->
  exists ys, list_comp l f = Ok ys.
Proof.
  induction l as [|a l IH]; intros Hf; simpl; [eauto|].
  destruct (Hf a) as [y Hy]; [left|]. rewrite Hy. simpl.
  destruct IH as [ys Hys]; [intros x Hx; apply Hf; right; exact Hx|].
  rewrite Hys. simpl. eauto.
Qed.

Lemma list_comp_length {A B} (l : list A) (f : A -> result B) (ys : list B) :
  list_comp l f = Ok ys -> length ys = length l.
Proof.
  intros H. apply list_comp_Ok in H. symmetry. eapply Forall2_length, H.
Qed.

Section TagProps.

Context {member : Type}.

Lemma convert_at (m : Enum member) (pre suf : list (label member)) l :
  convert m (length pre) (pre ++ l :: suf)
  = (l' ← resolve m l; Ok ((pre ++ [l']) ++ suf)).
Proof.
  unfold convert, getitem. rewrite lookup_app_r by lia.
  rewrite Nat.sub_diag. cbn [lookup list_lookup of_option mbind result_bind].
  assert (Hins : forall e,
            <[length pre := LMember e]> (pre ++ l :: suf)
            = (pre ++ [LMember e]) ++ suf).
  { intros e. rewrite insert_app_r_alt by lia.
    rewrite Nat.sub_diag. simpl. rewrite <- app_assoc. reflexivity. }
  destruct l as [s|v|e]; cbn [resolve].
  - destruct (by_name m s) as [e|]; [|reflexivity].
    cbn [of_option mbind result_bind]. rewrite Hins. reflexivity.
  - destruct (by_value m v) as [e|]; [|reflexivity].
    cbn [of_option mbind result_bind]. rewrite Hins. reflexivity.
  - cbn [mbind result_bind]. rewrite <- app_assoc. reflexivity.
Qed.

(** The conversion loop replaces every label by what [resolve] gives, and
    raises what the first label that does not resolve raises. *)
Lemma convert_loop_from (m : Enum member) (suf pre : list (label member)) :
  for_each (seq (length pre) (length suf)) (convert m) (pre ++ suf)
  = (suf' ← list_comp suf (resolve m); Ok (pre ++ suf')).
Proof.
  revert pre; induction suf as [|l suf IH]; intros pre.
  - reflexivity.
  - cbn [length seq for_each list_comp]. rewrite convert_at.
    destruct (resolve m l) as [l'|e]; [|reflexivity].
    cbn [mbind result_bind].
    replace (S (length pre)) with (length (pre ++ [l']))
      by (rewrite length_app; simpl; lia).
    rewrite IH.
    destruct (list_comp suf (resolve m)); [|reflexivity].
    cbn [mbind result_bind]. rewrite <- app_assoc. reflexivity.
Qed.

Lemma convert_loop (m : Enum member) (ls : list (label member)) :
  for_each (seq 0 (length ls)) (convert m) ls = list_comp ls (resolve m).
Proof.
  pose proof (convert_loop_from m ls []) as H. simpl in H. rewrite H.
  destruct (list_comp ls (resolve m)); reflexivity.
Qed.

Lemma ObjectTag_init_eq (args : tag_args member) (m : Enum member) :
  ObjectTag_init args (Some m)
  = (ss ← of_option ValueError (args_scores args);
     lsc ← list_comp (args_labels args) (resolve m);
     ls' ← list_comp (rev (argsort ss)) (getitem lsc);
     ss' ← list_comp (rev (argsort ss)) (getitem ss);
     Ok {| mapping := m; labels := ls'; scores := ss' |}).
Proof.
  destruct args as [l [s|]|ls [ss|]]; unfold ObjectTag_init;
    cbn [of_option mbind result_bind args_scores args_labels fst snd];
    rewrite ?convert_loop; reflexivity.
Qed.

(** The positions that the sort yields are those of the scores. *)
Lemma order_elem (ss : list Q) (i : nat) :
  i ∈ rev (argsort ss) <-> i < length ss.
Proof.
  rewrite <- (Permutation_rev (argsort ss)), (argsort_perm ss), elem_of_seq.
  lia.
Qed.

Lemma gather_scores (ss : list Q) (order : list nat) :
  (forall i, i ∈ order -> i < length ss) ->
  list_comp order (getitem ss) = Ok (map (score_at ss) order).
Proof.
  induction order as [|i order IH]; intros Hv; [reflexivity|].
  cbn [list_comp map].
  destruct (lookup_lt_is_Some_2 ss i) as [y Hy]; [apply Hv; left|].
  assert (Hg : getitem ss i = Ok y) by (unfold getitem; rewrite Hy; reflexivity).
  rewrite Hg. cbn [mbind result_bind].
  rewrite IH by (intros j Hj; apply Hv; right; exact Hj).
  cbn [mbind result_bind]. unfold score_at.
  rewrite (nth_lookup_Some _ _ _ _ Hy). reflexivity.
Qed.

Lemma gather_zip {A B} (xs : list A) (ys : list B) (order : list nat) xs' ys' :
  list_comp order (getitem xs) = Ok xs' ->
  list_comp order (getitem ys) = Ok ys' ->
  zip xs' ys' = omap (pair_at xs ys) order.
Proof.
  revert xs' ys'; induction order as [|i order IH]; intros xs' ys' Hx Hy.
  - injection Hx as <-. reflexivity.
  - cbn [list_comp] in Hx, Hy.
    apply bind_Ok in Hx as (x & Hxi & Hx).
    apply bind_Ok in Hx as (xr & Hxr & Hx). injection Hx as <-.
    apply bind_Ok in Hy as (y & Hyi & Hy).
    apply bind_Ok in Hy as (yr & Hyr & Hy). injection Hy as <-.
    unfold getitem in Hxi, Hyi.
    destruct (xs !! i) as [x0|] eqn:Ex; [|discriminate].
    destruct (ys !! i) as [y0|] eqn:Ey; [|discriminate].
    injection Hxi as ->. injection Hyi as ->.
    cbn [omap list_omap]. unfold pair_at at 1. rewrite Ex, Ey.
    cbn. f_equal. apply IH; assumption.
Qed.

Lemma omap_seq_zip {A B} (ys : list B) : forall (xs : list A) k
    (f : nat -> option (A * B)),
  (forall i, f (k + i) = pair_at xs ys i) ->
  length ys <= length xs ->
  omap f (seq k (length ys)) = zip xs ys.
Proof.
  induction ys as [|y ys IH]; intros xs k f Hf Hlen; [destruct xs; reflexivity|].
  destruct xs as [|x xs]; [simpl in Hlen; lia|].
  cbn [length seq omap list_omap zip zip_with].
  pose proof (Hf 0) as H0. rewrite Nat.add_0_r in H0. rewrite H0.
  cbn. f_equal. apply IH.
  - intros i. replace (S k + i) with (k + S i) by lia. rewrite Hf. reflexivity.
  - simpl in Hlen. lia.
Qed.

(** What a returning constructor has done. *)
Lemma ObjectTag_init_Ok (args : tag_args member) mp (t : ObjectTag member) :
  ObjectTag_init args mp = Ok t ->
  exists m ss lsc,
    mp = Some m /\ args_scores args = Some ss /\
    list_comp (args_labels args) (resolve m) = Ok lsc /\
    length ss <= length lsc /\
    mapping t = m /\
    scores t = map (score_at ss) (rev (argsort ss)) /\
    (zip (labels t) (scores t) ≡ₚ zip lsc ss) /\
    list_comp (rev (argsort ss)) (getitem lsc) = Ok (labels t).
Proof.
  intros H. destruct mp as [m|]; [|discriminate].
  rewrite ObjectTag_init_eq in H.
  destruct (args_scores args) as [ss|]; [|discriminate].
  cbn [of_option mbind result_bind] in H.
  apply bind_Ok in H as (lsc & Hlsc & H).
  apply bind_Ok in H as (ls' & Hls' & H).
  apply bind_Ok in H as (ss' & Hss' & H). injection H as <-.
  assert (Hlen : length ss <= length lsc).
  { destruct (le_lt_dec (length ss) (length lsc)) as [|Hlt]; [assumption|].
    exfalso. apply list_comp_Ok in Hls'.
    assert (Hin : length lsc ∈ rev (argsort ss)) by (apply order_elem; lia).
    apply list_elem_of_lookup_1 in Hin as [j Hj].
    destruct (Forall2_lookup_l _ _ _ _ _ Hls' Hj) as (x & _ & Hx).
    unfold getitem in Hx. rewrite lookup_ge_None_2 in Hx by lia.
    discriminate. }
  exists m, ss, lsc. cbn [mapping labels scores].
  assert (Hsc : ss' = map (score_at ss) (rev (argsort ss))).
  { rewrite gather_scores in Hss' by (intros i; apply order_elem).
    congruence. }
  repeat (split; [first [reflexivity | assumption]|]).
  split; [|assumption].
  rewrite (gather_zip lsc ss _ _ _ Hls' Hss').
  rewrite <- (Permutation_rev (argsort ss)), (argsort_perm ss).
  rewrite (omap_seq_zip ss lsc 0 (pair_at lsc ss)); [reflexivity| |assumption].
  intros i. reflexivity.
Qed.

End TagProps.

Section TagTheorems.

Context {member : Type}.

(** X19: the tag constructor returns exactly when the mapping is an
    enumeration, a list of labels comes with scores, every label given as a
    name or a value is one of the enumeration, and there are no more scores
    than labels. *)
Theorem ObjectTag_init_returns_iff (args : tag_args member)
    (mp : option (Enum member)) :
  (exists t, ObjectTag_init args mp = Ok t) <->
  exists m ss,
    mp = Some m /\ args_scores args = Some ss /\
    (forall l, l ∈ args_labels args -> exists l', resolve m l = Ok l') /\
    length ss <= length (args_labels args).
Proof.
  split.
  - intros [t Ht].
    destruct (ObjectTag_init_Ok args mp t Ht)
      as (m & ss & lsc & -> & Hss & Hlsc & Hlen & _).
    exists m, ss. split; [reflexivity|]. split; [assumption|].
    rewrite <- (list_comp_length _ _ _ Hlsc). split; [|assumption].
    intros l Hl. apply list_elem_of_lookup_1 in Hl as [i Hi].
    apply list_comp_Ok in Hlsc.
    destruct (Forall2_lookup_l _ _ _ _ _ Hlsc Hi) as (l' & _ & Hl').
    eauto.
  - intros (m & ss & -> & Hss & Hres & Hlen).
    rewrite ObjectTag_init_eq, Hss. cbn [of_option mbind result_bind].
    destruct (list_comp_total (args_labels args) (resolve m) Hres)
      as [lsc Hlsc].
    rewrite Hlsc. cbn [mbind result_bind].
    apply list_comp_length in Hlsc.
    destruct (list_comp_total (rev (argsort ss)) (getitem lsc)) as [ls' Hls'].
    { intros i Hi. apply order_elem in Hi.
      destruct (lookup_lt_is_Some_2 lsc i) as [x Hx]; [lia|].
      exists x. unfold getitem. rewrite Hx. reflexivity. }
    rewrite Hls'. cbn [mbind result_bind].
    rewrite gather_scores by (intros i; apply order_elem).
    cbn [mbind result_bind]. eauto.
Qed.

(** X20: in the tag that the constructor returns the scores descend, and
    the labels still carry their scores: the pairs of label and score are
    those of the converted input, up to order (labels beyond the last score
    are left out). *)
Theorem ObjectTag_init_sorted (args : tag_args member)
    (mp : option (Enum member)) (t : ObjectTag member) :
  ObjectTag_init args mp = Ok t ->
  exists ss lsc,
    args_scores args = Some ss /\
    list_comp (args_labels args) (resolve (mapping t)) = Ok lsc /\
    StronglySorted (fun a b => (b <= a)%Q) (scores t) /\
    zip (labels t) (scores t) ≡ₚ zip lsc ss.
Proof.
  intros Ht.
  destruct (ObjectTag_init_Ok args mp t Ht)
    as (m & ss & lsc & -> & Hss & Hlsc & Hlen & <- & Hsc & Hperm & _).
  exists ss, lsc. split; [assumption|]. split; [assumption|].
  split; [|assumption].
  rewrite Hsc.
  apply (StronglySorted_fmap (score_at ss) (fun i j => le_score ss j i)).
  - intros i j Hij. exact Hij.
  - apply rev_argsort_sorted.
Qed.

(** X21: when the constructor returns and was given at least one score, the
    score that [tag_score] reads is the highest of the given scores and the
    label that [tag_name] reads is the converted label given with it. *)
Theorem top_label_has_best_score (args : tag_args member)
    (mp : option (Enum member)) (t : ObjectTag member) (ss : list Q) :
  ObjectTag_init args mp = Ok t ->
  args_scores args = Some ss ->
  ss <> [] ->
  exists s l' j l,
    top_score t = Ok s /\ top_label t = Ok l' /\
    args_labels args !! j = Some l /\ ss !! j = Some s /\
    resolve (mapping t) l = Ok l' /\
    forall s', s' ∈ ss -> (s' <= s)%Q.
Proof.
  intros Ht Hss Hne.
  destruct (ObjectTag_init_Ok args mp t Ht)
    as (m & ss0 & lsc & -> & Hss0 & Hlsc & Hlen & <- & Hsc & _ & Hls).
  assert (ss0 = ss) as -> by congruence.
  pose proof (rev_argsort_sorted ss) as Hsorted.
  pose proof (order_elem ss) as Helem.
  destruct (rev (argsort ss)) as [|j order] eqn:Eo.
  { exfalso. destruct ss as [|s0 ss]; [congruence|].
    assert (H0 : 0 ∈ @nil nat) by (apply Helem; simpl; lia).
    apply elem_of_nil in H0. exact H0. }
  assert (Hj : j < length ss) by (apply Helem; left).
  destruct (lookup_lt_is_Some_2 ss j Hj) as [s Hs].
  cbn [list_comp] in Hls.
  apply bind_Ok in Hls as (l' & Hl' & Hls).
  apply bind_Ok in Hls as (rest & _ & Hls). injection Hls as Hls.
  unfold getitem in Hl'.
  destruct (lsc !! j) as [x|] eqn:Ex; [|discriminate]. injection Hl' as ->.
  apply list_comp_Ok in Hlsc.
  destruct (Forall2_lookup_r _ _ _ _ _ Hlsc Ex) as (l & Hl & Hres).
  exists s, l', j, l.
  split. { unfold top_score. rewrite Hsc. cbn [map getitem].
           unfold score_at. rewrite (nth_lookup_Some _ _ _ _ Hs).
           reflexivity. }
  split. { unfold top_label. rewrite <- Hls. reflexivity. }
  split; [assumption|]. split; [assumption|]. split; [assumption|].
  intros s' Hs'. apply list_elem_of_lookup_1 in Hs' as [i Hi].
  assert (Hin : i ∈ j :: order) by (apply Helem; eapply lookup_lt_Some, Hi).
  apply StronglySorted_cons in Hsorted as [Hall _].
  assert (Hle : le_score ss i j).
  { apply elem_of_cons in Hin as [->|Hin].
    - unfold le_score. apply Qle_refl.
    - rewrite Forall_forall in Hall. apply Hall. exact Hin. }
  unfold le_score, score_at in Hle.
  rewrite (nth_lookup_Some _ _ _ _ Hi), (nth_lookup_Some _ _ _ _ Hs) in Hle.
  exact Hle.
Qed.


End TagTheorems.

Lemma scored_tag_eq :
  ObjectTag_init scored_args (Some three_classes) = Ok scored_tag.
Proof. vm_compute. reflexivity. Qed.

Lemma ObjectTag_init_sorted_witness :
  exists ss lsc,
    args_scores scored_args = Some ss /\
    list_comp (args_labels scored_args) (resolve (mapping scored_tag))
    = Ok lsc /\
    StronglySorted (fun a b => (b <= a)%Q) (scores scored_tag) /\
    zip (labels scored_tag) (scores scored_tag) ≡ₚ zip lsc ss.
Proof.
  exact (ObjectTag_init_sorted scored_args (Some three_classes) scored_tag
           scored_tag_eq).
Defined.

Lemma top_label_has_best_score_witness :
  exists s l' j l,
    top_score scored_tag = Ok s /\ top_label scored_tag = Ok l' /\
    args_labels scored_args !! j = Some l /\
    [3 # 10; 6 # 10; 1 # 10]%Q !! j = Some s /\
    resolve (mapping scored_tag) l = Ok l' /\
    forall s', s' ∈ [3 # 10; 6 # 10; 1 # 10]%Q -> (s' <= s)%Q.
Proof.
  apply (top_label_has_best_score scored_args (Some three_classes) scored_tag
           [3 # 10; 6 # 10; 1 # 10]%Q scored_tag_eq).
  - reflexivity.
  - discriminate.
Defined.


(** * Sensor calibration *)

Section CalibrationProps.

Context {matrix : Type} `{Arrays matrix}.

Lemma assert_exist_Ok (self : TransformSet matrix) f extrinsic :
  _assert_exist self f extrinsic = Ok tt <->
  intrinsics self !! f <> None /\
  (extrinsic = true -> extrinsics self !! f <> None).
Proof.
  unfold _assert_exist.
  destruct (decide (intrinsics self !! f = None)) as [Hi|Hi].
  - split; [discriminate|]. intros [Hn _]. contradiction.
  - destruct extrinsic; cbn [andb].
    + destruct (bool_decide_reflect (extrinsics self !! f = None)) as [He|He].
      * split; [discriminate|]. intros [_ Hn]. exfalso. apply Hn; auto.
      * split; [auto|reflexivity].
    + split; [|reflexivity]. intros _. split; [assumption|discriminate].
Qed.

Lemma assert_exist_inv (self : TransformSet matrix) f extrinsic u :
  _assert_exist self f extrinsic = Ok u ->
  intrinsics self !! f <> None /\
  (extrinsic = true -> extrinsics self !! f <> None).
Proof. destruct u. apply assert_exist_Ok. Qed.

(** A returning [set_extrinsic] leaves the intrinsics alone and writes the
    extrinsic of one frame, which has an intrinsic. *)
Lemma set_extrinsic_effect (self ts' : TransformSet matrix) t f_to f_from :
  set_extrinsic self t f_to f_from = Ok ts' ->
  exists f m,
    intrinsics self !! f <> None /\ ts' = with_extrinsic self f m.
Proof.
  unfold set_extrinsic. intros Hrun.
  apply bind_Ok in Hrun as (_ & _ & Hrun).
  apply bind_Ok in Hrun as (t' & _ & Hrun).
  destruct (decide (f_to = None)).
  - apply bind_Ok in Hrun as (u & Hu & Hrun).
    apply bind_Ok in Hrun as (m & _ & Hrun). injection Hrun as <-.
    apply assert_exist_inv in Hu as [Hu _]. eauto.
  - apply bind_Ok in Hrun as (u & Hu & Hrun).
    apply assert_exist_inv in Hu as [Hu _].
    destruct (decide (f_from = None)).
    + apply bind_Ok in Hrun as (_ & _ & Hrun). injection Hrun as <-. eauto.
    + apply bind_Ok in Hrun as (u' & Hu' & Hrun).
      apply assert_exist_inv in Hu' as [Hu' _].
      destruct (extrinsics self !! f_from) as [e|].
      * apply bind_Ok in Hrun as (m & _ & Hrun). injection Hrun as <-. eauto.
      * destruct (extrinsics self !! f_to) as [e|]; [|discriminate].
        apply bind_Ok in Hrun as (ei & _ & Hrun).
        apply bind_Ok in Hrun as (m & _ & Hrun). injection Hrun as <-. eauto.
Qed.

Lemma consistent_camera (ts ts' : TransformSet matrix) f t size rotate dc di :
  consistent ts ->
  set_intrinsic_camera ts f t size rotate dc di = Ok ts' ->
  consistent ts'.
Proof.
  intros [He Hm] Hrun. unfold set_intrinsic_camera in Hrun.
  destruct size as [w h].
  apply bind_Ok in Hrun as (t' & _ & Hrun). injection Hrun as <-.
  split; cbn [intrinsics intrinsics_meta extrinsics]; intros g.
  - intros Hg. rewrite lookup_insert. destruct (decide (f = g)); [discriminate|].
    apply He, Hg.
  - rewrite !lookup_insert. destruct (decide (f = g)); [|apply Hm].
    split; discriminate.
Qed.

Lemma consistent_lidar (ts : TransformSet matrix) f :
  consistent ts -> consistent (set_intrinsic_lidar ts f).
Proof.
  intros [He Hm].
  split; cbn [set_intrinsic_lidar intrinsics intrinsics_meta extrinsics];
    intros g.
  - intros Hg. rewrite lookup_insert. destruct (decide (f = g)); [discriminate|].
    apply He, Hg.
  - rewrite !lookup_insert. destruct (decide (f = g)); [|apply Hm].
    split; discriminate.
Qed.

Lemma consistent_extrinsic (ts ts' : TransformSet matrix) t f_to f_from :
  consistent ts ->
  set_extrinsic ts t f_to f_from = Ok ts' ->
  consistent ts'.
Proof.
  intros [He Hm] Hrun.
  destruct (set_extrinsic_effect _ _ _ _ _ Hrun) as (f & m & Hf & ->).
  split; cbn [with_extrinsic intrinsics intrinsics_meta extrinsics]; intros g.
  - rewrite lookup_insert. destruct (decide (f = g)) as [<-|]; [auto|apply He].
  - apply Hm.
Qed.

Lemma configured_is_consistent (ts : TransformSet matrix) :
  configured ts -> consistent ts.
Proof.
  induction 1 as [base|ts ts' f t size rotate dc di _ IH Hrun|ts f _ IH
                  |ts ts' f size cx cy fx fy s dc _ IH Hrun
                  |ts ts' t f_to f_from _ IH Hrun].
  - split; intros f; cbn [TransformSet_init intrinsics intrinsics_meta
                           extrinsics].
    + intros Hf. exfalso. apply Hf. apply lookup_empty.
    + rewrite !lookup_empty. tauto.
  - eapply consistent_camera; eassumption.
  - apply consistent_lidar; assumption.
  - unfold set_intrinsic_pinhole in Hrun.
    eapply consistent_camera; eassumption.
  - eapply consistent_extrinsic; eassumption.
Qed.

(** X23: in every calibration that the constructor and the setters can
    produce, the two dictionaries of intrinsics hold the same frames and
    every frame that has an extrinsic has an intrinsic. *)
Theorem configured_consistent (ts : TransformSet matrix) :
  configured ts ->
  (forall f, extrinsics ts !! f <> None -> intrinsics ts !! f <> None) /\
  (forall f, intrinsics ts !! f = None <-> intrinsics_meta ts !! f = None).
Proof. intros Hc. exact (configured_is_consistent ts Hc). Qed.

(** X24: [set_extrinsic] never returns when its two frames are equal, which
    includes the call that leaves both out: it raises [TypeError], or what
    [np.diag] raises on the transform. *)
Theorem set_extrinsic_same_frame_fails (self : TransformSet matrix)
    (transform : matrix) (f : option string) :
  exists e, set_extrinsic self transform f f = Raise e /\
            (e = TypeError \/ np_diag transform = Raise e).
Proof.
  unfold set_extrinsic. rewrite (decide_True (P := f = f)) by reflexivity.
  unfold identity_check.
  destruct (np_diag transform) as [d|e] eqn:Ed.
  - exists TypeError. split; [reflexivity|left; reflexivity].
  - exists e. split; [reflexivity|right; reflexivity].
Qed.

(** X25: an extrinsic set from the base frame to a frame is what
    [get_extrinsic] then returns for that frame: the transform itself when
    it is 4x4, and the transform with its fourth row added when it is
    3x4. *)
Theorem set_get_extrinsic_round_trip (self ts' : TransformSet matrix)
    (transform : matrix) (f : option string) :
  set_extrinsic self transform f None = Ok ts' ->
  get_extrinsic ts' f None
  = Ok (Matrix (if decide (shape transform = [3; 4])
                then vstack_row transform else transform)).
Proof.
  unfold set_extrinsic. intros Hrun.
  destruct (decide (f = None)) as [->|Hf].
  { rewrite (decide_True (P := None = None)) in Hrun by reflexivity.
    unfold identity_check in Hrun.
    destruct (np_diag transform); discriminate. }
  rewrite !(decide_False (P := f = None)) in Hrun by exact Hf.
  cbn [mbind result_bind] in Hrun.
  apply bind_Ok in Hrun as (t' & Ht' & Hrun).
  apply bind_Ok in Hrun as (u & Hu & Hrun).
  rewrite (decide_True (P := None = None)) in Hrun by reflexivity.
  apply bind_Ok in Hrun as (_ & _ & Hrun). injection Hrun as <-.
  apply assert_exist_inv in Hu as [Hi _].
  assert (Ht : t' = if decide (shape transform = [3; 4])
                    then vstack_row transform else transform).
  { destruct (decide (shape transform = [3; 4])); [congruence|].
    destruct (decide (shape transform <> [4; 4])); [discriminate|congruence]. }
  unfold get_extrinsic.
  rewrite (decide_False (P := f = None)) by exact Hf.
  rewrite (decide_False (P := None <> None)) by (intros Hn; apply Hn; reflexivity).
  rewrite (decide_True (P := f <> None)) by exact Hf.
  assert (Ha : _assert_exist (with_extrinsic self f t') f true = Ok tt).
  { apply assert_exist_Ok.
    cbn [with_extrinsic intrinsics extrinsics]. split; [exact Hi|].
    intros _. rewrite lookup_insert_eq. discriminate. }
  rewrite Ha. cbn [mbind result_bind]. unfold dict_get.
  cbn [with_extrinsic extrinsics]. rewrite lookup_insert_eq.
  cbn [of_option mbind result_bind]. rewrite Ht. reflexivity.
Qed.

(** X26: in every calibration that the constructor and the setters can
    produce, [get_extrinsic] returns for a frame, from the base frame,
    exactly the extrinsic stored for it. *)
Theorem stored_extrinsic_is_read (ts : TransformSet matrix)
    (f : option string) (m : matrix) :
  configured ts ->
  f <> None ->
  (get_extrinsic ts f None = Ok (Matrix m) <-> extrinsics ts !! f = Some m).
Proof.
  intros Hc Hf. destruct (configured_is_consistent ts Hc) as [He _].
  unfold get_extrinsic.
  rewrite (decide_False (P := f = None)) by exact Hf.
  rewrite (decide_False (P := None <> None)) by (intros Hn; apply Hn; reflexivity).
  rewrite (decide_True (P := f <> None)) by exact Hf.
  split.
  - intros Hrun. apply bind_Ok in Hrun as (_ & _ & Hrun).
    apply bind_Ok in Hrun as (a & Ha & Hrun). injection Hrun as <-.
    unfold dict_get in Ha. destruct (extrinsics ts !! f); [|discriminate].
    simpl in Ha. congruence.
  - intros Hm.
    assert (Ha : _assert_exist ts f true = Ok tt).
    { apply assert_exist_Ok. split.
      - apply He. rewrite Hm. discriminate.
      - intros _. rewrite Hm. discriminate. }
    rewrite Ha. cbn [mbind result_bind]. unfold dict_get. rewrite Hm.
    reflexivity.
Qed.

End CalibrationProps.

Lemma rig_intrinsics_eq :
  set_intrinsic_pinhole (set_intrinsic_lidar (TransformSet_init velo) velo)
    cam (1242, 375)%Q 609 172 721 721 0 []
  = Ok rig_intrinsics.
Proof. vm_compute. reflexivity. Qed.

Lemma rig_eq : set_extrinsic rig_intrinsics (Named "T" [3; 4]) cam None = Ok rig.
Proof. vm_compute. reflexivity. Qed.

Lemma rig_configured : configured rig.
Proof.
  eapply conf_extrinsic; [|exact rig_eq].
  eapply conf_pinhole; [|exact rig_intrinsics_eq].
  apply conf_lidar, conf_init.
Qed.

Lemma configured_consistent_witness :
  (forall f, extrinsics rig !! f <> None -> intrinsics rig !! f <> None) /\
  (forall f, intrinsics rig !! f = None <-> intrinsics_meta rig !! f = None).
Proof. exact (configured_consistent rig rig_configured). Defined.

Lemma set_get_extrinsic_round_trip_witness :
  get_extrinsic rig cam None
  = Ok (Matrix (if decide (shape (Named "T" [3; 4]) = [3; 4])
                then vstack_row (Named "T" [3; 4]) else Named "T" [3; 4])).
Proof.
  exact (set_get_extrinsic_round_trip rig_intrinsics rig (Named "T" [3; 4])
           cam rig_eq).
Defined.

Lemma stored_extrinsic_is_read_witness :
  get_extrinsic rig cam None = Ok (Matrix (Stacked (Named "T" [3; 4]))) <->
  extrinsics rig !! cam = Some (Stacked (Named "T" [3; 4])).
Proof.
  apply (stored_extrinsic_is_read rig cam (Stacked (Named "T" [3; 4]))
           rig_configured).
  discriminate.
Defined.

(** * The F-score curve *)

Lemma for_each_collect {A B} (l : list A) (g : A -> result B) (acc : list B) :
  for_each l (fun x acc => v ← g x; Ok (acc ++ [v])) acc
  = (vs ← list_comp l g; Ok (acc ++ vs)).
Proof.
  revert acc; induction l as [|x l IH]; intros acc; cbn [for_each list_comp].
  - cbn. rewrite app_nil_r. reflexivity.
  - destruct (g x) as [v|e]; [|reflexivity]. cbn [mbind result_bind].
    rewrite IH. destruct (list_comp l g) as [vs|e]; [|reflexivity].
    cbn [mbind result_bind]. rewrite <- app_assoc. reflexivity.
Qed.

Lemma dict_comp_returns {V} (ks : list ObjectClass)
    (f : ObjectClass -> result V) (acc : gmap ObjectClass V) :
  (exists m, dict_comp ks f acc = Ok m) <->
  forall k, k ∈ ks -> exists v, f k = Ok v.
Proof.
  revert acc; induction ks as [|k0 ks IH]; intros acc; cbn [dict_comp].
  - split; [|eauto]. intros _ k Hk. apply elem_of_nil in Hk. contradiction.
  - split.
    + intros [m Hm]. apply bind_Ok in Hm as (v & Hv & Hm).
      intros k Hk. apply elem_of_cons in Hk as [->|Hk]; [eauto|].
      apply (proj1 (IH (<[k0 := v]> acc))); eauto.
    + intros Hf. destruct (Hf k0) as [v Hv]; [left|]. rewrite Hv.
      cbn [mbind result_bind]. apply IH. intros k Hk. apply Hf. right.
      exact Hk.
Qed.

Lemma dict_comp_raises {V} (ks : list ObjectClass)
    (f : ObjectClass -> result V) (acc : gmap ObjectClass V) (e : exn) :
  dict_comp ks f acc = Raise e -> exists k, k ∈ ks /\ f k = Raise e.
Proof.
  revert acc; induction ks as [|k0 ks IH]; intros acc; cbn [dict_comp];
    [discriminate|].
  intros H. apply bind_Raise in H as [H|(v & _ & H)].
  - exists k0. split; [left|exact H].
  - destruct (IH _ H) as (k & Hk & Hfk). exists k. split; [right|]; assumption.
Qed.

(** The ratio of a level is zero exactly when the level has no true
    positive but some of the other count. *)
Lemma ratio_eq_zero (t f : nat) : (ratio_eq t f == 0)%Q <-> t = 0 /\ 0 < f.
Proof.
  unfold ratio_eq. destruct f as [|f]; cbn [Nat.eqb].
  - split; [intros Hq; discriminate Hq|lia].
  - split.
    + intros Hq. split; [|lia]. destruct t as [|t]; [reflexivity|exfalso].
      assert (Hpos : (0 < Qnat (S t) / Qnat (S t + S f))%Q).
      { apply Qlt_shift_div_l; [apply Qnat_pos; lia|].
        rewrite Qmult_0_l. apply Qnat_pos. lia. }
      rewrite Hq in Hpos. apply (Qlt_irrefl 0), Hpos.
    + intros [-> _]. unfold Qdiv. change (Qnat 0) with 0%Q. apply Qmult_0_l.
Qed.

(** The division of the F-score fails exactly when precision and recall are
    both zero. *)
Lemma fs_expr_returns (b2 p r : Q) :
  (0 < b2)%Q -> (0 <= p)%Q -> (0 <= r)%Q ->
  ((exists v, fs_expr b2 p r = Ok v) <-> ~ ((p == 0)%Q /\ (r == 0)%Q)) /\
  (forall e, fs_expr b2 p r = Raise e -> e = ZeroDivisionError).
Proof.
  intros Hb Hp Hr. unfold fs_expr, py_div.
  destruct (Qeq_bool (b2 * p + r) 0) eqn:E.
  - apply Qeq_bool_iff in E. split.
    + split; [intros [v Hv]; discriminate|]. intros Hn. exfalso. apply Hn.
      pose proof (Qmult_le_0_compat _ _ (Qlt_le_weak _ _ Hb) Hp) as Hbp.
      assert (Hr0 : (r == 0)%Q) by lra.
      split; [|exact Hr0].
      assert (Hbp0 : (b2 * p == 0)%Q) by lra.
      apply Qmult_integral in Hbp0 as [Hb0|Hp0]; [|exact Hp0].
      rewrite Hb0 in Hb. exfalso. apply (Qlt_irrefl 0), Hb.
    + intros e [= <-]. reflexivity.
  - apply Qeq_bool_neq in E. split.
    + split; [|eauto]. intros _ [Hp0 Hr0]. apply E.
      rewrite Hp0, Hr0. ring.
    + intros e He. discriminate.
Qed.

Lemma fs_curve_eq (b : ObjectBenchmark) (b2 : Q)
    (p r : gmap ObjectClass (list Q)) (k : ObjectClass) lp lr :
  p !! k = Some lp -> r !! k = Some lr ->
  fs_curve b b2 p r k
  = list_comp (seq 0 (_pr_nsamples b))
      (fun i => pi ← getitem lp i; ri ← getitem lr i; fs_expr b2 pi ri).
Proof.
  intros Hp Hr. unfold fs_curve.
  rewrite (for_each_ext _ _
             (fun i acc =>
                v ← (pi ← getitem lp i; ri ← getitem lr i; fs_expr b2 pi ri);
                Ok (acc ++ [v]))).
  - rewrite for_each_collect.
    destruct (list_comp _ _); reflexivity.
  - intros i acc _. unfold dict_get. rewrite Hp, Hr.
    cbn [of_option mbind result_bind].
    destruct (getitem lp i); [|reflexivity]. cbn [mbind result_bind].
    destruct (getitem lr i); [|reflexivity]. cbn [mbind result_bind].
    reflexivity.
Qed.

(** One level of one class of the F-score curve. *)
Lemma fs_level (ltp lfp lfn : list nat) (n i : nat) (b2 : Q) t f m :
  (0 < b2)%Q -> i < n ->
  ltp !! i = Some t -> lfp !! i = Some f -> lfn !! i = Some m ->
  ((exists v, (pi ← getitem (ratio_list ltp lfp n) i;
               ri ← getitem (ratio_list ltp lfn n) i;
               fs_expr b2 pi ri) = Ok v)
   <-> ~ (t = 0 /\ 0 < f /\ 0 < m)) /\
  (forall e, (pi ← getitem (ratio_list ltp lfp n) i;
              ri ← getitem (ratio_list ltp lfn n) i;
              fs_expr b2 pi ri) = Raise e -> e = ZeroDivisionError).
Proof.
  intros Hb Hi Ht Hf Hm. unfold getitem.
  rewrite (ratio_list_lookup _ _ _ _ _ _ Ht Hf Hi).
  rewrite (ratio_list_lookup _ _ _ _ _ _ Ht Hm Hi).
  cbn [of_option mbind result_bind].
  destruct (fs_expr_returns b2 (ratio_eq t f) (ratio_eq t m) Hb
              (proj1 (ratio_eq_unit t f)) (proj1 (ratio_eq_unit t m)))
    as [Hiff Herr].
  split; [|exact Herr].
  rewrite Hiff, !ratio_eq_zero. clear. split; intros Hn H; apply Hn; lia.
Qed.

(** The whole-curve F-score query on a well-shaped benchmark. *)
Lemma fscore_curve_runs (b : ObjectBenchmark) (beta : Q) :
  well_shaped b ->
  ~ (beta == 0)%Q ->
  ((exists m, fscore b beta None = Ok m) <->
   forall k i t f m,
     k ∈ _classes b ->
     level_of (_tp b) i k = Some t ->
     level_of (_fp b) i k = Some f ->
     level_of (_fn b) i k = Some m ->
     ~ (t = 0 /\ 0 < f /\ 0 < m)) /\
  (forall e, fscore b beta None = Raise e -> e = ZeroDivisionError).
Proof.
  intros Hwf Hbeta.
  assert (Hb2 : (0 < beta * beta)%Q).
  { destruct (Qlt_le_dec 0 beta) as [Hpos|Hneg].
    - apply Qmult_lt_0_compat; assumption.
    - assert (Hlt : (beta < 0)%Q).
      { apply Qle_lteq in Hneg as [Hlt|Heq]; [exact Hlt|].
        exfalso. apply Hbeta. exact Heq. }
      assert (Heq : (beta * beta == (- beta) * (- beta))%Q) by ring.
      rewrite Heq. apply Qmult_lt_0_compat; lra. }
  destruct (precision_curve_spec b Hwf) as (p & Hp & Hpk).
  destruct (recall_curve_spec b Hwf) as (r & Hr & Hrk).
  destruct Hwf as (Htp & Hfp & Hfn & _ & _).
  assert (Hrun : fscore b beta None
                 = (fs ← dict_comp (_classes b)
                           (fs_curve b (beta * beta) p r) ∅;
                    Ok (Curve r))).
  { unfold fscore. rewrite Hp, Hr. reflexivity. }
  assert (Hclass : forall k, k ∈ _classes b ->
            exists ltp lfp lfn,
              _tp b !! k = Some ltp /\ _fp b !! k = Some lfp /\
              _fn b !! k = Some lfn /\
              length ltp = _pr_nsamples b /\ length lfp = _pr_nsamples b /\
              length lfn = _pr_nsamples b /\
              fs_curve b (beta * beta) p r k
              = list_comp (seq 0 (_pr_nsamples b))
                  (fun i =>
                     pi ← getitem (ratio_list ltp lfp (_pr_nsamples b)) i;
                     ri ← getitem (ratio_list ltp lfn (_pr_nsamples b)) i;
                     fs_expr (beta * beta) pi ri)).
  { intros k Hk.
    destruct (proj1 (Hpk k) Hk) as (ltp & lfp & Hltp & Hlfp & Hpl).
    destruct (proj1 (Hrk k) Hk) as (ltp' & lfn & Hltp' & Hlfn & Hrl).
    assert (ltp' = ltp) as -> by congruence.
    exists ltp, lfp, lfn.
    repeat (split; [first [assumption
                          | exact (proj2 Htp _ _ Hltp)
                          | exact (proj2 Hfp _ _ Hlfp)
                          | exact (proj2 Hfn _ _ Hlfn)]|]).
    apply fs_curve_eq; assumption. }
  split.
  - rewrite Hrun. split.
    + intros [m Hm]. apply bind_Ok in Hm as (fs & Hfs & _).
      intros k i t f m' Hk Ht Hf Hm'.
      destruct (Hclass k Hk)
        as (ltp & lfp & lfn & Hltp & Hlfp & Hlfn & Lt & Lp & Ln & Heq).
      unfold level_of in Ht, Hf, Hm'. rewrite Hltp in Ht. rewrite Hlfp in Hf.
      rewrite Hlfn in Hm'. cbn in Ht, Hf, Hm'.
      assert (Hi : i < _pr_nsamples b)
        by (rewrite <- Lt; eapply lookup_lt_Some, Ht).
      destruct (proj1 (dict_comp_returns _ _ _) (ex_intro _ fs Hfs) k Hk)
        as [vs Hvs].
      rewrite Heq in Hvs. apply list_comp_Ok in Hvs.
      destruct (Forall2_lookup_l _ _ _ i i Hvs) as (v & _ & Hv).
      { apply lookup_seq. split; [reflexivity|exact Hi]. }
      apply (proj1 (proj1 (fs_level ltp lfp lfn _ i _ t f m' Hb2 Hi Ht Hf
                             Hm'))).
      exists v. exact Hv.
    + intros Hall.
      destruct (proj2 (dict_comp_returns (_classes b)
                         (fs_curve b (beta * beta) p r) ∅)) as [fs Hfs].
      { intros k Hk.
        destruct (Hclass k Hk)
          as (ltp & lfp & lfn & Hltp & Hlfp & Hlfn & Lt & Lp & Ln & Heq).
        rewrite Heq. apply list_comp_total. intros i Hi.
        apply elem_of_seq in Hi as [_ Hi]. cbn in Hi.
        destruct (lookup_lt_is_Some_2 ltp i) as [t Ht]; [lia|].
        destruct (lookup_lt_is_Some_2 lfp i) as [f Hf]; [lia|].
        destruct (lookup_lt_is_Some_2 lfn i) as [m' Hm']; [lia|].
        apply (proj2 (proj1 (fs_level ltp lfp lfn _ i _ t f m' Hb2 Hi Ht Hf
                               Hm'))).
        apply (Hall k i); [exact Hk| | |]; unfold level_of.
        - rewrite Hltp. exact Ht.
        - rewrite Hlfp. exact Hf.
        - rewrite Hlfn. exact Hm'. }
      rewrite Hfs. cbn. eauto.
  - intros e He. rewrite Hrun in He.
    apply bind_Raise in He as [He|(fs & _ & He)]; [|discriminate].
    apply dict_comp_raises in He as (k & Hk & He).
    destruct (Hclass k Hk)
      as (ltp & lfp & lfn & Hltp & Hlfp & Hlfn & Lt & Lp & Ln & Heq).
    rewrite Heq in He. apply list_comp_Raise in He as (i & Hi & He).
    apply elem_of_seq in Hi as [_ Hi]. cbn in Hi.
    destruct (lookup_lt_is_Some_2 ltp i) as [t Ht]; [lia|].
    destruct (lookup_lt_is_Some_2 lfp i) as [f Hf]; [lia|].
    destruct (lookup_lt_is_Some_2 lfn i) as [m' Hm']; [lia|].
    exact (proj2 (fs_level ltp lfp lfn _ i _ t f m' Hb2 Hi Ht Hf Hm') e He).
Qed.



(** The benchmark of the frame whose only detection misses its only ground
    truth has such a level, and its F-score curve divides by zero. *)
Example fscore_curve_divides_by_zero :
  fscore missed_benchmark 1 None = Raise ZeroDivisionError.
Proof. vm_compute. reflexivity. Qed.

(** * The summary *)

Lemma ap_returns (b : ObjectBenchmark) :
  well_shaped b ->
  exists a, ap b = Ok a /\ forall k, k ∈ _classes b -> is_Some (a !! k).
Proof.
  intros Hwf.
  destruct (precision_curve_spec b Hwf) as (p & Hp & Hpk).
  destruct (recall_curve_spec b Hwf) as (r & Hr & Hrk).
  destruct (dict_comp_Ok (_classes b)
              (fun k => pk ← dict_get p k; rk ← dict_get r k;
                        Ok (- trapz pk rk)%Q)
              (fun k => (- trapz (default [] (p !! k))
                                 (default [] (r !! k)))%Q) ∅)
    as (a & Ha & Hin & _).
  { intros k Hk.
    destruct (proj1 (Hpk k) Hk) as (ltp & lfp & _ & _ & Hpl).
    destruct (proj1 (Hrk k) Hk) as (ltp' & lfn & _ & _ & Hrl).
    unfold dict_get. rewrite Hpl, Hrl. reflexivity. }
  exists a. split.
  - unfold ap. rewrite Hp, Hr. simpl. exact Ha.
  - intros k Hk. rewrite (Hin k Hk). eauto.
Qed.

Lemma precision_at_returns (b : ObjectBenchmark) (s : Q) :
  well_shaped b -> 0 < _pr_nsamples b ->
  length (_pr_thresholds b) <= _pr_nsamples b ->
  exists p, precision b (Some s) = Ok (AtScore p) /\
            forall k, k ∈ _classes b -> is_Some (p !! k).
Proof.
  intros (Htp & Hfp & _) Hn Hlen.
  pose proof (score_idx_range b (Some s) Hn Hlen) as Hidx.
  destruct (at_score_spec _ _ _ _ _ Htp Hfp Hidx)
    as (ts & fs & p & Hts & Hfs & Hp & Hpk).
  exists p. split; [exact (precision_score_run b s ts fs p Hts Hfs Hp)|].
  intros k Hk. destruct (Hpk k Hk) as (t & f & _ & _ & ->). eauto.
Qed.

Lemma recall_at_returns (b : ObjectBenchmark) (s : Q) :
  well_shaped b -> 0 < _pr_nsamples b ->
  length (_pr_thresholds b) <= _pr_nsamples b ->
  exists r, recall b (Some s) = Ok (AtScore r) /\
            forall k, k ∈ _classes b -> is_Some (r !! k).
Proof.
  intros (Htp & _ & Hfn & _) Hn Hlen.
  pose proof (score_idx_range b (Some s) Hn Hlen) as Hidx.
  destruct (at_score_spec _ _ _ _ _ Htp Hfn Hidx)
    as (ts & fs & r & Hts & Hfs & Hr & Hrk).
  exists r. split; [exact (recall_score_run b s ts fs r Hts Hfs Hr)|].
  intros k Hk. destruct (Hrk k Hk) as (t & f & _ & _ & ->). eauto.
Qed.

Lemma py_max_returns (l : list Q) : 0 < length l -> exists x, py_max l = Ok x.
Proof. destruct l; simpl; [lia|eauto]. Qed.

Lemma py_max_nat_returns (l : list nat) :
  0 < length l -> exists x, py_max_nat l = Ok x.
Proof. destruct l; simpl; [lia|eauto]. Qed.

Section SummaryProps.

Variable name : ObjectClass -> string.
Variable fmt_d : nat -> string.
Variable fmt_3f : Q -> string.

Lemma summary_class_returns (b : ObjectBenchmark) p r rc a k lines :
  well_shaped b -> 0 < _pr_nsamples b ->
  k ∈ _classes b ->
  is_Some (p !! k) -> is_Some (r !! k) -> is_Some (a !! k) ->
  (exists l, rc !! k = Some l /\ 0 < length l) ->
  exists lines',
    summary_class name fmt_d fmt_3f b (AtScore p) (AtScore r) (Curve rc) a k
      lines = Ok lines'.
Proof.
  intros (_ & _ & _ & Hgt & Hdt) Hn Hk [pk Hpk] [rk Hrk] [ak Hak]
         (l & Hl & Hlen).
  destruct (proj1 (Hgt k) Hk) as [ngt Hngt].
  destruct (proj1 (proj1 Hdt k) Hk) as [ldt Hldt].
  destruct (py_max_nat_returns ldt) as [mdt Hmdt].
  { rewrite (proj2 Hdt _ _ Hldt). exact Hn. }
  destruct (py_max_returns l Hlen) as [fk Hfk].
  unfold summary_class, number_at, max_at, dict_get.
  rewrite Hngt, Hldt. cbn [of_option mbind result_bind]. rewrite Hmdt.
  cbn [mbind result_bind]. rewrite Hpk, Hrk, Hl.
  cbn [of_option mbind result_bind]. rewrite Hfk.
  cbn [mbind result_bind]. rewrite Hak. cbn [of_option mbind result_bind].
  eauto.
Qed.

(** The body of the loop keeps the lines it was given and adds, among
    others, the line of the greatest entry of the class in [fscore]. *)
Lemma summary_class_line (b : ObjectBenchmark) p r fs a k lines lines' :
  summary_class name fmt_d fmt_3f b p r fs a k lines = Ok lines' ->
  (forall s, s ∈ lines -> s ∈ lines') /\
  exists fk, max_at fs k = Ok fk /\ f1_line fmt_3f fk ∈ lines'.
Proof.
  unfold summary_class. intros H.
  apply bind_Ok in H as (ngt & _ & H).
  apply bind_Ok in H as (ldt & _ & H).
  apply bind_Ok in H as (mdt & _ & H).
  apply bind_Ok in H as (pk & _ & H).
  apply bind_Ok in H as (rk & _ & H).
  apply bind_Ok in H as (fk & Hfk & H).
  apply bind_Ok in H as (ak & _ & H). injection H as <-.
  split.
  - intros s Hs. rewrite !elem_of_app. tauto.
  - exists fk. split; [exact Hfk|]. unfold f1_line.
    rewrite !elem_of_app, !list_elem_of_singleton. tauto.
Qed.

Lemma summary_loop_lines (b : ObjectBenchmark) p r fs a (cls : list ObjectClass) :
  forall lines lines',
  for_each cls (summary_class name fmt_d fmt_3f b p r fs a) lines = Ok lines' ->
  (forall s, s ∈ lines -> s ∈ lines') /\
  forall k, k ∈ cls -> exists fk, max_at fs k = Ok fk /\ f1_line fmt_3f fk ∈ lines'.
Proof.
  induction cls as [|k0 cls IH]; intros lines lines' Hrun; cbn [for_each] in Hrun.
  - injection Hrun as <-. split; [auto|].
    intros k Hk. apply elem_of_nil in Hk. contradiction.
  - apply bind_Ok in Hrun as (mid & Hmid & Hrun).
    destruct (summary_class_line _ _ _ _ _ _ _ _ Hmid) as (Hkeep & fk & Hfk & Hin).
    destruct (IH _ _ Hrun) as [Hkeep' Hall].
    split; [auto|].
    intros k Hk. apply elem_of_cons in Hk as [->|Hk]; [|auto].
    exists fk. split; [exact Hfk|auto].
Qed.

(** X28: on a well-shaped benchmark with at least one level and a ladder no
    longer than its tables, [summary] returns exactly when no tracked class
    has a level without true positives but with both false positives and
    false negatives. *)
Theorem summary_returns_iff (b : ObjectBenchmark) :
  well_shaped b ->
  0 < _pr_nsamples b ->
  length (_pr_thresholds b) <= _pr_nsamples b ->
  ((exists s, summary name fmt_d fmt_3f b = Ok s) <-> no_dead_level b).
Proof.
  intros Hwf Hn Hlen.
  assert (Hbeta : ~ (8 # 10 == 0)%Q) by (intros Hq; discriminate Hq).
  destruct (fscore_curve_runs b (8 # 10) Hwf Hbeta) as [Hiff _].
  split.
  - intros [s Hs]. unfold summary in Hs.
    apply bind_Ok in Hs as (lines & Hlines & _). unfold summary_lines in Hlines.
    apply bind_Ok in Hlines as (p & _ & Hlines).
    apply bind_Ok in Hlines as (r & _ & Hlines).
    apply bind_Ok in Hlines as (fs & Hfs & _).
    unfold no_dead_level. apply (proj1 Hiff). eauto.
  - intros Hcond. unfold no_dead_level in Hcond.
    destruct (proj2 Hiff Hcond) as [fs Hfs].
    destruct (precision_at_returns b (8 # 10) Hwf Hn Hlen) as (p & Hp & Hpk).
    destruct (recall_at_returns b (8 # 10) Hwf Hn Hlen) as (r & Hr & Hrk).
    destruct (ap_returns b Hwf) as (a & Ha & Hak).
    destruct (recall_curve_spec b Hwf) as (rc & Hrc & Hrck).
    assert (fs = Curve rc) as ->.
    { apply fscore_is_recall in Hfs. congruence. }
    destruct (for_each_total (fun _ => True) (_classes b)
                (summary_class name fmt_d fmt_3f b (AtScore p) (AtScore r)
                   (Curve rc) a)
                [""; "========== Benchmark Summary =========="] I)
      as (lines & Hlines & _).
    { intros k lines Hk _.
      destruct (summary_class_returns b p r rc a k lines Hwf Hn Hk)
        as [lines' Hl']; auto.
      - destruct (proj1 (Hrck k) Hk) as (ltp & lfn & _ & _ & Hl).
        eexists. split; [exact Hl|]. rewrite ratio_list_length. exact Hn.
      - eauto. }
    unfold summary, summary_lines. rewrite Hp, Hr, Hfs, Ha.
    cbn [mbind result_bind]. rewrite Hlines. cbn [mbind result_bind]. eauto.
Qed.

(** X29: in the lines of a returned summary, the line headed [F1 max] of
    every class shows the greatest entry of the recall curve of the class,
    not an F-score. *)
Theorem summary_f1_line_is_max_recall (b : ObjectBenchmark)
    (lines : list string) (k : ObjectClass) :
  summary_lines name fmt_d fmt_3f b = Ok lines ->
  k ∈ _classes b ->
  exists r lr mx,
    recall b None = Ok (Curve r) /\ r !! k = Some lr /\
    py_max lr = Ok mx /\
    f1_line fmt_3f mx ∈ lines.
Proof.
  intros Hlines Hk. unfold summary_lines in Hlines.
  apply bind_Ok in Hlines as (p & _ & Hlines).
  apply bind_Ok in Hlines as (r & _ & Hlines).
  apply bind_Ok in Hlines as (fs & Hfs & Hlines).
  apply bind_Ok in Hlines as (a & _ & Hlines).
  apply bind_Ok in Hlines as (body & Hbody & Hlines). injection Hlines as <-.
  apply fscore_is_recall in Hfs.
  destruct (summary_loop_lines _ _ _ _ _ _ _ _ Hbody) as [_ Hall].
  destruct (Hall k Hk) as (fk & Hfk & Hin).
  assert (Hcurve : exists rc, fs = Curve rc).
  { unfold recall in Hfs. apply bind_Ok in Hfs as (rc & _ & Hfs).
    injection Hfs as <-. eauto. }
  destruct Hcurve as [rc ->].
  cbn [max_at] in Hfk. apply bind_Ok in Hfk as (lr & Hlr & Hmx).
  unfold dict_get in Hlr. destruct (rc !! k) as [l|] eqn:El; [|discriminate].
  injection Hlr as ->.
  exists rc, lr, fk. split; [exact Hfs|]. split; [exact El|].
  split; [exact Hmx|]. apply elem_of_app. left. exact Hin.
Qed.

End SummaryProps.

Lemma summary_returns_iff_witness :
  (exists s, summary (fun _ => "Car") show_nat show_Q
               scenario_merged_benchmark = Ok s)
  <-> no_dead_level scenario_merged_benchmark.
Proof.
  apply (summary_returns_iff (fun _ => "Car") show_nat show_Q
           scenario_merged_benchmark scenario_merged_well_shaped).
  - vm_compute. lia.
  - vm_compute. lia.
Defined.

Lemma scenario_summary_lines_eq :
  summary_lines (fun _ => "Car") show_nat show_Q scenario_merged_benchmark
  = Ok scenario_summary_lines.
Proof. vm_compute. reflexivity. Qed.

Lemma summary_f1_line_is_max_recall_witness :
  exists r lr mx,
    recall scenario_merged_benchmark None = Ok (Curve r) /\
    r !! car = Some lr /\ py_max lr = Ok mx /\
    f1_line show_Q mx ∈ scenario_summary_lines.
Proof.
  apply (summary_f1_line_is_max_recall (fun _ => "Car") show_nat show_Q
           scenario_merged_benchmark scenario_summary_lines car
           scenario_summary_lines_eq).
  vm_compute. left.
Defined.
